(** * Blocky voxel models: model definition, cube baker and mesh baker

  A shallow embedding of [meshers/blocky/voxel_blocky_model.cpp] and of the
  part of [util/math/vector3f.h] it uses, with the comparisons of vectors,
  followed by the properties of the model definition and of the baking
  pipeline.

  Conventions of the embedding.
  - [float] is the 32-bit float of the source.  Its operations are the
    fields of the class [FloatOps]; every theorem holds for any
    implementation of them.  [Binary64] is an instance on the kernel's
    floats, used to evaluate the code on inputs that are exact in both
    formats (0, 1, 1/2, small integers).
  - The engine's value types ([Vector2], [Vector3], [Color], [AABB]) and the
    conversions of [util/math/conv.h] are the fields of the class [Engine].
  - [Cube::] constants and tables ([cube_tables.h]) are the fields of the
    class [CubeTables]; what a theorem needs of them is a hypothesis of
    that theorem.
  - [CRASH_COND] and an out-of-range read of an engine array abort the
    process: [Crashed].  [ERR_FAIL_COND] prints and returns: the function
    returns normally, with the error it reported.
  - A [Ref<Mesh>] is an address of a heap of meshes, or null; references
    are counted, so the address of a model's mesh holds an object.
  - The header [voxel_blocky_model.h] gives the members of the model and of
    the baked record; the two [clear()] it defines are modelled from the
    specification, and the member initialisers it gives are the fields of
    the class [ModelDefaults].
  - A setter that [ERR_FAIL_COND] stops returns the model as it was, with
    the error.  An [unsigned int] parameter is a [Z] that the theorems take
    in its range; the cast of an [int] to [unsigned int] is written out.
  - The engine's [Variant], the bounds [MAX_VOXEL_TYPES] and
    [MAX_MATERIALS] of other components and the named sides of [Cube::Side]
    are the fields of the classes [Variants], [Limits] and [CubeSides].
  - [int] is [Z].  Destination indices are sizes of vectors that hold at
    most one entry per source index, and the index array of the engine has
    fewer than 2^31 entries, so no [int] of the bakers wraps around. *)

From Stdlib Require Import ZArith List Bool Lia String Floats.
From stdpp Require Import base option list gmap.

Local Open Scope Z_scope.

(** ** Outcomes *)

Inductive outcome (A : Type) : Type :=
| Done (a : A)
| Crashed.
Arguments Done {A} a.
Arguments Crashed {A}.

Global Instance outcome_ret : MRet outcome := fun A a => Done a.

Global Instance outcome_bind : MBind outcome := fun A B k m =>
  match m with
  | Done a => k a
  | Crashed => Crashed
  end.

Global Instance outcome_fmap : FMap outcome := fun A B f m =>
  match m with
  | Done a => Done (f a)
  | Crashed => Crashed
  end.

(** ** Single-precision arithmetic *)

Class FloatOps : Type := {
  float : Type;
  f_zero : float;                      (* 0.f *)
  f_one : float;                       (* 1.f *)
  f_neg_one : float;                   (* -1.0f *)
  f_lit_0_001 : float;                 (* (float)0.001 *)
  f_lit_0_9 : float;                   (* 0.9 *)
  fadd : float -> float -> float;
  fsub : float -> float -> float;
  fmul : float -> float -> float;
  fdiv : float -> float -> float;
  flt : float -> float -> bool;        (* a < b *)
  fle : float -> float -> bool;        (* a <= b *)
  f_of_int : Z -> float;               (* (float)i *)
  (* Math::is_equal_approx(a, b, tolerance) of the engine *)
  is_equal_approx : float -> float -> float -> bool;
}.

(** ** util/math/vector3f.h *)

Module Vector3f.
Record t `{FloatOps} : Type := mk { x : float; y : float; z : float }.
Arguments mk {_} x y z.

Section Ops.
Context `{FloatOps}.

Definition zero : t := mk f_zero f_zero f_zero.

Definition cross (a p_with : t) : t :=
  mk (fsub (fmul (y a) (z p_with)) (fmul (z a) (y p_with)))
     (fsub (fmul (z a) (x p_with)) (fmul (x a) (z p_with)))
     (fsub (fmul (x a) (y p_with)) (fmul (y a) (x p_with))).

Definition dot (a p_with : t) : float :=
  fadd (fadd (fmul (x a) (x p_with)) (fmul (y a) (y p_with)))
       (fmul (z a) (z p_with)).

Definition sub (a p_v : t) : t :=
  mk (fsub (x a) (x p_v)) (fsub (y a) (y p_v)) (fsub (z a) (z p_v)).

Definition scale (a : t) (p_scalar : float) : t :=
  mk (fmul (x a) p_scalar) (fmul (y a) p_scalar) (fmul (z a) p_scalar).

(* operator[] *)
Definition coord (a : t) (p_axis : nat) : float :=
  match p_axis with
  | O => x a
  | S O => y a
  | _ => z a
  end.

Definition set_y (a : t) (v : float) : t := mk (x a) v (z a).
End Ops.
End Vector3f.

(** Modelled from the spec: [Vector2f] of util/math/vector2f.h, the
    two-dimensional vector of the UVs, with the operations the cube baker
    applies to it, component by component as in [Vector3f]. *)
Module Vector2f.
Record t `{FloatOps} : Type := mk { x : float; y : float }.
Arguments mk {_} x y.

Section Ops.
Context `{FloatOps}.

Definition zero : t := mk f_zero f_zero.

Definition add (a p_v : t) : t :=
  mk (fadd (x a) (x p_v)) (fadd (y a) (y p_v)).

Definition scale (a : t) (p_scalar : float) : t :=
  mk (fmul (x a) p_scalar) (fmul (y a) p_scalar).

Definition coord (a : t) (p_axis : nat) : float :=
  match p_axis with
  | O => x a
  | _ => y a
  end.
End Ops.
End Vector2f.

(** ** Engine value types and conversions *)

Class Engine `{FloatOps} : Type := {
  Vector2 : Type;                      (* engine vector, real_t components *)
  Vector3 : Type;
  Color : Type;
  AABB : Type;
  Vector2_default : Vector2;           (* Vector2(), what resize() fills with *)
  Vector2_sub : Vector2 -> Vector2 -> Vector2;
  to_vec2f : Vector2 -> Vector2f.t;
  to_vec3f : Vector3 -> Vector3f.t;
  Color_white : Color;                 (* Color(1.f, 1.f, 1.f) *)
  AABB_unit : AABB;                    (* AABB(Vector3(0,0,0), Vector3(1,1,1)) *)
}.

(** ** Cube:: constants and tables *)

Class CubeTables `{FloatOps} : Type := {
  SIDE_NEGATIVE_X : nat;
  SIDE_POSITIVE_X : nat;
  SIDE_NEGATIVE_Y : nat;
  SIDE_POSITIVE_Y : nat;
  SIDE_NEGATIVE_Z : nat;
  SIDE_POSITIVE_Z : nat;
  g_side_corners : nat -> nat -> nat;          (* [SIDE_COUNT][4] *)
  g_corner_position : nat -> Vector3f.t;       (* [CORNER_COUNT] *)
  g_side_quad_triangles : nat -> nat -> Z;     (* [SIDE_COUNT][6] *)
  g_side_tangents : nat -> nat -> float;       (* [SIDE_COUNT][4] *)
}.

(** The six sides bound before [SIDE_COUNT] at the end of [_bind_methods]. *)
Definition SIDE_COUNT : nat := 6.

(** The six side constants in the order [get_sides] tests them. *)
Definition side_constants `{CubeTables} : list nat :=
  [SIDE_NEGATIVE_X; SIDE_POSITIVE_X; SIDE_NEGATIVE_Y;
   SIDE_POSITIVE_Y; SIDE_NEGATIVE_Z; SIDE_POSITIVE_Z].

(** ** Meshes of the engine *)

(** What [surface_get_arrays] returns for a surface: an array of variants,
  [None] where the surface has no such array. *)
Module Mesh.
Record arrays `{Engine} : Type := mk_arrays {
  ARRAY_VERTEX : option (list Vector3);
  ARRAY_NORMAL : option (list Vector3);
  ARRAY_TANGENT : option (list float);
  ARRAY_TEX_UV : option (list Vector2);
  ARRAY_INDEX : option (list Z);
}.
Arguments mk_arrays {_ _} _ _ _ _ _.

(** [surface_get_arrays(0)]; [None] is the empty [Array] of a mesh without
    surface. *)
Record t `{Engine} : Type := mk { surface_get_arrays_0 : option arrays }.
Arguments mk {_ _} _.
End Mesh.

(** A variant read as a packed array: a nil variant gives the empty array. *)
Definition packed {A} (v : option (list A)) : list A :=
  match v with
  | Some l => l
  | None => []
  end.

(** [operator[]] of an engine array: [CRASH_BAD_INDEX] out of range. *)
Definition packed_get {A} (l : list A) (i : Z) : outcome A :=
  if 0 <=? i
  then match l !! Z.to_nat i with
       | Some v => Done v
       | None => Crashed
       end
  else Crashed.

(** [Ref<Mesh>]: null, or the address of a mesh object shared by its holders. *)
Definition MeshRef : Type := option nat.
Abbreviation MeshHeap := (gmap nat Mesh.t).

(** [Resource::duplicate] of the engine, on a mesh: a new object with the
  same arrays. *)
Definition Mesh_duplicate `{Engine} (h : MeshHeap) (a : nat)
  : MeshHeap * MeshRef :=
  match h !! a with
  | Some m => let a' := fresh (dom h) in (<[a' := m]> h, Some a')
  | None => (h, None)
  end.

(** ** The model definition *)

Inductive GeometryType : Type :=
| GEOMETRY_NONE
| GEOMETRY_CUBE
| GEOMETRY_CUSTOM_MESH
| GEOMETRY_MAX.

Global Instance GeometryType_eq_dec : EqDecision GeometryType.
Proof. solve_decision. Defined.

Module VoxelBlockyModel.
Record t `{Engine} : Type := mk {
  _id : Z;
  _name : string;
  _material_id : Z;
  _transparency_index : Z;
  _color : Color;
  _geometry_type : GeometryType;
  _cube_tiles : nat -> Vector2f.t;           (* FixedArray, SIDE_COUNT *)
  _custom_mesh : MeshRef;
  _collision_aabbs : list AABB;
  _collision_mask : Z;
  _random_tickable : bool;
  _empty : bool;
}.
Arguments mk {_ _} _ _ _ _ _ _ _ _ _ _ _ _.
End VoxelBlockyModel.
Import VoxelBlockyModel.

(** ** The baked record *)

Module Model.
Record t `{FloatOps} : Type := mk {
  positions : list Vector3f.t;
  normals : list Vector3f.t;
  uvs : list Vector2f.t;
  indices : list Z;
  tangents : list float;
  side_positions : nat -> list Vector3f.t;   (* FixedArray, SIDE_COUNT *)
  side_uvs : nat -> list Vector2f.t;
  side_indices : nat -> list Z;
  side_tangents : nat -> list float;
}.
Arguments mk {_} _ _ _ _ _ _ _ _ _.

(** Modelled from the spec: [BakedData::Model::clear()], declared in
    voxel_blocky_model.h.  The bake clears any prior baked state: every
    bucket is left without vertices and without indices. *)
Definition clear `{FloatOps} (m : t) : t :=
  mk [] [] [] [] [] (fun _ => []) (fun _ => []) (fun _ => []) (fun _ => []).
End Model.

Module BakedData.
Record t `{Engine} : Type := mk {
  model : Model.t;
  color : Color;
  transparency_index : Z;
  material_id : Z;
  empty : bool;
}.
Arguments mk {_ _} _ _ _ _ _.

(** Modelled from the spec: [BakedData::clear()], declared in
    voxel_blocky_model.h.  The geometry is cleared and the record is the
    empty record a failed bake leaves to the caller. *)
Definition clear `{Engine} (b : t) : t :=
  mk (Model.clear (model b)) (color b) (transparency_index b)
       (material_id b) true.
End BakedData.

(** Member initialisers of voxel_blocky_model.h for the members the
    constructor of the source does not list. *)
Class ModelDefaults `{Engine} : Type := {
  default_name : string;
  default_cube_tiles : nat -> Vector2f.t;
  default_collision_mask : Z;
  default_random_tickable : bool;
  default_empty : bool;
}.

Section Definition_of_the_model.
Context `{FO : FloatOps} {EN : Engine} {CT : CubeTables} {MD : ModelDefaults}.

(** Assignment to one element of a [FixedArray] indexed by side. *)
Definition upd {A} (f : nat -> A) (side : nat) (v : A) : nat -> A :=
  fun s => if decide (s = side) then v else f s.

(** [VoxelBlockyModel::VoxelBlockyModel()] *)
Definition VoxelBlockyModel_new : VoxelBlockyModel.t :=
  VoxelBlockyModel.mk (-1) default_name 0 0 Color_white GEOMETRY_NONE
    default_cube_tiles None [] default_collision_mask
    default_random_tickable default_empty.

Definition with_id (v : Z) (m : VoxelBlockyModel.t) : VoxelBlockyModel.t :=
  VoxelBlockyModel.mk v (_name m) (_material_id m) (_transparency_index m)
    (_color m) (_geometry_type m) (_cube_tiles m) (_custom_mesh m)
    (_collision_aabbs m) (_collision_mask m) (_random_tickable m) (_empty m).

Definition with_geometry_type (v : GeometryType) (m : VoxelBlockyModel.t)
  : VoxelBlockyModel.t :=
  VoxelBlockyModel.mk (_id m) (_name m) (_material_id m)
    (_transparency_index m) (_color m) v (_cube_tiles m) (_custom_mesh m)
    (_collision_aabbs m) (_collision_mask m) (_random_tickable m) (_empty m).

Definition with_custom_mesh (v : MeshRef) (m : VoxelBlockyModel.t)
  : VoxelBlockyModel.t :=
  VoxelBlockyModel.mk (_id m) (_name m) (_material_id m)
    (_transparency_index m) (_color m) (_geometry_type m) (_cube_tiles m) v
    (_collision_aabbs m) (_collision_mask m) (_random_tickable m) (_empty m).

Definition with_collision_aabbs (v : list AABB) (m : VoxelBlockyModel.t)
  : VoxelBlockyModel.t :=
  VoxelBlockyModel.mk (_id m) (_name m) (_material_id m)
    (_transparency_index m) (_color m) (_geometry_type m) (_cube_tiles m)
    (_custom_mesh m) v (_collision_mask m) (_random_tickable m) (_empty m).

Definition with_empty (v : bool) (m : VoxelBlockyModel.t)
  : VoxelBlockyModel.t :=
  VoxelBlockyModel.mk (_id m) (_name m) (_material_id m)
    (_transparency_index m) (_color m) (_geometry_type m) (_cube_tiles m)
    (_custom_mesh m) (_collision_aabbs m) (_collision_mask m)
    (_random_tickable m) v.

(** [VoxelBlockyModel::set_custom_mesh] *)
Definition set_custom_mesh (mesh : MeshRef) (m : VoxelBlockyModel.t)
  : VoxelBlockyModel.t :=
  with_custom_mesh mesh m.

(** [VoxelBlockyModel::set_cube_uv_side] *)
Definition set_cube_uv_side (side : nat) (tile_pos : Vector2f.t)
    (m : VoxelBlockyModel.t) : VoxelBlockyModel.t :=
  VoxelBlockyModel.mk (_id m) (_name m) (_material_id m)
    (_transparency_index m) (_color m) (_geometry_type m)
    (upd (_cube_tiles m) side tile_pos) (_custom_mesh m)
    (_collision_aabbs m) (_collision_mask m) (_random_tickable m) (_empty m).

(** [VoxelBlockyModel::set_geometry_type].  The [default] branch prints an
    error and changes nothing more; [notify_property_list_changed] is a
    signal to the editor. *)
Definition set_geometry_type (type : GeometryType) (m : VoxelBlockyModel.t)
  : VoxelBlockyModel.t :=
  if decide (type = _geometry_type m) then m
  else
    let m := with_geometry_type type m in
    match _geometry_type m with
    | GEOMETRY_NONE => with_collision_aabbs [] m
    | GEOMETRY_CUBE =>
        let m := with_collision_aabbs [] m in
        let m := with_collision_aabbs (_collision_aabbs m ++ [AABB_unit]) m in
        with_empty false m
    | GEOMETRY_CUSTOM_MESH => m
    | GEOMETRY_MAX => m
    end.

(** [VoxelBlockyModel::duplicate].  The new model object is returned with the
    heap of meshes, which the deep copy extends by one object. *)
Definition duplicate (p_subresources : bool) (m : VoxelBlockyModel.t)
    (h : MeshHeap) : VoxelBlockyModel.t * MeshHeap :=
  let d := VoxelBlockyModel_new in
  let d := with_id (-1) d in
  let d :=
    VoxelBlockyModel.mk (_id d) (_name m) (_material_id m)
      (_transparency_index m) (_color m) (_geometry_type m) (_cube_tiles m)
      (_custom_mesh m) (_collision_aabbs m) (_collision_mask d)
      (_random_tickable m) (_empty m) in
  if p_subresources then
    match _custom_mesh d with
    | Some a =>
        let '(h', r) := Mesh_duplicate h a in (with_custom_mesh r d, h')
    | None => (d, h)
    end
  else (d, h).

End Definition_of_the_model.

(** ** Baking *)

(** What [ERR_FAIL_COND], [ERR_FAIL_COND_MSG] and [ERR_PRINT] report. *)
Inductive BakeError : Type :=
| ERR_NO_ARRAYS              (* arrays.size() == 0 *)
| ERR_NOT_TRIANGLES          (* indices.size() % 3 != 0 *)
| ERR_NO_NORMALS             (* normals.size() == 0 *)
| ERR_UNKNOWN_GEOMETRY.     (* default: of the switch in bake *)

(** A loop whose body may abort the process. *)
Fixpoint ofold {A B} (f : A -> B -> outcome A) (l : list B) (a : A)
  : outcome A :=
  match l with
  | [] => Done a
  | b :: l => a' ← f a b; ofold f l a'
  end.

(** The assignments [v[i] = f(i)] for [i] from 0 to [n - 1], on a vector
    resized to hold them. *)
Definition fill {A} (n : nat) (f : nat -> A) (l : list A) : list A :=
  foldl (fun l i => <[i := f i]> l) l (seq 0 n).

Section Bakers.
Context `{FO : FloatOps} {EN : Engine} {CT : CubeTables}.

Definition set_positions (v : list Vector3f.t) (m : Model.t) : Model.t :=
  Model.mk v (Model.normals m) (Model.uvs m) (Model.indices m)
    (Model.tangents m) (Model.side_positions m) (Model.side_uvs m)
    (Model.side_indices m) (Model.side_tangents m).

Definition set_normals (v : list Vector3f.t) (m : Model.t) : Model.t :=
  Model.mk (Model.positions m) v (Model.uvs m) (Model.indices m)
    (Model.tangents m) (Model.side_positions m) (Model.side_uvs m)
    (Model.side_indices m) (Model.side_tangents m).

Definition set_uvs (v : list Vector2f.t) (m : Model.t) : Model.t :=
  Model.mk (Model.positions m) (Model.normals m) v (Model.indices m)
    (Model.tangents m) (Model.side_positions m) (Model.side_uvs m)
    (Model.side_indices m) (Model.side_tangents m).

Definition set_indices (v : list Z) (m : Model.t) : Model.t :=
  Model.mk (Model.positions m) (Model.normals m) (Model.uvs m) v
    (Model.tangents m) (Model.side_positions m) (Model.side_uvs m)
    (Model.side_indices m) (Model.side_tangents m).

Definition set_tangents (v : list float) (m : Model.t) : Model.t :=
  Model.mk (Model.positions m) (Model.normals m) (Model.uvs m)
    (Model.indices m) v (Model.side_positions m) (Model.side_uvs m)
    (Model.side_indices m) (Model.side_tangents m).

Definition set_side_positions (side : nat) (v : list Vector3f.t)
    (m : Model.t) : Model.t :=
  Model.mk (Model.positions m) (Model.normals m) (Model.uvs m)
    (Model.indices m) (Model.tangents m)
    (upd (Model.side_positions m) side v) (Model.side_uvs m)
    (Model.side_indices m) (Model.side_tangents m).

Definition set_side_uvs (side : nat) (v : list Vector2f.t) (m : Model.t)
  : Model.t :=
  Model.mk (Model.positions m) (Model.normals m) (Model.uvs m)
    (Model.indices m) (Model.tangents m) (Model.side_positions m)
    (upd (Model.side_uvs m) side v) (Model.side_indices m)
    (Model.side_tangents m).

Definition set_side_indices (side : nat) (v : list Z) (m : Model.t)
  : Model.t :=
  Model.mk (Model.positions m) (Model.normals m) (Model.uvs m)
    (Model.indices m) (Model.tangents m) (Model.side_positions m)
    (Model.side_uvs m) (upd (Model.side_indices m) side v)
    (Model.side_tangents m).

Definition set_side_tangents (side : nat) (v : list float) (m : Model.t)
  : Model.t :=
  Model.mk (Model.positions m) (Model.normals m) (Model.uvs m)
    (Model.indices m) (Model.tangents m) (Model.side_positions m)
    (Model.side_uvs m) (Model.side_indices m)
    (upd (Model.side_tangents m) side v).

Definition with_model (v : Model.t) (b : BakedData.t) : BakedData.t :=
  BakedData.mk v (BakedData.color b) (BakedData.transparency_index b)
    (BakedData.material_id b) (BakedData.empty b).

Definition with_baked_empty (v : bool) (b : BakedData.t) : BakedData.t :=
  BakedData.mk (BakedData.model b) (BakedData.color b)
    (BakedData.transparency_index b) (BakedData.material_id b) v.

(** *** bake_cube_geometry *)

(** Body of the inner loop on the positions of a side; [sy] is 1.0. *)
Definition cube_side_position (side i : nat) : Vector3f.t :=
  let sy := f_one in
  let corner := g_side_corners side i in
  let p := g_corner_position corner in
  if flt f_lit_0_9 (Vector3f.y p) then Vector3f.set_y p sy else p.

(** Body of the first loop on sides. *)
Definition bake_cube_side_geometry (m : Model.t) (side : nat) : Model.t :=
  let positions := resize 4 Vector3f.zero (Model.side_positions m side) in
  let positions := fill 4 (cube_side_position side) positions in
  let m := set_side_positions side positions m in
  let indices := resize 6 0 (Model.side_indices m side) in
  let indices := fill 6 (g_side_quad_triangles side) indices in
  set_side_indices side indices m.

(** The array [uv] of the four corners of a tile, inset by [e]. *)
Definition cube_uv (e : float) (i : nat) : Vector2f.t :=
  match i with
  | 0%nat => Vector2f.mk e (fsub f_one e)
  | 1%nat => Vector2f.mk (fsub f_one e) (fsub f_one e)
  | 2%nat => Vector2f.mk (fsub f_one e) e
  | _ => Vector2f.mk e e
  end.

(** Body of the second loop on sides. *)
Definition bake_cube_side_uvs (config : VoxelBlockyModel.t) (e s : float)
    (bake_tangents : bool) (m : Model.t) (side : nat) : Model.t :=
  let uvs := resize 4 Vector2f.zero (Model.side_uvs m side) in
  let uvs :=
    fill 4 (fun i =>
      Vector2f.scale (Vector2f.add (_cube_tiles config side) (cube_uv e i)) s)
      uvs in
  let m := set_side_uvs side uvs m in
  if bake_tangents then
    let tangents :=
      foldl (fun t (_ : nat) =>
               foldl (fun t j => t ++ [g_side_tangents side j]) t (seq 0 4))
            (Model.side_tangents m side) (seq 0 4) in
    set_side_tangents side tangents m
  else m.

(** [bake_cube_geometry] *)
Definition bake_cube_geometry (config : VoxelBlockyModel.t)
    (baked_data : BakedData.t) (p_atlas_size : Z) (bake_tangents : bool)
  : outcome BakedData.t :=
  let m := foldl bake_cube_side_geometry (BakedData.model baked_data)
             (seq 0 SIDE_COUNT) in
  let e := f_lit_0_001 in
  let atlas_size := f_of_int p_atlas_size in
  if fle atlas_size f_zero then Crashed
  else
    let s := fdiv f_one atlas_size in
    let m := foldl (bake_cube_side_uvs config e s bake_tangents) m
               (seq 0 SIDE_COUNT) in
    Done (with_baked_empty false (with_model m baked_data)).

(** *** bake_mesh_geometry *)

(** [mask |= b << side] on a [uint8_t]. *)
Definition or_shifted (mask : Z) (b : bool) (side : nat) : Z :=
  Z.land (Z.lor mask (Z.shiftl (Z.b2z b) (Z.of_nat side))) 255.

(** [L::get_sides] *)
Definition get_sides (pos : Vector3f.t) : Z :=
  let mask := 0 in
  let tolerance := f_lit_0_001 in
  let mask := or_shifted mask
    (is_equal_approx (Vector3f.x pos) f_zero tolerance) SIDE_NEGATIVE_X in
  let mask := or_shifted mask
    (is_equal_approx (Vector3f.x pos) f_one tolerance) SIDE_POSITIVE_X in
  let mask := or_shifted mask
    (is_equal_approx (Vector3f.y pos) f_zero tolerance) SIDE_NEGATIVE_Y in
  let mask := or_shifted mask
    (is_equal_approx (Vector3f.y pos) f_one tolerance) SIDE_POSITIVE_Y in
  let mask := or_shifted mask
    (is_equal_approx (Vector3f.z pos) f_zero tolerance) SIDE_NEGATIVE_Z in
  let mask := or_shifted mask
    (is_equal_approx (Vector3f.z pos) f_one tolerance) SIDE_POSITIVE_Z in
  mask.

(** The combined mask [m] of [L::get_triangle_side]. *)
Definition triangle_mask (a b c : Vector3f.t) : Z :=
  Z.land (Z.land (Z.land (get_sides a) (get_sides b)) (get_sides c)) 255.

(** [L::get_triangle_side]: [Some side] for [true] with [out_side]. *)
Definition get_triangle_side (a b c : Vector3f.t) : option nat :=
  let m := triangle_mask a b c in
  if m =? 0 then None
  else find (fun side => m =? Z.shiftl 1 (Z.of_nat side)) (seq 0 SIDE_COUNT).

(** The local variables the loop on triangles updates. *)
Record Locals : Type := mk_locals {
  model : Model.t;
  added_side_indices : nat -> gmap Z Z;
  added_regular_indices : gmap Z Z;
}.

(** The local arrays of [bake_mesh_geometry], read by the loop. *)
Record Arrays : Type := mk_source {
  indices : list Z;
  positions : list Vector3;
  normals : list Vector3;
  uvs : list Vector2;
  tangents : list float;
}.

(** The tangent computed when the mesh has none. *)
Definition compute_tangent (src : Arrays) (i0 i1 i2 : Z)
    (tri_positions : Vector3f.t * Vector3f.t * Vector3f.t)
  : outcome (list float) :=
  let '(p0, p1, p2) := tri_positions in
  uv1 ← packed_get (uvs src) i1;
  uv0 ← packed_get (uvs src) i0;
  uv2 ← packed_get (uvs src) i2;
  n0 ← packed_get (normals src) i0;
  let delta_uv1 := to_vec2f (Vector2_sub uv1 uv0) in
  let delta_uv2 := to_vec2f (Vector2_sub uv2 uv0) in
  let delta_pos1 := Vector3f.sub p1 p0 in
  let delta_pos2 := Vector3f.sub p2 p0 in
  let r :=
    fdiv f_one
      (fsub (fmul (Vector2f.coord delta_uv1 0) (Vector2f.coord delta_uv2 1))
            (fmul (Vector2f.coord delta_uv1 1) (Vector2f.coord delta_uv2 0)))
  in
  let t :=
    Vector3f.scale
      (Vector3f.sub (Vector3f.scale delta_pos1 (Vector2f.coord delta_uv2 1))
                    (Vector3f.scale delta_pos2 (Vector2f.coord delta_uv1 1)))
      r in
  let bt :=
    Vector3f.scale
      (Vector3f.sub (Vector3f.scale delta_pos2 (Vector2f.coord delta_uv1 0))
                    (Vector3f.scale delta_pos1 (Vector2f.coord delta_uv2 0)))
      r in
  Done [Vector3f.coord t 0; Vector3f.coord t 1; Vector3f.coord t 2;
        if flt (Vector3f.dot bt (Vector3f.cross (to_vec3f n0) t)) f_zero
        then f_neg_one else f_one].

(** The floats pushed on the tangents of a bucket for a new vertex of the
    triangle that starts at [i]; [tangent] is the local array of that name,
    read only where the loop has computed it. *)
Definition vertex_tangent (src : Arrays) (bake_tangents : bool)
    (tangent : list float) (i : Z) : outcome (list float) :=
  let tangents_empty := bool_decide (length (tangents src) = 0%nat) in
  if bake_tangents then
    if tangents_empty then Done tangent
    else
      let ti := (i ÷ 3) * 4 in
      t0 ← packed_get (tangents src) ti;
      t1 ← packed_get (tangents src) (ti + 1);
      t2 ← packed_get (tangents src) (ti + 2);
      t3 ← packed_get (tangents src) (ti + 3);
      Done [t0; t1; t2; t3]
  else Done [].

(** Body of the loop on [j] for a triangle on the face [side]; the state is
    the locals with [next_side_index]. *)
Definition add_side_vertex (src : Arrays) (bake_tangents : bool)
    (tangent : list float) (i : Z) (side : nat) (st : Locals * Z)
    (v : Z * Vector3f.t) : outcome (Locals * Z) :=
  let '(l, next_side_index) := st in
  let '(src_index, tri_position) := v in
  let m := model l in
  match added_side_indices l side !! src_index with
  | None =>
      let m := set_side_indices side
                 (Model.side_indices m side ++ [next_side_index]) m in
      let m := set_side_positions side
                 (Model.side_positions m side ++ [tri_position]) m in
      uv ← packed_get (uvs src) src_index;
      let m := set_side_uvs side (Model.side_uvs m side ++ [to_vec2f uv]) m in
      ts ← vertex_tangent src bake_tangents tangent i;
      let m := set_side_tangents side (Model.side_tangents m side ++ ts) m in
      let added :=
        upd (added_side_indices l) side
          (<[src_index := next_side_index]> (added_side_indices l side)) in
      Done (mk_locals m added (added_regular_indices l), next_side_index + 1)
  | Some existing_dst_index =>
      let m := set_side_indices side
                 (Model.side_indices m side ++ [existing_dst_index]) m in
      Done (mk_locals m (added_side_indices l) (added_regular_indices l),
            next_side_index)
  end.

(** Body of the loop on [j] for a triangle that is not on a face. *)
Definition add_regular_vertex (src : Arrays) (bake_tangents : bool)
    (tangent : list float) (i : Z) (st : Locals * Z) (v : Z * Vector3f.t)
  : outcome (Locals * Z) :=
  let '(l, next_regular_index) := st in
  let '(src_index, tri_position) := v in
  let m := model l in
  match added_regular_indices l !! src_index with
  | None =>
      let m := set_indices (Model.indices m ++ [next_regular_index]) m in
      let m := set_positions (Model.positions m ++ [tri_position]) m in
      n ← packed_get (normals src) src_index;
      let m := set_normals (Model.normals m ++ [to_vec3f n]) m in
      uv ← packed_get (uvs src) src_index;
      let m := set_uvs (Model.uvs m ++ [to_vec2f uv]) m in
      ts ← vertex_tangent src bake_tangents tangent i;
      let m := set_tangents (Model.tangents m ++ ts) m in
      let added := <[src_index := next_regular_index]>
                     (added_regular_indices l) in
      Done (mk_locals m (added_side_indices l) added, next_regular_index + 1)
  | Some existing_dst_index =>
      let m := set_indices (Model.indices m ++ [existing_dst_index]) m in
      Done (mk_locals m (added_side_indices l) (added_regular_indices l),
            next_regular_index)
  end.

(** What the body of the loop on triangles reads before it classifies the
    triangle that starts at [i]: its three source indices, [tri_positions],
    and [tangent], computed when the mesh has no tangents and tangents are
    baked, and not read otherwise. *)
Record Triangle : Type := mk_triangle {
  tri_i : Z;
  tri_indices : Z * Z * Z;
  tri_positions : Vector3f.t * Vector3f.t * Vector3f.t;
  tri_tangent : list float;
}.

Definition read_triangle (src : Arrays) (bake_tangents : bool) (i : Z)
  : outcome Triangle :=
  let tangents_empty := bool_decide (length (tangents src) = 0%nat) in
  i0 ← packed_get (indices src) i;
  i1 ← packed_get (indices src) (i + 1);
  i2 ← packed_get (indices src) (i + 2);
  p0 ← to_vec3f <$> packed_get (positions src) i0;
  p1 ← to_vec3f <$> packed_get (positions src) i1;
  p2 ← to_vec3f <$> packed_get (positions src) i2;
  tangent ←
    (if tangents_empty && bake_tangents
     then compute_tangent src i0 i1 i2 (p0, p1, p2)
     else Done []);
  Done (mk_triangle i (i0, i1, i2) (p0, p1, p2) tangent).

(** The side [L::get_triangle_side] gives for a triangle as read. *)
Definition triangle_side (tri : Triangle) : option nat :=
  let '(p0, p1, p2) := tri_positions tri in get_triangle_side p0 p1 p2.

(** The pairs [(indices[i + j], tri_positions[j])] the loops on [j] go
    through. *)
Definition triangle_vertices (tri : Triangle) : list (Z * Vector3f.t) :=
  let '(i0, i1, i2) := tri_indices tri in
  let '(p0, p1, p2) := tri_positions tri in
  [(i0, p0); (i1, p1); (i2, p2)].

(** Body of the loop on triangles, for the triangle that starts at [i]. *)
Definition bake_triangle (src : Arrays) (bake_tangents : bool) (l : Locals)
    (i : Z) : outcome Locals :=
  tri ← read_triangle src bake_tangents i;
  match triangle_side tri with
  | Some side =>
      let next_side_index :=
        Z.of_nat (length (Model.side_positions (model l) side)) in
      fst <$> ofold (add_side_vertex src bake_tangents (tri_tangent tri) i
                       side)
                (triangle_vertices tri) (l, next_side_index)
  | None =>
      let next_regular_index :=
        Z.of_nat (length (Model.positions (model l))) in
      fst <$> ofold (add_regular_vertex src bake_tangents (tri_tangent tri) i)
                (triangle_vertices tri) (l, next_regular_index)
  end.

(** The values [i] takes in [for (i = 0; i < n; i += 3)]. *)
Definition triangle_starts (n : nat) : list Z :=
  (fun t => 3 * Z.of_nat t) <$> seq 0 ((n + 2) / 3).

(** [bake_mesh_geometry], with the heap the reference of the model points
    into.  The result is the record with the error reported, if any. *)
Definition bake_mesh_geometry (h : MeshHeap) (config : VoxelBlockyModel.t)
    (baked_data : BakedData.t) (bake_tangents : bool)
  : outcome (BakedData.t * option BakeError) :=
  match _custom_mesh config with
  | None => Done (with_baked_empty true baked_data, None)
  | Some a =>
      match h !! a with
      | None => Crashed
      | Some mesh =>
          match Mesh.surface_get_arrays_0 mesh with
          | None => Done (baked_data, Some ERR_NO_ARRAYS)
          | Some arrays =>
              let indices := packed (Mesh.ARRAY_INDEX arrays) in
              if negb (Z.rem (Z.of_nat (length indices)) 3 =? 0)
              then Done (baked_data, Some ERR_NOT_TRIANGLES)
              else
                let positions := packed (Mesh.ARRAY_VERTEX arrays) in
                let normals := packed (Mesh.ARRAY_NORMAL arrays) in
                let uvs := packed (Mesh.ARRAY_TEX_UV arrays) in
                let tangents := packed (Mesh.ARRAY_TANGENT arrays) in
                let baked_data :=
                  with_baked_empty (bool_decide (length positions = 0%nat))
                    baked_data in
                if bool_decide (length normals = 0%nat)
                then Done (baked_data, Some ERR_NO_NORMALS)
                else
                  let uvs :=
                    if bool_decide (length uvs = 0%nat)
                    then resize (length positions) Vector2_default []
                    else uvs in
                  let src :=
                    mk_source indices positions normals uvs tangents in
                  l ← ofold (bake_triangle src bake_tangents)
                        (triangle_starts (length indices))
                        (mk_locals (BakedData.model baked_data)
                           (fun _ => ∅) ∅);
                  Done (with_model (model l) baked_data, None)
          end
      end
  end.

(** *** VoxelBlockyModel::bake *)

(** [VoxelBlockyModel::bake]: the model with its [_empty] updated, the record,
    and the error reported, if any. *)
Definition bake (h : MeshHeap) (this : VoxelBlockyModel.t)
    (baked_data : BakedData.t) (p_atlas_size : Z) (bake_tangents : bool)
  : outcome (VoxelBlockyModel.t * BakedData.t * option BakeError) :=
  let baked_data := BakedData.clear baked_data in
  let baked_data :=
    BakedData.mk (BakedData.model baked_data) (_color this)
      (_transparency_index this) (_material_id this)
      (BakedData.empty baked_data) in
  '(baked_data, err) ←
    match _geometry_type this with
    | GEOMETRY_NONE => Done (with_baked_empty true baked_data, None)
    | GEOMETRY_CUBE =>
        (fun b => (b, None)) <$>
          bake_cube_geometry this baked_data p_atlas_size bake_tangents
    | GEOMETRY_CUSTOM_MESH =>
        bake_mesh_geometry h this baked_data bake_tangents
    | GEOMETRY_MAX => Done (baked_data, Some ERR_UNKNOWN_GEOMETRY)
    end;
  Done (with_empty (BakedData.empty baked_data) this, baked_data, err).

End Bakers.

(** ** Welding, stated on the references to source vertices *)

Section Welding.
Context `{FO : FloatOps} {EN : Engine} {CT : CubeTables}.

(** A reference to a source vertex by a corner of a triangle: the source
    index, the position read for it, and the start [i] and the computed
    [tangent] of the triangle that refers to it. *)
Record Corner : Type := mk_corner {
  c_src : Z;
  c_pos : Vector3f.t;
  c_i : Z;
  c_tangent : list float;
}.

Definition triangle_corners (tri : Triangle) : list Corner :=
  (fun v => mk_corner v.1 v.2 (tri_i tri) (tri_tangent tri))
    <$> triangle_vertices tri.

(** The references that go to a bucket, in the order of the index array:
    [Some side] is the bucket of that side, [None] the interior bucket. *)
Definition corners (b : option nat) (ts : list Triangle) : list Corner :=
  ts ≫= (fun tri =>
    if decide (triangle_side tri = b) then triangle_corners tri else []).

(** Position in [F] of the first reference to the source index [k]. *)
Fixpoint index_of (k : Z) (F : list Corner) : option nat :=
  match F with
  | [] => None
  | r :: F => if decide (c_src r = k) then Some 0%nat
              else S <$> index_of k F
  end.

(** The first reference to each source index, in order of appearance. *)
Definition first_ref (F : list Corner) (r : Corner) : list Corner :=
  match index_of (c_src r) F with
  | Some _ => F
  | None => F ++ [r]
  end.

Definition firsts (R : list Corner) : list Corner := foldl first_ref [] R.

(** One bucket of the record with its map of added indices. *)
Record View : Type := mk_view {
  v_indices : list Z;
  v_positions : list Vector3f.t;
  v_normals : list Vector3f.t;
  v_uvs : list Vector2f.t;
  v_tangents : list float;
  v_added : gmap Z Z;
}.

Definition side_view (side : nat) (l : Locals) : View :=
  mk_view (Model.side_indices (model l) side)
    (Model.side_positions (model l) side) []
    (Model.side_uvs (model l) side) (Model.side_tangents (model l) side)
    (added_side_indices l side).

Definition regular_view (l : Locals) : View :=
  mk_view (Model.indices (model l)) (Model.positions (model l))
    (Model.normals (model l)) (Model.uvs (model l))
    (Model.tangents (model l)) (added_regular_indices l).

Definition bucket_view (b : option nat) (l : Locals) : View :=
  match b with
  | Some side => side_view side l
  | None => regular_view l
  end.

(** What [add_side_vertex] and [add_regular_vertex] do to the bucket they
    push on; [b] tells whether the bucket has normals. *)
Definition view_add (src : Arrays) (bake_tangents : bool)
    (tangent : list float) (i : Z) (b : option nat) (st : View * Z)
    (p : Z * Vector3f.t) : outcome (View * Z) :=
  let '(v, next) := st in
  let '(src_index, tri_position) := p in
  match v_added v !! src_index with
  | None =>
      ns ← match b with
           | None =>
               n ← packed_get (normals src) src_index;
               Done (v_normals v ++ [to_vec3f n])
           | Some _ => Done (v_normals v)
           end;
      uv ← packed_get (uvs src) src_index;
      ts ← vertex_tangent src bake_tangents tangent i;
      Done (mk_view (v_indices v ++ [next]) (v_positions v ++ [tri_position])
              ns (v_uvs v ++ [to_vec2f uv]) (v_tangents v ++ ts)
              (<[src_index := next]> (v_added v)),
            next + 1)
  | Some existing_dst_index =>
      Done (mk_view (v_indices v ++ [existing_dst_index]) (v_positions v)
              (v_normals v) (v_uvs v) (v_tangents v) (v_added v),
            next)
  end.

(** Both loops on [j] as one, for the bucket [b]. *)
Definition add_vertex (src : Arrays) (bake_tangents : bool)
    (tangent : list float) (i : Z) (b : option nat)
  : Locals * Z -> Z * Vector3f.t -> outcome (Locals * Z) :=
  match b with
  | Some side => add_side_vertex src bake_tangents tangent i side
  | None => add_regular_vertex src bake_tangents tangent i
  end.

(** The bucket [v] is the welding of the references [R]: one vertex per
    first reference, with the position read for it, the UV of its source
    index, its normal in the interior bucket, and the tangent floats the
    baker takes for it; one index per reference, the destination of the
    first reference to the same source index; the map of added indices
    sends a source index to that destination. *)
Definition welded (src : Arrays) (bake_tangents : bool) (b : option nat)
    (R : list Corner) (v : View) : Prop :=
  let F := firsts R in
  Some <$> v_indices v
    = (fun r => Z.of_nat <$> index_of (c_src r) F) <$> R /\
  v_positions v = c_pos <$> F /\
  match b with
  | None =>
      Done <$> v_normals v
        = (fun r => to_vec3f <$> packed_get (normals src) (c_src r)) <$> F
  | Some _ => v_normals v = []
  end /\
  Done <$> v_uvs v
    = (fun r => to_vec2f <$> packed_get (uvs src) (c_src r)) <$> F /\
  (exists tl, v_tangents v = concat tl /\
     Done <$> tl
       = (fun r => vertex_tangent src bake_tangents (c_tangent r) (c_i r))
           <$> F) /\
  (forall k, v_added v !! k = Z.of_nat <$> index_of k F).

(** The record [m] is the welding, bucket by bucket, of the triangles
    [ts]. *)
Definition baked_from (src : Arrays) (bake_tangents : bool)
    (ts : list Triangle) (l : Locals) : Prop :=
  forall b, welded src bake_tangents b (corners b ts) (bucket_view b l).

(** The local arrays the loop of [bake_mesh_geometry] reads, for the arrays
    of a surface: an empty UV array is replaced by one [Vector2()] per
    position. *)
Definition mesh_source (arrays : Mesh.arrays) : Arrays :=
  let positions := packed (Mesh.ARRAY_VERTEX arrays) in
  let uvs := packed (Mesh.ARRAY_TEX_UV arrays) in
  mk_source (packed (Mesh.ARRAY_INDEX arrays)) positions
    (packed (Mesh.ARRAY_NORMAL arrays))
    (if bool_decide (length uvs = 0%nat)
     then resize (length positions) Vector2_default []
     else uvs)
    (packed (Mesh.ARRAY_TANGENT arrays)).

(** The buckets of a baked record: [Some side] the bucket of the side,
    [None] the interior bucket. *)
Definition bucket_indices (b : option nat) (m : Model.t) : list Z :=
  match b with
  | Some side => Model.side_indices m side
  | None => Model.indices m
  end.

Definition bucket_positions (b : option nat) (m : Model.t)
  : list Vector3f.t :=
  match b with
  | Some side => Model.side_positions m side
  | None => Model.positions m
  end.

Definition bucket_uvs (b : option nat) (m : Model.t) : list Vector2f.t :=
  match b with
  | Some side => Model.side_uvs m side
  | None => Model.uvs m
  end.

Definition bucket_tangents (b : option nat) (m : Model.t) : list float :=
  match b with
  | Some side => Model.side_tangents m side
  | None => Model.tangents m
  end.

(** No bucket of the record has a vertex. *)
Definition no_vertices (m : Model.t) : Prop :=
  forall b, bucket_positions b m = [].

(** No bucket of the record holds anything. *)
Definition no_geometry (m : Model.t) : Prop :=
  Model.normals m = [] /\
  forall b, bucket_positions b m = [] /\ bucket_indices b m = [] /\
            bucket_uvs b m = [] /\ bucket_tangents b m = [].

(** *** Classification, in the words of the specification *)

(** The vertex lies within the tolerance 0.001 of the plane of the face
    [side]: x = 0 for [SIDE_NEGATIVE_X], x = 1 for [SIDE_POSITIVE_X], and so
    on for y and z. *)
Definition on_face (side : nat) (pos : Vector3f.t) : bool :=
  let tolerance := f_lit_0_001 in
  bool_decide (side = SIDE_NEGATIVE_X)
    && is_equal_approx (Vector3f.x pos) f_zero tolerance
  || bool_decide (side = SIDE_POSITIVE_X)
    && is_equal_approx (Vector3f.x pos) f_one tolerance
  || bool_decide (side = SIDE_NEGATIVE_Y)
    && is_equal_approx (Vector3f.y pos) f_zero tolerance
  || bool_decide (side = SIDE_POSITIVE_Y)
    && is_equal_approx (Vector3f.y pos) f_one tolerance
  || bool_decide (side = SIDE_NEGATIVE_Z)
    && is_equal_approx (Vector3f.z pos) f_zero tolerance
  || bool_decide (side = SIDE_POSITIVE_Z)
    && is_equal_approx (Vector3f.z pos) f_one tolerance.

(** The faces the three vertices have in common: the bits set in the AND
    of the three masks. *)
Definition common_faces (a b c : Vector3f.t) : list nat :=
  List.filter (fun side => on_face side a && on_face side b && on_face side c)
    (seq 0 SIDE_COUNT).

(** Flush on a face when exactly one face is common, interior otherwise. *)
Definition flush_face (a b c : Vector3f.t) : option nat :=
  match common_faces a b c with
  | [side] => Some side
  | _ => None
  end.

(** The side constants are six distinct values below [SIDE_COUNT]. *)
Definition sides_enumerated : Prop :=
  NoDup side_constants /\
  Forall (fun side => (side < SIDE_COUNT)%nat) side_constants.

Definition triangle_flush_face (tri : Triangle) : option nat :=
  let '(p0, p1, p2) := tri_positions tri in flush_face p0 p1 p2.

(** The references that go to a bucket when triangles are classified by
    [flush_face]. *)
Definition flush_corners (b : option nat) (ts : list Triangle)
  : list Corner :=
  ts ≫= (fun tri =>
    if decide (triangle_flush_face tri = b) then triangle_corners tri
    else []).

(** *** The record a bake starts from *)

(** The model [BakedData::Model::clear()] leaves. *)
Definition empty_model : Model.t :=
  Model.mk [] [] [] [] [] (fun _ => []) (fun _ => []) (fun _ => [])
    (fun _ => []).

(** The record of [bake] when it dispatches on the geometry type: cleared,
    with the three scalars of the model. *)
Definition cleared_record (this : VoxelBlockyModel.t) : BakedData.t :=
  BakedData.mk empty_model (_color this) (_transparency_index this)
    (_material_id this) true.

(** The model has the custom-mesh geometry and a mesh whose surface has the
    arrays [arrays]. *)
Definition has_mesh_arrays (h : MeshHeap) (this : VoxelBlockyModel.t)
    (arrays : Mesh.arrays) : Prop :=
  _geometry_type this = GEOMETRY_CUSTOM_MESH /\
  exists a, _custom_mesh this = Some a /\
            h !! a = Some (Mesh.mk (Some arrays)).

(** *** What the theorems ask of the tables and of the conversions *)

(** The conversion of the atlas size [n] to [float] keeps its sign:
    [(float)n <= 0] exactly when [n <= 0]. *)
Definition atlas_size_converted (n : Z) : Prop :=
  fle (f_of_int n) f_zero = (n <=? 0).

(** The corner positions the table gives need no adjustment: where the
    y of a corner exceeds 0.9, it is 1. *)
Definition corners_on_unit_cube : Prop :=
  forall side i, (side < SIDE_COUNT)%nat -> (i < 4)%nat ->
    let p := g_corner_position (g_side_corners side i) in
    flt f_lit_0_9 (Vector3f.y p) = true -> Vector3f.y p = f_one.

(** The table of quad triangles indexes the four corners of a side. *)
Definition quad_triangles_in_range : Prop :=
  forall side i, (side < SIDE_COUNT)%nat -> (i < 6)%nat ->
    0 <= g_side_quad_triangles side i < 4.

(** Every index is a position of the mesh, the mesh has a normal and a UV
    per position, and a tangent array that is not empty has four floats
    per triangle. *)
Definition mesh_in_range (src : Arrays) (bake_tangents : bool) : Prop :=
  Forall (fun k => 0 <= k < Z.of_nat (length (positions src))) (indices src)
  /\ (length (positions src) <= length (normals src))%nat
  /\ (length (positions src) <= length (uvs src))%nat
  /\ (bake_tangents = true -> tangents src <> [] ->
      4 * (Z.of_nat (length (indices src)) ÷ 3)
      <= Z.of_nat (length (tangents src))).


(** The triangles the loop reads, one per start. *)
Definition triangles_read (src : Arrays) (bake_tangents : bool)
    (starts : list Z) (ts : list Triangle) : Prop :=
  Forall2 (fun i tri => read_triangle src bake_tangents i = Done tri)
    starts ts.

(** *** The triangles of a mesh, in the words of the specification *)

(** The index array, three indices by three. *)
Fixpoint index_triples (l : list Z) : list (Z * Z * Z) :=
  match l with
  | i0 :: i1 :: i2 :: l => (i0, i1, i2) :: index_triples l
  | _ => []
  end.

(** The position of the vertex an index names, if it names one. *)
Definition vertex_position (positions : list Vector3) (k : Z)
  : option Vector3f.t :=
  if 0 <=? k then to_vec3f <$> positions !! Z.to_nat k else None.

(** Three indices with the positions of the vertices they name. *)
Definition mesh_triangle (positions : list Vector3) (ix : Z * Z * Z)
  : option (Z * Z * Z * (Vector3f.t * Vector3f.t * Vector3f.t)) :=
  let '(i0, i1, i2) := ix in
  p0 ← vertex_position positions i0;
  p1 ← vertex_position positions i1;
  p2 ← vertex_position positions i2;
  Some (ix, (p0, p1, p2)).

(** The triangles of a mesh, in the order of its index array. *)
Definition mesh_triangles (indices : list Z) (positions : list Vector3)
  : option (list (Z * Z * Z * (Vector3f.t * Vector3f.t * Vector3f.t))) :=
  mapM (mesh_triangle positions) (index_triples indices).

(** The indices and the positions of a triangle the baker has read. *)
Definition triangle_data (tri : Triangle)
  : Z * Z * Z * (Vector3f.t * Vector3f.t * Vector3f.t) :=
  (tri_indices tri, tri_positions tri).

End Welding.

(** ** A sentence of the specification, as it reads *)

Section Claim_definitions.
Context `{FO : FloatOps} {EN : Engine} {CT : CubeTables} {MD : ModelDefaults}.

(** The emptiness flag as the specification describes it: true exactly
    when the bake produced no vertex in any bucket, or the geometry is None,
    or the custom mesh is missing. *)
Definition empty_iff_no_vertices (h : MeshHeap) (this : VoxelBlockyModel.t)
    (baked_data : BakedData.t) (n : Z) (bake_tangents : bool) : Prop :=
  forall this' r err,
    bake h this baked_data n bake_tangents = Done (this', r, err) ->
    (BakedData.empty r = true <->
     no_vertices (BakedData.model r) \/
     _geometry_type this = GEOMETRY_NONE \/
     (_geometry_type this = GEOMETRY_CUSTOM_MESH /\ _custom_mesh this = None)).

End Claim_definitions.

(** ** The other methods of the model definition *)

(** Bounds that other components define. *)
Class Limits : Type := {
  MAX_VOXEL_TYPES : Z;         (* VoxelBlockyLibrary::MAX_VOXEL_TYPES *)
  MAX_MATERIALS : Z;           (* VoxelMesherBlocky::MAX_MATERIALS *)
}.

(** The named sides of [Cube::Side]. *)
Class CubeSides : Type := {
  SIDE_LEFT : nat;
  SIDE_RIGHT : nat;
  SIDE_BOTTOM : nat;
  SIDE_TOP : nat;
  SIDE_BACK : nat;
  SIDE_FRONT : nat;
}.

(** The engine's [Variant] and the conversions of engine values the methods
    of the model go through. *)
Class Variants `{Engine} : Type := {
  Variant : Type;
  Variant_nil : Variant;                    (* Variant(), fills Array::resize *)
  Variant_of_AABB : AABB -> Variant;        (* Variant(const AABB &) *)
  Variant_is_AABB : Variant -> bool;        (* v.get_type() == Variant::AABB *)
  Variant_to_AABB : Variant -> AABB;        (* operator AABB() *)
  Variant_of_Vector2 : Vector2 -> Variant;  (* Variant(const Vector2 &) *)
  Variant_to_Vector2 : Variant -> Vector2;  (* operator Vector2() *)
  AABB_default : AABB;                      (* AABB(), fills resize() *)
  Vector2_x : Vector2 -> float;             (* (float)v.x *)
  Vector2_y : Vector2 -> float;             (* (float)v.y *)
  Vector2_of : float -> float -> Vector2;   (* Vector2(f.x, f.y) *)
}.

(** What [ERR_FAIL_COND] and [ERR_FAIL_COND_MSG] report in the setters. *)
Inductive SetterError : Type :=
| ERR_ID_OUT_OF_RANGE        (* id < 0 || (unsigned int)id >= MAX_VOXEL_TYPES *)
| ERR_ID_ALREADY_SET         (* _id != -1 *)
| ERR_MATERIAL_OUT_OF_RANGE  (* id >= MAX_MATERIALS *)
| ERR_NOT_AN_AABB.           (* v.get_type() != Variant::AABB *)

(** The types of the properties [_get_property_list] lists. *)
Inductive VariantType : Type :=
| FLOAT
| VECTOR2.

Section Methods_of_the_model.
Context `{FO : FloatOps} {EN : Engine} {CT : CubeTables} {MD : ModelDefaults}
  {LI : Limits} {CS : CubeSides} {VA : Variants}.

Definition with_name (v : string) (m : VoxelBlockyModel.t)
  : VoxelBlockyModel.t :=
  VoxelBlockyModel.mk (_id m) v (_material_id m) (_transparency_index m)
    (_color m) (_geometry_type m) (_cube_tiles m) (_custom_mesh m)
    (_collision_aabbs m) (_collision_mask m) (_random_tickable m) (_empty m).

Definition with_material_id (v : Z) (m : VoxelBlockyModel.t)
  : VoxelBlockyModel.t :=
  VoxelBlockyModel.mk (_id m) (_name m) v (_transparency_index m)
    (_color m) (_geometry_type m) (_cube_tiles m) (_custom_mesh m)
    (_collision_aabbs m) (_collision_mask m) (_random_tickable m) (_empty m).

Definition with_transparency_index (v : Z) (m : VoxelBlockyModel.t)
  : VoxelBlockyModel.t :=
  VoxelBlockyModel.mk (_id m) (_name m) (_material_id m) v
    (_color m) (_geometry_type m) (_cube_tiles m) (_custom_mesh m)
    (_collision_aabbs m) (_collision_mask m) (_random_tickable m) (_empty m).

Definition with_color (v : Color) (m : VoxelBlockyModel.t)
  : VoxelBlockyModel.t :=
  VoxelBlockyModel.mk (_id m) (_name m) (_material_id m)
    (_transparency_index m) v (_geometry_type m) (_cube_tiles m)
    (_custom_mesh m) (_collision_aabbs m) (_collision_mask m)
    (_random_tickable m) (_empty m).

Definition with_collision_mask (v : Z) (m : VoxelBlockyModel.t)
  : VoxelBlockyModel.t :=
  VoxelBlockyModel.mk (_id m) (_name m) (_material_id m)
    (_transparency_index m) (_color m) (_geometry_type m) (_cube_tiles m)
    (_custom_mesh m) (_collision_aabbs m) v (_random_tickable m) (_empty m).

Definition with_random_tickable (v : bool) (m : VoxelBlockyModel.t)
  : VoxelBlockyModel.t :=
  VoxelBlockyModel.mk (_id m) (_name m) (_material_id m)
    (_transparency_index m) (_color m) (_geometry_type m) (_cube_tiles m)
    (_custom_mesh m) (_collision_aabbs m) (_collision_mask m) v (_empty m).

(** [name_to_side] *)
Definition name_to_side (s : string) : nat :=
  if String.eqb s "left" then SIDE_LEFT
  else if String.eqb s "right" then SIDE_RIGHT
  else if String.eqb s "top" then SIDE_TOP
  else if String.eqb s "bottom" then SIDE_BOTTOM
  else if String.eqb s "front" then SIDE_FRONT
  else if String.eqb s "back" then SIDE_BACK
  else SIDE_COUNT.

(** [name.substr(ZN_ARRAY_LENGTH("cube_tiles/") - 1, name.length())]: the
    name without its first 11 characters. *)
Definition cube_tiles_suffix (name : string) : string :=
  substring 11 (String.length name) name.

(** [VoxelBlockyModel::_set]: the model and the boolean returned. *)
Definition _set (p_name : string) (p_value : Variant)
    (m : VoxelBlockyModel.t) : VoxelBlockyModel.t * bool :=
  let name := p_name in
  if String.prefix "cube_tiles/" name then
    let s := cube_tiles_suffix name in
    let side := name_to_side s in
    if negb (side =? SIDE_COUNT)%nat then
      let v := Variant_to_Vector2 p_value in
      (set_cube_uv_side side (Vector2f.mk (Vector2_x v) (Vector2_y v)) m,
       true)
    else (m, false)
  else (m, false).

(** [VoxelBlockyModel::_get]: [Some r_ret] for [true], [None] for [false],
    which leaves [r_ret] as it was. *)
Definition _get (p_name : string) (m : VoxelBlockyModel.t) : option Variant :=
  let name := p_name in
  if String.prefix "cube_tiles/" name then
    let s := cube_tiles_suffix name in
    let side := name_to_side s in
    if negb (side =? SIDE_COUNT)%nat then
      let f := _cube_tiles m side in
      Some (Variant_of_Vector2 (Vector2_of (Vector2f.x f) (Vector2f.y f)))
    else None
  else None.

(** [VoxelBlockyModel::_get_property_list]: the list with what is pushed on
    it. *)
Definition _get_property_list (m : VoxelBlockyModel.t)
    (p_list : list (VariantType * string)) : list (VariantType * string) :=
  if decide (_geometry_type m = GEOMETRY_CUBE) then
    p_list ++ [(FLOAT, "cube_geometry/padding_y"%string)]
           ++ [(VECTOR2, "cube_tiles/left"%string)]
           ++ [(VECTOR2, "cube_tiles/right"%string)]
           ++ [(VECTOR2, "cube_tiles/bottom"%string)]
           ++ [(VECTOR2, "cube_tiles/top"%string)]
           ++ [(VECTOR2, "cube_tiles/back"%string)]
           ++ [(VECTOR2, "cube_tiles/front"%string)]
  else p_list.

(** [VoxelBlockyModel::set_voxel_name] *)
Definition set_voxel_name (name : string) (m : VoxelBlockyModel.t)
  : VoxelBlockyModel.t :=
  with_name name m.

(** [(unsigned int)id] of an [int]. *)
Definition to_unsigned (id : Z) : Z := id mod 2 ^ 32.

(** [VoxelBlockyModel::set_id]: the model and the error reported, if any. *)
Definition set_id (id : Z) (m : VoxelBlockyModel.t)
  : VoxelBlockyModel.t * option SetterError :=
  if (id <? 0) || (MAX_VOXEL_TYPES <=? to_unsigned id)
  then (m, Some ERR_ID_OUT_OF_RANGE)
  else if negb (_id m =? -1) then (m, Some ERR_ID_ALREADY_SET)
  else (with_id id m, None).

(** [VoxelBlockyModel::set_color] *)
Definition set_color (color : Color) (m : VoxelBlockyModel.t)
  : VoxelBlockyModel.t :=
  with_color color m.

(** [VoxelBlockyModel::set_material_id]; [id] is an [unsigned int]. *)
Definition set_material_id (id : Z) (m : VoxelBlockyModel.t)
  : VoxelBlockyModel.t * option SetterError :=
  if MAX_MATERIALS <=? id then (m, Some ERR_MATERIAL_OUT_OF_RANGE)
  else (with_material_id id m, None).

(** [VoxelBlockyModel::set_transparent] *)
Definition set_transparent (t : bool) (m : VoxelBlockyModel.t)
  : VoxelBlockyModel.t :=
  if t then
    if _transparency_index m =? 0 then with_transparency_index 1 m else m
  else with_transparency_index 0 m.

(** Modelled from the spec: [math::clamp] of util/math/funcs.h, which keeps
    the transparency an integer in [0, 255]: the bound that [x] passes, or
    [x]. *)
Definition clamp (x min_value max_value : Z) : Z :=
  if x <? min_value then min_value
  else if max_value <? x then max_value
  else x.

(** [VoxelBlockyModel::set_transparency_index] *)
Definition set_transparency_index (i : Z) (m : VoxelBlockyModel.t)
  : VoxelBlockyModel.t :=
  with_transparency_index (clamp i 0 255) m.

(** [VoxelBlockyModel::get_geometry_type] *)
Definition get_geometry_type (m : VoxelBlockyModel.t) : GeometryType :=
  _geometry_type m.

(** [VoxelBlockyModel::set_cube_geometry], which has an empty body. *)
Definition set_cube_geometry (m : VoxelBlockyModel.t) : VoxelBlockyModel.t :=
  m.

(** [VoxelBlockyModel::set_random_tickable] *)
Definition set_random_tickable (rt : bool) (m : VoxelBlockyModel.t)
  : VoxelBlockyModel.t :=
  with_random_tickable rt m.

(** [VoxelBlockyModel::set_collision_mask]; [mask] is a [uint32_t]. *)
Definition set_collision_mask (mask : Z) (m : VoxelBlockyModel.t)
  : VoxelBlockyModel.t :=
  with_collision_mask mask m.

(** [VoxelBlockyModel::_b_get_collision_aabbs] *)
Definition _b_get_collision_aabbs (m : VoxelBlockyModel.t) : list Variant :=
  let array := resize (length (_collision_aabbs m)) Variant_nil [] in
  foldl (fun array i =>
           match _collision_aabbs m !! i with
           | Some aabb => <[i := Variant_of_AABB aabb]> array
           | None => array
           end)
    array (seq 0 (length (_collision_aabbs m))).

(** [VoxelBlockyModel::_b_set_collision_aabbs]: the model and the error
    reported, if any. *)
Definition _b_set_collision_aabbs (array : list Variant)
    (m : VoxelBlockyModel.t) : VoxelBlockyModel.t * option SetterError :=
  if negb (forallb Variant_is_AABB array) then (m, Some ERR_NOT_AN_AABB)
  else
    let aabbs := resize (length array) AABB_default (_collision_aabbs m) in
    let aabbs :=
      foldl (fun aabbs i =>
               match array !! i with
               | Some v => <[i := Variant_to_AABB v]> aabbs
               | None => aabbs
               end)
        aabbs (seq 0 (length array)) in
    (with_collision_aabbs aabbs m, None).

(** The calls that change a model definition. *)
Inductive Call : Type :=
| call_set_voxel_name (name : string)
| call_set_id (id : Z)
| call_set_color (color : Color)
| call_set_material_id (id : Z)
| call_set_transparent (t : bool)
| call_set_transparency_index (i : Z)
| call_set_geometry_type (type : GeometryType)
| call_set_custom_mesh (mesh : MeshRef)
| call_set_cube_geometry
| call_set_random_tickable (rt : bool)
| call_set_cube_uv_side (side : nat) (tile_pos : Vector2f.t)
| call_set_collision_mask (mask : Z)
| call_set_collision_aabbs (array : list Variant)
| call_set (p_name : string) (p_value : Variant).

Definition invoke (m : VoxelBlockyModel.t) (c : Call) : VoxelBlockyModel.t :=
  match c with
  | call_set_voxel_name name => set_voxel_name name m
  | call_set_id id => (set_id id m).1
  | call_set_color color => set_color color m
  | call_set_material_id id => (set_material_id id m).1
  | call_set_transparent t => set_transparent t m
  | call_set_transparency_index i => set_transparency_index i m
  | call_set_geometry_type type => set_geometry_type type m
  | call_set_custom_mesh mesh => set_custom_mesh mesh m
  | call_set_cube_geometry => set_cube_geometry m
  | call_set_random_tickable rt => set_random_tickable rt m
  | call_set_cube_uv_side side tile_pos => set_cube_uv_side side tile_pos m
  | call_set_collision_mask mask => set_collision_mask mask m
  | call_set_collision_aabbs array => (_b_set_collision_aabbs array m).1
  | call_set p_name p_value => (_set p_name p_value m).1
  end.

(** The arguments of a call have the types of the parameters: [int] for
    [set_id], [unsigned int] for [set_material_id]. *)
Definition typed (c : Call) : Prop :=
  match c with
  | call_set_id id => - 2 ^ 31 <= id < 2 ^ 31
  | call_set_material_id id => 0 <= id < 2 ^ 32
  | _ => True
  end.

(** The bounds the setters keep. *)
Definition in_bounds (m : VoxelBlockyModel.t) : Prop :=
  (_id m = -1 \/ 0 <= _id m < MAX_VOXEL_TYPES) /\
  0 <= _material_id m < MAX_MATERIALS /\
  0 <= _transparency_index m <= 255.

(** The side a property name stands for, if it is the name of a cube
    tile. *)
Definition tile_side (name : string) : option nat :=
  if String.prefix "cube_tiles/" name then
    let side := name_to_side (cube_tiles_suffix name) in
    if negb (side =? SIDE_COUNT)%nat then Some side else None
  else None.

(** The named sides, in the order [_get_property_list] lists their tiles. *)
Definition named_sides : list nat :=
  [SIDE_LEFT; SIDE_RIGHT; SIDE_BOTTOM; SIDE_TOP; SIDE_BACK; SIDE_FRONT].

(** The names of their tiles, in that order. *)
Definition tile_names : list string :=
  ["cube_tiles/left"; "cube_tiles/right"; "cube_tiles/bottom";
   "cube_tiles/top"; "cube_tiles/back"; "cube_tiles/front"]%string.

End Methods_of_the_model.

(** ** util/math/vector3f.h: comparisons *)

(** [==] on [float]. *)
Class FloatEq `{FloatOps} : Type := {
  feq : float -> float -> bool;
}.

Module Vector3fCompare.
Section Ops.
Context `{FE : FloatEq}.

(** [operator==] *)
Definition eq (a p_v : Vector3f.t) : bool :=
  feq (Vector3f.x a) (Vector3f.x p_v)
  && feq (Vector3f.y a) (Vector3f.y p_v)
  && feq (Vector3f.z a) (Vector3f.z p_v).

(** [operator!=]; [x != y] on [float] is the negation of [x == y]. *)
Definition ne (a p_v : Vector3f.t) : bool :=
  negb (feq (Vector3f.x a) (Vector3f.x p_v))
  || negb (feq (Vector3f.y a) (Vector3f.y p_v))
  || negb (feq (Vector3f.z a) (Vector3f.z p_v)).

(** [operator<] *)
Definition lt (a p_v : Vector3f.t) : bool :=
  if feq (Vector3f.x a) (Vector3f.x p_v) then
    if feq (Vector3f.y a) (Vector3f.y p_v) then
      flt (Vector3f.z a) (Vector3f.z p_v)
    else flt (Vector3f.y a) (Vector3f.y p_v)
  else flt (Vector3f.x a) (Vector3f.x p_v).

End Ops.
End Vector3fCompare.

Section Float_order.
Context `{FE : FloatEq}.

(** What the comparisons of IEEE 754 give, NaN included: [==] is symmetric
    and transitive, [<] is transitive and goes through [==] on either side,
    and [x < y] excludes [x == y] and [y < x]. *)
Definition float_order : Prop :=
  (forall x y, feq x y = feq y x) /\
  (forall x y z, feq x y = true -> feq y z = true -> feq x z = true) /\
  (forall x y z, flt x y = true -> flt y z = true -> flt x z = true) /\
  (forall x y z, feq x y = true -> flt y z = true -> flt x z = true) /\
  (forall x y z, flt x y = true -> feq y z = true -> flt x z = true) /\
  (forall x y, flt x y = true -> feq x y = false) /\
  (forall x y, flt x y = true -> flt y x = false).

End Float_order.

(** ** What the further properties are stated with *)

Section Further_definitions.
Context `{FO : FloatOps} {EN : Engine} {CT : CubeTables}.

(** The tangent floats of a side of the cube: the tangent of the side, once
    per corner. *)
Definition cube_side_tangents (side : nat) : list float :=
  concat (replicate 4 [g_side_tangents side 0; g_side_tangents side 1;
                       g_side_tangents side 2; g_side_tangents side 3]).

(** The buckets of two records agree but for the UVs of [side]. *)
Definition same_but_side_uvs (side : nat) (m1 m2 : Model.t) : Prop :=
  Model.normals m1 = Model.normals m2 /\
  forall b,
    bucket_positions b m1 = bucket_positions b m2 /\
    bucket_indices b m1 = bucket_indices b m2 /\
    bucket_tangents b m1 = bucket_tangents b m2 /\
    (b <> Some side -> bucket_uvs b m1 = bucket_uvs b m2).

(** Three coordinates and a handedness of 1 or -1. *)
Definition tangent_with_handedness (t : list float) : Prop :=
  exists x y z w, t = [x; y; z; w] /\ (w = f_one \/ w = f_neg_one).

(** The record and the error of a bake, without the model. *)
Definition baked {M R E} (o : outcome (M * R * E)) : outcome (R * E) :=
  (fun x => (x.1.2, x.2)) <$> o.

(** The number of indices of a record, all buckets together. *)
Definition index_count (m : Model.t) : nat :=
  length (Model.indices m)
  + sum_list ((fun side => length (Model.side_indices m side))
                <$> seq 0 SIDE_COUNT).

End Further_definitions.

(** *** The order of the comparisons of binary64 *)

(** The place of a float that is not NaN in the order of [SFcompare]:
    by sign, then by exponent, then by mantissa. *)
Definition SFkey (f : spec_float) : option (Z * Z * Z) :=
  match f with
  | S754_nan => None
  | S754_infinity true => Some (-2, 0, 0)
  | S754_finite true m e => Some (-1, - e, Z.neg m)
  | S754_zero _ => Some (0, 0, 0)
  | S754_finite false m e => Some (1, e, Z.pos m)
  | S754_infinity false => Some (2, 0, 0)
  end.

(** The comparison of two places. *)
Definition lex_compare (k1 k2 : Z * Z * Z) : comparison :=
  match k1.1.1 ?= k2.1.1 with
  | Eq => match k1.1.2 ?= k2.1.2 with
          | Eq => k1.2 ?= k2.2
          | c => c
          end
  | c => c
  end.

(** ** An implementation to evaluate the code with *)

(** The kernel's binary64 floats.  The tolerance is the 32-bit float nearest
    to 0.001, and 0.9 the double the source compares with.
    [is_equal_approx] is the engine's: exact equality, or a distance below
    the tolerance. *)
Definition Binary64 : FloatOps := {|
  float := PrimFloat.float;
  f_zero := 0%float;
  f_one := 1%float;
  f_neg_one := (-1)%float;
  f_lit_0_001 := 0x1.0624dep-10%float;
  f_lit_0_9 := 0x1.ccccccccccccdp-1%float;
  fadd := PrimFloat.add;
  fsub := PrimFloat.sub;
  fmul := PrimFloat.mul;
  fdiv := PrimFloat.div;
  flt := PrimFloat.ltb;
  fle := PrimFloat.leb;
  f_of_int := fun i =>
    match i with
    | Z0 => 0%float
    | Zpos p => PrimFloat.of_uint63 (Uint63.of_Z (Zpos p))
    | Zneg p => PrimFloat.opp (PrimFloat.of_uint63 (Uint63.of_Z (Zpos p)))
    end;
  is_equal_approx := fun a b tolerance =>
    PrimFloat.eqb a b
    || PrimFloat.ltb (PrimFloat.abs (PrimFloat.sub a b)) tolerance;
|}.

(** Engine vectors with [float] components; the conversions copy them. *)
Definition PlainEngine : @Engine Binary64 := {|
  Vector2 := @Vector2f.t Binary64;
  Vector3 := @Vector3f.t Binary64;
  Color := PrimFloat.float * PrimFloat.float * PrimFloat.float * PrimFloat.float;
  AABB := @Vector3f.t Binary64 * @Vector3f.t Binary64;
  Vector2_default := @Vector2f.mk Binary64 0%float 0%float;
  Vector2_sub := fun a b =>
    @Vector2f.mk Binary64
      (PrimFloat.sub (Vector2f.x a) (Vector2f.x b))
      (PrimFloat.sub (Vector2f.y a) (Vector2f.y b));
  to_vec2f := fun v => v;
  to_vec3f := fun v => v;
  Color_white := (1%float, 1%float, 1%float, 1%float);
  AABB_unit :=
    (@Vector3f.mk Binary64 0%float 0%float 0%float,
     @Vector3f.mk Binary64 1%float 1%float 1%float);
|}.

(** Tables of a unit cube: eight corners, four corners per side, the same two
    triangles on every side. *)
Definition UnitCube : @CubeTables Binary64 := {|
  SIDE_POSITIVE_X := 0;
  SIDE_NEGATIVE_X := 1;
  SIDE_NEGATIVE_Y := 2;
  SIDE_POSITIVE_Y := 3;
  SIDE_NEGATIVE_Z := 4;
  SIDE_POSITIVE_Z := 5;
  g_corner_position := fun corner =>
    nth corner
      [@Vector3f.mk Binary64 1%float 0%float 0%float;
       @Vector3f.mk Binary64 0%float 0%float 0%float;
       @Vector3f.mk Binary64 0%float 0%float 1%float;
       @Vector3f.mk Binary64 1%float 0%float 1%float;
       @Vector3f.mk Binary64 1%float 1%float 0%float;
       @Vector3f.mk Binary64 0%float 1%float 0%float;
       @Vector3f.mk Binary64 0%float 1%float 1%float;
       @Vector3f.mk Binary64 1%float 1%float 1%float]
      (@Vector3f.mk Binary64 0%float 0%float 0%float);
  g_side_corners := fun side i =>
    nth i (nth side
      [[3; 0; 4; 7]; [1; 2; 6; 5]; [1; 0; 3; 2];
       [4; 5; 6; 7]; [0; 1; 5; 4]; [2; 3; 7; 6]]%nat []) 0%nat;
  g_side_quad_triangles := fun side i => nth i [0; 2; 1; 0; 3; 2] 0;
  g_side_tangents := fun side j =>
    nth j (nth side
      [[0; 0; -1; 1]; [0; 0; 1; 1]; [1; 0; 0; 1];
       [1; 0; 0; 1]; [-1; 0; 0; 1]; [1; 0; 0; 1]]%float []) 0%float;
|}.

Definition PlainDefaults : @ModelDefaults Binary64 PlainEngine := {|
  default_name := EmptyString;
  default_cube_tiles := fun _ => @Vector2f.mk Binary64 0%float 0%float;
  default_collision_mask := 1;
  default_random_tickable := false;
  default_empty := true;
|}.

(** Bounds to evaluate the setters with. *)
Definition PlainLimits : Limits := {|
  MAX_VOXEL_TYPES := 65536;
  MAX_MATERIALS := 8;
|}.

(** The named sides, numbered from 0. *)
Definition NamedSides : CubeSides := {|
  SIDE_LEFT := 0;
  SIDE_RIGHT := 1;
  SIDE_BOTTOM := 2;
  SIDE_TOP := 3;
  SIDE_BACK := 4;
  SIDE_FRONT := 5;
|}.

(** Variants of four types; a variant of another type converts to the
    default value. *)
Inductive PlainVariant : Type :=
| PV_NIL
| PV_INT (i : Z)
| PV_VECTOR2 (v : @Vector2f.t Binary64)
| PV_AABB (a : @Vector3f.t Binary64 * @Vector3f.t Binary64).

Definition PlainVariants : @Variants Binary64 PlainEngine :=
  @Build_Variants Binary64 PlainEngine
    PlainVariant
    PV_NIL
    PV_AABB
    (fun v => match v with PV_AABB _ => true | _ => false end)
    (fun v =>
       match v with
       | PV_AABB a => a
       | _ => (@Vector3f.mk Binary64 0%float 0%float 0%float,
               @Vector3f.mk Binary64 0%float 0%float 0%float)
       end)
    PV_VECTOR2
    (fun v =>
       match v with
       | PV_VECTOR2 v => v
       | _ => @Vector2f.mk Binary64 0%float 0%float
       end)
    (@Vector3f.mk Binary64 0%float 0%float 0%float,
     @Vector3f.mk Binary64 0%float 0%float 0%float)
    (@Vector2f.x Binary64)
    (@Vector2f.y Binary64)
    (@Vector2f.mk Binary64).

(** [==] of binary64. *)
Definition Binary64Eq : @FloatEq Binary64 :=
  @Build_FloatEq Binary64 PrimFloat.eqb.

(** ** Inputs to evaluate the code on *)

Section Example_inputs.
#[local] Existing Instance Binary64.
#[local] Existing Instance PlainEngine.
#[local] Existing Instance UnitCube.
#[local] Existing Instance PlainDefaults.

Definition vec3 (x y z : PrimFloat.float) : Vector3f.t := Vector3f.mk x y z.
Definition vec2 (x y : PrimFloat.float) : Vector2f.t := Vector2f.mk x y.

(** A quad on the plane x = 0, as two triangles, and a triangle that joins
    two of its vertices to the centre of the cube; one tangent per vertex. *)
Definition quad_and_fin : Mesh.arrays :=
  Mesh.mk_arrays
    (Some [vec3 0 0 0; vec3 0 1 0; vec3 0 1 1; vec3 0 0 1;
           vec3 0.5 0.5 0.5]%float)
    (Some [vec3 (-1) 0 0; vec3 (-1) 0 0; vec3 (-1) 0 0; vec3 (-1) 0 0;
           vec3 0 0 1]%float)
    (Some [0; 0; 1; 1;  0; 0; 2; 1;  0; 0; 3; 1;  0; 0; 4; 1;
           0; 0; 5; 1]%float)
    (Some [vec2 0 0; vec2 0 1; vec2 1 1; vec2 1 0; vec2 0.5 0.5]%float)
    (Some [0; 1; 2;  0; 2; 3;  0; 2; 4]).

(** The triangles of [quad_and_fin]. *)
Definition quad_and_fin_triangles
  : list (Z * Z * Z * (Vector3f.t * Vector3f.t * Vector3f.t)) :=
  [((0, 1, 2), (vec3 0 0 0, vec3 0 1 0, vec3 0 1 1)%float);
   ((0, 2, 3), (vec3 0 0 0, vec3 0 1 1, vec3 0 0 1)%float);
   ((0, 2, 4), (vec3 0 0 0, vec3 0 1 1, vec3 0.5 0.5 0.5)%float)].

(** One vertex and no triangle. *)
Definition lone_vertex : Mesh.arrays :=
  Mesh.mk_arrays (Some [vec3 0 0 0]%float) (Some [vec3 0 1 0]%float) None
    (Some [vec2 0 0]%float) (Some []).

(** One triangle on the plane x = 0; the tangent of vertex k is
    (k, 0, 0, 1). *)
Definition tangent_triangle : Mesh.arrays :=
  Mesh.mk_arrays
    (Some [vec3 0 0 0; vec3 0 1 0; vec3 0 0 1]%float)
    (Some [vec3 (-1) 0 0; vec3 (-1) 0 0; vec3 (-1) 0 0]%float)
    (Some [0; 0; 0; 1;  1; 0; 0; 1;  2; 0; 0; 1]%float)
    (Some [vec2 0 0; vec2 0 1; vec2 1 0]%float)
    (Some [0; 1; 2]).

(** Four indices, and an empty UV array. *)
Definition four_indices : Mesh.arrays :=
  Mesh.mk_arrays
    (Some [vec3 0 0 0; vec3 0 1 0; vec3 0 0 1]%float)
    (Some [vec3 (-1) 0 0; vec3 (-1) 0 0; vec3 (-1) 0 0]%float)
    None (Some []) (Some [0; 1; 2; 0]).

(** One triangle on the plane x = 0 with an empty UV array and no tangent
    array. *)
Definition no_uv_triangle : Mesh.arrays :=
  Mesh.mk_arrays
    (Some [vec3 0 0 0; vec3 0 1 0; vec3 0 0 1]%float)
    (Some [vec3 (-1) 0 0; vec3 (-1) 0 0; vec3 (-1) 0 0]%float)
    None (Some []) (Some [0; 1; 2]).

Definition example_heap : MeshHeap :=
  <[4%nat := Mesh.mk (Some no_uv_triangle)]> $
  <[3%nat := Mesh.mk (Some four_indices)]>
    (<[2%nat := Mesh.mk (Some tangent_triangle)]>
       (<[1%nat := Mesh.mk (Some lone_vertex)]>
          (<[0%nat := Mesh.mk (Some quad_and_fin)]> ∅))).

(** A model with the custom mesh at an address of the heap. *)
Definition mesh_model (a : nat) : VoxelBlockyModel.t :=
  set_geometry_type GEOMETRY_CUSTOM_MESH
    (set_custom_mesh (Some a) VoxelBlockyModel_new).

(** A cube with the tile (1, 2) on every side. *)
Definition cube_model : VoxelBlockyModel.t :=
  set_geometry_type GEOMETRY_CUBE
    (with_empty true
       (foldl (fun m side => set_cube_uv_side side (vec2 1 2) m)
          VoxelBlockyModel_new (seq 0 SIDE_COUNT))).

(** A record without geometry. *)
Definition fresh_record : BakedData.t :=
  BakedData.mk empty_model Color_white 0 0 true.

(** A record left by an earlier bake. *)
Definition used_record : BakedData.t :=
  BakedData.mk
    (Model.mk [vec3 1 1 1] [vec3 0 1 0] [vec2 0 0] [0; 0; 0] []
       (fun _ => [vec3 1 1 1]) (fun _ => [vec2 0 0]) (fun _ => [0; 0; 0])
       (fun _ => []))
    Color_white 7 3 false.

End Example_inputs.

Section More_example_inputs.
#[local] Existing Instance Binary64.
#[local] Existing Instance PlainEngine.
#[local] Existing Instance UnitCube.
#[local] Existing Instance PlainDefaults.
#[local] Existing Instance PlainLimits.
#[local] Existing Instance NamedSides.
#[local] Existing Instance PlainVariants.

(** The tile (1, 2), as a variant. *)
Definition example_tile : Variant := PV_VECTOR2 (vec2 1 2).

(** Calls of a script: an id, a material id out of range, a transparency
    index out of range, a second id, a tile. *)
Definition example_calls : list Call :=
  [call_set_id 7; call_set_material_id 9; call_set_transparency_index 300;
   call_set_id 70000; call_set_id 8; call_set_geometry_type GEOMETRY_CUBE;
   call_set "cube_tiles/top" example_tile].

(** Two boxes, as variants. *)
Definition example_boxes : list Variant :=
  [PV_AABB (vec3 0 0 0, vec3 1 0.5 1);
   PV_AABB (vec3 0 0.5 0, vec3 0.5 0.5 1)]%float.

End More_example_inputs.

(** ** The model definition: geometry type and duplication *)

Section Model_properties.
Context `{FO : FloatOps} {EN : Engine} {CT : CubeTables} {MD : ModelDefaults}.

Lemma set_geometry_type_same (m : VoxelBlockyModel.t) :
  set_geometry_type (_geometry_type m) m = m.
Proof. unfold set_geometry_type. by rewrite decide_True. Qed.

(** What [set_geometry_type] does.  Setting the kind the model already has
    changes nothing.  A switch to another kind stores the kind; the collision boxes
    become empty for None, the single unit box for Cube, and stay as they
    were for CustomMesh; the emptiness flag is set, to false, on a switch to
    Cube only, and keeps its value on a switch to None or CustomMesh; no
    other field changes. *)
Theorem set_geometry_type_spec (type : GeometryType) (m : VoxelBlockyModel.t) :
  let m' := set_geometry_type type m in
  (type = _geometry_type m -> m' = m) /\
  (type <> _geometry_type m ->
     _geometry_type m' = type /\
     _collision_aabbs m' =
       match type with
       | GEOMETRY_NONE => []
       | GEOMETRY_CUBE => [AABB_unit]
       | GEOMETRY_CUSTOM_MESH | GEOMETRY_MAX => _collision_aabbs m
       end /\
     _empty m' =
       match type with
       | GEOMETRY_CUBE => false
       | GEOMETRY_NONE | GEOMETRY_CUSTOM_MESH | GEOMETRY_MAX => _empty m
       end /\
     _id m' = _id m /\ _name m' = _name m /\
     _material_id m' = _material_id m /\
     _transparency_index m' = _transparency_index m /\
     _color m' = _color m /\ _cube_tiles m' = _cube_tiles m /\
     _custom_mesh m' = _custom_mesh m /\
     _collision_mask m' = _collision_mask m /\
     _random_tickable m' = _random_tickable m).
Proof.
  intros m'. subst m'. split.
  - intros ->. apply set_geometry_type_same.
  - intros Hne. unfold set_geometry_type.
    rewrite decide_False by exact Hne.
    destruct type; cbn; repeat split; reflexivity.
Qed.

(** C9.  The emptiness flag is not updated on a switch to None.  A model
    that is switched to Cube has the flag false; switched to None after
    that, it has no collision box and no geometry to bake, and keeps the
    flag false.  Every bake of that model marks the record empty, without
    a vertex in any bucket, and only then sets the flag of the model to
    true. *)
Theorem switch_to_none_keeps_empty (m0 : VoxelBlockyModel.t) (h : MeshHeap)
    (baked_data : BakedData.t) (n : Z) (bake_tangents : bool) :
  _geometry_type m0 <> GEOMETRY_CUBE ->
  let cube := set_geometry_type GEOMETRY_CUBE m0 in
  let none := set_geometry_type GEOMETRY_NONE cube in
  _geometry_type cube = GEOMETRY_CUBE /\ _empty cube = false /\
  _geometry_type none = GEOMETRY_NONE /\ _collision_aabbs none = [] /\
  _empty none = false /\
  exists r,
    bake h none baked_data n bake_tangents
      = Done (with_empty true none, r, None) /\
    BakedData.empty r = true /\
    no_vertices (BakedData.model r).
Proof.
  intros Hne cube none.
  assert (Hcube : cube =
    VoxelBlockyModel.mk (_id m0) (_name m0) (_material_id m0)
      (_transparency_index m0) (_color m0) GEOMETRY_CUBE (_cube_tiles m0)
      (_custom_mesh m0) [AABB_unit] (_collision_mask m0)
      (_random_tickable m0) false).
  { subst cube. unfold set_geometry_type.
    rewrite decide_False by congruence. reflexivity. }
  subst none. rewrite Hcube. clear Hcube cube.
  split; [reflexivity|]. split; [reflexivity|]. split; [reflexivity|].
  split; [reflexivity|]. split; [reflexivity|].
  eexists. split; [reflexivity|]. split; [reflexivity|].
  intros [side|]; reflexivity.
Qed.

(** C10.  The copy has id -1 whatever the id of the original, and the
    original's name, material id, transparency index, color, geometry type,
    cube tiles, collision boxes, random-tickable flag and emptiness flag.
    Without [p_subresources] it holds the original's mesh reference and the
    heap is unchanged.  With [p_subresources] and a valid reference it holds
    the address of a new mesh object, which has the arrays of the original's
    mesh; the original's mesh and every other object stay as they were. *)
Theorem duplicate_spec (p_subresources : bool) (m : VoxelBlockyModel.t)
    (h : MeshHeap) :
  let d := (duplicate p_subresources m h).1 in
  let h' := (duplicate p_subresources m h).2 in
  _id d = -1 /\
  _name d = _name m /\ _material_id d = _material_id m /\
  _transparency_index d = _transparency_index m /\ _color d = _color m /\
  _geometry_type d = _geometry_type m /\ _cube_tiles d = _cube_tiles m /\
  _collision_aabbs d = _collision_aabbs m /\
  _random_tickable d = _random_tickable m /\ _empty d = _empty m /\
  (p_subresources = false -> _custom_mesh d = _custom_mesh m /\ h' = h) /\
  (p_subresources = true -> _custom_mesh m = None ->
     _custom_mesh d = None /\ h' = h) /\
  (p_subresources = true ->
   forall a mesh, _custom_mesh m = Some a -> h !! a = Some mesh ->
     exists a', _custom_mesh d = Some a' /\ a' <> a /\ h !! a' = None /\
                h' = <[a' := mesh]> h /\ h' !! a' = Some mesh /\
                h' !! a = Some mesh).
Proof.
  intros d h'. subst d h'. unfold duplicate.
  destruct p_subresources; cbn [_custom_mesh with_id VoxelBlockyModel_new].
  - destruct (_custom_mesh m) as [a|] eqn:Hm.
    + unfold Mesh_duplicate. destruct (h !! a) as [mesh|] eqn:Ha; cbn.
      * repeat split; try discriminate.
        intros _ a0 mesh0 [= <-] Hm0. rewrite Ha in Hm0.
        injection Hm0 as <-.
        assert (Hfresh : h !! fresh (dom h) = None).
        { apply not_elem_of_dom. apply is_fresh. }
        exists (fresh (dom h)). repeat split.
        -- intros Heq. rewrite Heq in Hfresh. congruence.
        -- exact Hfresh.
        -- apply lookup_insert_eq.
        -- rewrite lookup_insert_ne; [exact Ha|].
           intros Heq. rewrite Heq in Hfresh. congruence.
      * repeat split; try discriminate.
        intros _ a0 mesh0 [= <-]. congruence.
    + cbn. repeat split; try discriminate.
  - cbn. repeat split; try discriminate.
Qed.

End Model_properties.

(** ** The cube baker *)

Lemma fill_resize_4 {A} (f : nat -> A) (d : A) (l : list A) :
  fill 4 f (resize 4 d l) = [f 0%nat; f 1%nat; f 2%nat; f 3%nat].
Proof. destruct l as [|? [|? [|? [|? [|? ?]]]]]; reflexivity. Qed.

Lemma fill_resize_6 {A} (f : nat -> A) (d : A) (l : list A) :
  fill 6 f (resize 6 d l)
  = [f 0%nat; f 1%nat; f 2%nat; f 3%nat; f 4%nat; f 5%nat].
Proof. destruct l as [|? [|? [|? [|? [|? [|? [|? ?]]]]]]]; reflexivity. Qed.

Section Cube_baker_properties.
Context `{FO : FloatOps} {EN : Engine} {CT : CubeTables}.

Lemma bake_cube_side_geometry_eq (m : Model.t) (side : nat) :
  bake_cube_side_geometry m side =
  set_side_indices side
    (map (g_side_quad_triangles side) (seq 0 6))
    (set_side_positions side (map (cube_side_position side) (seq 0 4)) m).
Proof.
  unfold bake_cube_side_geometry. cbn [Model.side_indices set_side_positions].
  by rewrite fill_resize_4, fill_resize_6.
Qed.

Lemma bake_cube_sides_geometry (ss : list nat) (m : Model.t) (side : nat) :
  let m' := foldl bake_cube_side_geometry m ss in
  Model.side_positions m' side =
    (if bool_decide (side ∈ ss)
     then map (cube_side_position side) (seq 0 4)
     else Model.side_positions m side) /\
  Model.side_indices m' side =
    (if bool_decide (side ∈ ss)
     then map (g_side_quad_triangles side) (seq 0 6)
     else Model.side_indices m side) /\
  Model.side_uvs m' = Model.side_uvs m /\
  Model.side_tangents m' = Model.side_tangents m /\
  Model.positions m' = Model.positions m /\
  Model.normals m' = Model.normals m /\
  Model.uvs m' = Model.uvs m /\
  Model.indices m' = Model.indices m /\
  Model.tangents m' = Model.tangents m.
Proof.
  revert m. induction ss as [|s ss IH]; intros m; [done|].
  cbn [foldl]. cbv zeta in IH |- *.
  destruct (IH (bake_cube_side_geometry m s))
    as (-> & -> & -> & -> & -> & -> & -> & -> & ->).
  rewrite bake_cube_side_geometry_eq. cbn. unfold upd.
  repeat split.
  - destruct (decide (side = s)) as [->|Hne].
    + rewrite (bool_decide_eq_true_2 (s ∈ s :: ss)) by (apply elem_of_cons; auto).
      by destruct (bool_decide (s ∈ ss)).
    + destruct (bool_decide (side ∈ ss)) eqn:Hin.
      * apply bool_decide_eq_true_1 in Hin.
        by rewrite bool_decide_eq_true_2 by (apply elem_of_cons; auto).
      * apply bool_decide_eq_false_1 in Hin.
        by rewrite bool_decide_eq_false_2 by (rewrite elem_of_cons; tauto).
  - destruct (decide (side = s)) as [->|Hne].
    + rewrite (bool_decide_eq_true_2 (s ∈ s :: ss)) by (apply elem_of_cons; auto).
      by destruct (bool_decide (s ∈ ss)).
    + destruct (bool_decide (side ∈ ss)) eqn:Hin.
      * apply bool_decide_eq_true_1 in Hin.
        by rewrite bool_decide_eq_true_2 by (apply elem_of_cons; auto).
      * apply bool_decide_eq_false_1 in Hin.
        by rewrite bool_decide_eq_false_2 by (rewrite elem_of_cons; tauto).
Qed.

Lemma bake_cube_sides_uvs config e s bake_tangents (ss : list nat)
    (m : Model.t) (side : nat) :
  let m' := foldl (bake_cube_side_uvs config e s bake_tangents) m ss in
  Model.side_uvs m' side =
    (if bool_decide (side ∈ ss)
     then map (fun i => Vector2f.scale
                (Vector2f.add (_cube_tiles config side) (cube_uv e i)) s)
              (seq 0 4)
     else Model.side_uvs m side) /\
  Model.side_positions m' = Model.side_positions m /\
  Model.side_indices m' = Model.side_indices m /\
  Model.positions m' = Model.positions m /\
  Model.normals m' = Model.normals m /\
  Model.uvs m' = Model.uvs m /\
  Model.indices m' = Model.indices m /\
  Model.tangents m' = Model.tangents m.
Proof.
  revert m. induction ss as [|s0 ss IH]; intros m; [done|].
  cbn [foldl]. cbv zeta in IH |- *.
  destruct (IH (bake_cube_side_uvs config e s bake_tangents m s0))
    as (-> & -> & -> & -> & -> & -> & -> & ->).
  unfold bake_cube_side_uvs. rewrite fill_resize_4.
  repeat split; try (by destruct bake_tangents).
  destruct (decide (side = s0)) as [->|Hne].
  - rewrite (bool_decide_eq_true_2 (s0 ∈ s0 :: ss)) by (apply elem_of_cons; auto).
    destruct (bool_decide (s0 ∈ ss)); [done|].
    destruct bake_tangents; cbn; unfold upd; by rewrite decide_True.
  - destruct (bool_decide (side ∈ ss)) eqn:Hin.
    + apply bool_decide_eq_true_1 in Hin.
      by rewrite bool_decide_eq_true_2 by (apply elem_of_cons; auto).
    + apply bool_decide_eq_false_1 in Hin.
      rewrite bool_decide_eq_false_2 by (rewrite elem_of_cons; tauto).
      destruct bake_tangents; cbn; unfold upd; by rewrite decide_False.
Qed.

Lemma cube_side_position_table side i :
  corners_on_unit_cube -> (side < SIDE_COUNT)%nat -> (i < 4)%nat ->
  cube_side_position side i = g_corner_position (g_side_corners side i).
Proof.
  intros Htab Hs Hi. unfold cube_side_position.
  destruct (flt f_lit_0_9 _) eqn:Hy; [|reflexivity].
  apply (Htab side i Hs Hi) in Hy.
  destruct (g_corner_position (g_side_corners side i)) as [px py pz].
  cbn in *. by subst.
Qed.

(** C3.  For an atlas size n > 0 (converted to a float of the same sign)
    the cube baker completes; every one of
    the six sides has exactly the 4 positions of its corners in the corner
    table, the 6 indices of the table of quad triangles, and the 4 UVs
    (tile + corner UV) * (1 / n), the corner UVs being (e, 1-e), (1-e, 1-e),
    (1-e, e), (e, e) with e = 0.001; the record is marked non-empty.  For
    n <= 0 the baker crashes. *)
Theorem bake_cube_geometry_spec (config : VoxelBlockyModel.t)
    (baked_data : BakedData.t) (n : Z) (bake_tangents : bool)
    (Htable : corners_on_unit_cube) (Hconv : atlas_size_converted n) :
  (0 < n ->
   exists r, bake_cube_geometry config baked_data n bake_tangents = Done r /\
     BakedData.empty r = false /\
     forall side, (side < SIDE_COUNT)%nat ->
       let e := f_lit_0_001 in
       let s := fdiv f_one (f_of_int n) in
       let tile := _cube_tiles config side in
       Model.side_positions (BakedData.model r) side =
         [g_corner_position (g_side_corners side 0);
          g_corner_position (g_side_corners side 1);
          g_corner_position (g_side_corners side 2);
          g_corner_position (g_side_corners side 3)] /\
       Model.side_indices (BakedData.model r) side =
         [g_side_quad_triangles side 0; g_side_quad_triangles side 1;
          g_side_quad_triangles side 2; g_side_quad_triangles side 3;
          g_side_quad_triangles side 4; g_side_quad_triangles side 5] /\
       Model.side_uvs (BakedData.model r) side =
         [Vector2f.scale
            (Vector2f.add tile (Vector2f.mk e (fsub f_one e))) s;
          Vector2f.scale
            (Vector2f.add tile (Vector2f.mk (fsub f_one e) (fsub f_one e))) s;
          Vector2f.scale
            (Vector2f.add tile (Vector2f.mk (fsub f_one e) e)) s;
          Vector2f.scale (Vector2f.add tile (Vector2f.mk e e)) s]) /\
  (n <= 0 -> bake_cube_geometry config baked_data n bake_tangents = Crashed).
Proof.
  split.
  - intros Hn. unfold bake_cube_geometry. rewrite Hconv.
    destruct (n <=? 0) eqn:Hle; [lia|].
    eexists. split; [reflexivity|]. split; [reflexivity|].
    intros side Hside. cbv zeta.
    cbn [BakedData.model with_baked_empty with_model].
    assert (Hin : side ∈ seq 0 SIDE_COUNT) by (apply elem_of_seq; lia).
    match goal with
    | |- context [foldl (bake_cube_side_uvs ?c ?e ?s ?b) ?m ?ss] =>
        destruct (bake_cube_sides_uvs c e s b ss m side)
          as (-> & -> & -> & _)
    end.
    destruct (bake_cube_sides_geometry (seq 0 SIDE_COUNT)
                (BakedData.model baked_data) side) as (-> & -> & _).
    rewrite !bool_decide_eq_true_2 by exact Hin.
    cbn [seq map].
    rewrite !cube_side_position_table by (assumption || lia).
    done.
  - intros Hn. unfold bake_cube_geometry. rewrite Hconv.
    destruct (n <=? 0) eqn:Hle; [reflexivity|lia].
Qed.

End Cube_baker_properties.

(** ** The mesh baker: welding *)

Lemma upd_same {A} (f : nat -> A) (side : nat) (v : A) :
  upd f side v side = v.
Proof. unfold upd. by rewrite decide_True. Qed.

Lemma upd_other {A} (f : nat -> A) (side s : nat) (v : A) :
  s <> side -> upd f side v s = f s.
Proof. intros. unfold upd. by rewrite decide_False. Qed.

Lemma obind_inv {A B} (m : outcome A) (k : A -> outcome B) (b : B) :
  m ≫= k = Done b -> exists a, m = Done a /\ k a = Done b.
Proof. destruct m as [a|]; [|done]. intros H. by exists a. Qed.

Lemma Done_inj {A} (a b : A) : Done a = Done b -> a = b.
Proof. by intros [= ->]. Qed.

Lemma ofmap_inv {A B} (f : A -> B) (m : outcome A) (b : B) :
  f <$> m = Done b -> exists a, m = Done a /\ b = f a.
Proof. destruct m as [a|]; [|done]. intros [= <-]. by exists a. Qed.

Section Welding_properties.
Context `{FO : FloatOps} {EN : Engine} {CT : CubeTables}.
Implicit Types (F R : list Corner) (r : Corner) (k : Z).

Lemma index_of_lt k F n : index_of k F = Some n -> (n < length F)%nat.
Proof.
  revert n. induction F as [|r F IH]; intros n; cbn; [done|].
  destruct (decide (c_src r = k)).
  - intros [= <-]. lia.
  - destruct (index_of k F) as [n'|]; cbn; [|done].
    intros [= <-]. specialize (IH n' eq_refl). lia.
Qed.

Lemma index_of_lookup k F n :
  index_of k F = Some n -> exists r, F !! n = Some r /\ c_src r = k.
Proof.
  revert n. induction F as [|r F IH]; intros n; cbn; [done|].
  destruct (decide (c_src r = k)).
  - intros [= <-]. by exists r.
  - destruct (index_of k F) as [n'|]; cbn; [|done].
    intros [= <-]. by apply IH.
Qed.

Lemma index_of_app k F G :
  index_of k (F ++ G) =
  match index_of k F with
  | Some n => Some n
  | None => (fun n => (length F + n)%nat) <$> index_of k G
  end.
Proof.
  induction F as [|r F IH]; cbn.
  - by destruct (index_of k G).
  - destruct (decide (c_src r = k)); [done|].
    rewrite IH. destruct (index_of k F); cbn; [done|].
    by destruct (index_of k G).
Qed.

Lemma firsts_snoc R r : firsts (R ++ [r]) = first_ref (firsts R) r.
Proof. unfold firsts. by rewrite foldl_snoc. Qed.

Lemma index_of_first_ref_old k F r n :
  index_of k F = Some n -> index_of k (first_ref F r) = Some n.
Proof.
  intros Hk. unfold first_ref. destruct (index_of (c_src r) F); [done|].
  by rewrite index_of_app, Hk.
Qed.

Lemma index_of_first_ref_self F r :
  index_of (c_src r) (first_ref F r) =
  match index_of (c_src r) F with
  | Some n => Some n
  | None => Some (length F)
  end.
Proof.
  unfold first_ref. destruct (index_of (c_src r) F) eqn:Hr; [done|].
  rewrite index_of_app, Hr. cbn. rewrite decide_True by done. cbn.
  f_equal. lia.
Qed.

Lemma index_of_first_ref_other k F r :
  k <> c_src r -> index_of k (first_ref F r) = index_of k F.
Proof.
  intros Hne. unfold first_ref. destruct (index_of (c_src r) F); [done|].
  rewrite index_of_app. destruct (index_of k F); [done|].
  cbn. by rewrite decide_False.
Qed.

Lemma fmap_Some_weaken {A B} (f g : A -> option B) (l : list B)
    (R : list A) :
  Some <$> l = f <$> R ->
  (forall a x, a ∈ R -> f a = Some x -> g a = Some x) ->
  Some <$> l = g <$> R.
Proof.
  revert l. induction R as [|a R IH]; intros [|x l]; cbn; try done.
  intros [= Hx Hl] Hfg. f_equal.
  - symmetry. apply Hfg; [apply elem_of_cons; auto|done].
  - apply IH; [done|]. intros a' x' Hin. apply Hfg. apply elem_of_cons; auto.
Qed.

Lemma welded_add src bake_tangents b R v tangent i s p v' next' :
  welded src bake_tangents b R v ->
  view_add src bake_tangents tangent i b
    (v, Z.of_nat (length (v_positions v))) (s, p) = Done (v', next') ->
  welded src bake_tangents b (R ++ [mk_corner s p i tangent]) v' /\
  next' = Z.of_nat (length (v_positions v')).
Proof.
  intros (Hi & Hp & Hn & Hu & (tl & Ht & Htl) & Ha).
  unfold view_add. rewrite Ha.
  set (r := mk_corner s p i tangent).
  unfold welded. rewrite firsts_snoc.
  pose proof (index_of_first_ref_self (firsts R) r) as Hself.
  change (c_src r) with s in Hself.
  destruct (index_of s (firsts R)) as [n|] eqn:Hs; cbn.
  - intros [= <- <-]. cbn. split; [|done].
    assert (HF : first_ref (firsts R) r = firsts R).
    { unfold first_ref. change (c_src r) with s. by rewrite Hs. }
    rewrite HF. repeat split; try done.
    + rewrite !fmap_app, Hi. cbn. by rewrite Hs.
    + by exists tl.
  - assert (HF : first_ref (firsts R) r = firsts R ++ [r]).
    { unfold first_ref. change (c_src r) with s. by rewrite Hs. }
    assert (Hlen : length (v_positions v) = length (firsts R)).
    { by rewrite Hp, length_fmap. }
    intros Hrun.
    assert (exists ns uv ts,
      match b with
      | None => exists n, packed_get (normals src) s = Done n /\
                          ns = v_normals v ++ [to_vec3f n]
      | Some _ => ns = v_normals v
      end /\
      packed_get (uvs src) s = Done uv /\
      vertex_tangent src bake_tangents tangent i = Done ts /\
      v' = mk_view (v_indices v ++ [Z.of_nat (length (v_positions v))])
             (v_positions v ++ [p]) ns (v_uvs v ++ [to_vec2f uv])
             (v_tangents v ++ ts)
             (<[s := Z.of_nat (length (v_positions v))]> (v_added v)) /\
      next' = Z.of_nat (length (v_positions v)) + 1) as
      (ns & uv & ts & Hns & Huv & Hts & -> & ->).
    { destruct b as [side|].
      - cbn in Hrun. destruct (packed_get (uvs src) s) as [uv|]; [|done].
        cbn in Hrun.
        destruct (vertex_tangent src bake_tangents tangent i) as [ts|];
          [|done].
        cbn in Hrun. injection Hrun as <- <-.
        by exists (v_normals v), uv, ts.
      - cbn in Hrun.
        destruct (packed_get (normals src) s) as [n|]; [|done].
        cbn in Hrun. destruct (packed_get (uvs src) s) as [uv|]; [|done].
        cbn in Hrun.
        destruct (vertex_tangent src bake_tangents tangent i) as [ts|];
          [|done].
        cbn in Hrun. injection Hrun as <- <-.
        exists (v_normals v ++ [to_vec3f n]), uv, ts.
        repeat split. by exists n. }
    cbn. rewrite HF. split.
    2:{ rewrite length_app. cbn. lia. }
    repeat split.
    + rewrite !fmap_app. cbn. rewrite <- HF, Hself, HF, Hlen. f_equal.
      eapply fmap_Some_weaken; [exact Hi|].
      intros a x _ Hax. cbn in Hax |- *.
      destruct (index_of (c_src a) (firsts R)) as [na|] eqn:Hna; [|done].
      by rewrite index_of_app, Hna.
    + by rewrite fmap_app, Hp.
    + destruct b as [side|].
      * by subst ns.
      * destruct Hns as (n & Hn' & ->).
        rewrite !fmap_app, Hn. cbn. change (c_src r) with s.
        by rewrite Hn'.
    + rewrite !fmap_app, Hu. cbn. change (c_src r) with s. by rewrite Huv.
    + exists (tl ++ [ts]). split.
      * rewrite concat_app, Ht. cbn. by rewrite app_nil_r.
      * rewrite !fmap_app, Htl. cbn. by rewrite Hts.
    + intros k. destruct (decide (k = s)) as [->|Hne].
      * rewrite lookup_insert_eq. rewrite <- HF, Hself. cbn.
        by rewrite Hlen.
      * rewrite lookup_insert_ne by done. rewrite Ha.
        rewrite <- HF. by rewrite index_of_first_ref_other.
Qed.

Lemma welded_fold src bake_tangents b tangent i vs R v v' next' :
  welded src bake_tangents b R v ->
  ofold (view_add src bake_tangents tangent i b) vs
    (v, Z.of_nat (length (v_positions v))) = Done (v', next') ->
  welded src bake_tangents b
    (R ++ ((fun p => mk_corner p.1 p.2 i tangent) <$> vs)) v'.
Proof.
  revert R v. induction vs as [|[s p] vs IH]; intros R v Hw; cbn [ofold].
  - intros [= <- <-]. cbn. rewrite app_nil_r. exact Hw.
  - destruct (view_add src bake_tangents tangent i b
                (v, Z.of_nat (length (v_positions v))) (s, p))
      as [[v1 next1]|] eqn:Hstep; cbn; [|done].
    destruct (welded_add _ _ _ _ _ _ _ _ _ _ _ Hw Hstep) as [Hw1 ->].
    intros Hrun. rewrite cons_middle, app_assoc. by eapply IH.
Qed.

(** The code of the two loops on [j] acts on its bucket as [view_add] and
    leaves the other buckets as they are. *)
Lemma add_side_vertex_view src bake_tangents tangent i side l next p l'
    next' :
  add_side_vertex src bake_tangents tangent i side (l, next) p
    = Done (l', next') ->
  view_add src bake_tangents tangent i (Some side) (side_view side l, next) p
    = Done (side_view side l', next') /\
  (forall b, b <> Some side -> bucket_view b l' = bucket_view b l).
Proof.
  destruct p as [s pos]. unfold add_side_vertex, view_add.
  cbn [v_added side_view].
  destruct (added_side_indices l side !! s) as [d|]; cbn.
  - intros [= <- <-]. split.
    + unfold side_view. cbn. by rewrite !upd_same.
    + intros [s'|] Hb; [|done]. unfold bucket_view, side_view. cbn.
      rewrite !upd_other by congruence. done.
  - destruct (packed_get (uvs src) s) as [uv|]; [|done]. cbn.
    destruct (vertex_tangent src bake_tangents tangent i) as [ts|]; [|done].
    cbn. intros [= <- <-]. split.
    + unfold side_view. cbn. by rewrite !upd_same.
    + intros [s'|] Hb; [|done]. unfold bucket_view, side_view. cbn.
      rewrite !upd_other by congruence. done.
Qed.

Lemma add_regular_vertex_view src bake_tangents tangent i l next p l' next' :
  add_regular_vertex src bake_tangents tangent i (l, next) p
    = Done (l', next') ->
  view_add src bake_tangents tangent i None (regular_view l, next) p
    = Done (regular_view l', next') /\
  (forall b, b <> None -> bucket_view b l' = bucket_view b l).
Proof.
  destruct p as [s pos]. unfold add_regular_vertex, view_add.
  cbn [v_added regular_view].
  destruct (added_regular_indices l !! s) as [d|]; cbn.
  - intros [= <- <-]. split; [done|]. by intros [s'|] Hb.
  - destruct (packed_get (normals src) s) as [n|]; [|done]. cbn.
    destruct (packed_get (uvs src) s) as [uv|]; [|done]. cbn.
    destruct (vertex_tangent src bake_tangents tangent i) as [ts|]; [|done].
    cbn. intros [= <- <-]. split; [done|]. by intros [s'|] Hb.
Qed.

Lemma add_vertices_view src bake_tangents tangent i b vs l next l' next' :
  ofold (add_vertex src bake_tangents tangent i b) vs (l, next)
    = Done (l', next') ->
  ofold (view_add src bake_tangents tangent i b) vs (bucket_view b l, next)
    = Done (bucket_view b l', next') /\
  (forall b', b' <> b -> bucket_view b' l' = bucket_view b' l).
Proof.
  revert l next. induction vs as [|p vs IH]; intros l next; cbn [ofold].
  - by intros [= <- <-].
  - destruct (add_vertex src bake_tangents tangent i b (l, next) p)
      as [[l1 next1]|] eqn:Hstep; [|done].
    cbn [mbind outcome_bind]. intros Hrun.
    destruct (IH _ _ Hrun) as [Hv Hframe].
    assert (view_add src bake_tangents tangent i b (bucket_view b l, next) p
              = Done (bucket_view b l1, next1) /\
            (forall b', b' <> b -> bucket_view b' l1 = bucket_view b' l))
      as [Hv1 Hframe1].
    { destruct b as [side|]; cbn in Hstep.
      - by apply add_side_vertex_view.
      - by apply add_regular_vertex_view. }
    rewrite Hv1. cbn [mbind outcome_bind]. split; [done|].
    intros b' Hb'. by rewrite Hframe, Hframe1.
Qed.

Lemma bake_triangle_add_vertices src bake_tangents l i :
  bake_triangle src bake_tangents l i =
  tri ← read_triangle src bake_tangents i;
  let b := triangle_side tri in
  fst <$> ofold (add_vertex src bake_tangents (tri_tangent tri) i b)
            (triangle_vertices tri)
            (l, Z.of_nat (length (v_positions (bucket_view b l)))).
Proof.
  unfold bake_triangle. destruct (read_triangle src bake_tangents i); [|done].
  cbn. by destruct (triangle_side a).
Qed.

Lemma read_triangle_i src bake_tangents i tri :
  read_triangle src bake_tangents i = Done tri -> tri_i tri = i.
Proof.
  unfold read_triangle. intros H.
  do 7 (apply obind_inv in H as (? & _ & H)).
  by injection H as <-.
Qed.

Lemma corners_snoc b ts tri :
  corners b (ts ++ [tri]) =
  corners b ts ++
    (if decide (triangle_side tri = b) then triangle_corners tri else []).
Proof.
  unfold corners. rewrite bind_app. cbn. by rewrite app_nil_r.
Qed.

Lemma bake_triangle_baked src bake_tangents ts l i l' :
  baked_from src bake_tangents ts l ->
  bake_triangle src bake_tangents l i = Done l' ->
  exists tri, read_triangle src bake_tangents i = Done tri /\
              baked_from src bake_tangents (ts ++ [tri]) l'.
Proof.
  intros Hinv. rewrite bake_triangle_add_vertices.
  destruct (read_triangle src bake_tangents i) as [tri|] eqn:Hread; [|done].
  cbn. intros Hrun. exists tri. split; [done|].
  apply read_triangle_i in Hread.
  destruct (ofold _ _ _) as [[l1 next1]|] eqn:Hfold; [|done].
  cbn in Hrun. injection Hrun as ->.
  apply add_vertices_view in Hfold. destruct Hfold as [Hv Hframe].
  intros b. rewrite corners_snoc.
  destruct (decide (triangle_side tri = b)) as [<-|Hne].
  - unfold triangle_corners. rewrite Hread.
    eapply welded_fold; [apply Hinv|exact Hv].
  - rewrite app_nil_r, Hframe by done. apply Hinv.
Qed.

Lemma bake_triangles_baked src bake_tangents starts ts0 l l' :
  baked_from src bake_tangents ts0 l ->
  ofold (bake_triangle src bake_tangents) starts l = Done l' ->
  exists ts, triangles_read src bake_tangents starts ts /\
             baked_from src bake_tangents (ts0 ++ ts) l'.
Proof.
  revert ts0 l. induction starts as [|i starts IH]; intros ts0 l Hinv;
    cbn [ofold].
  - intros [= <-]. exists []. split; [constructor|]. by rewrite app_nil_r.
  - destruct (bake_triangle src bake_tangents l i) as [l1|] eqn:Hstep;
      [|done].
    cbn. intros Hrun.
    destruct (bake_triangle_baked _ _ _ _ _ _ Hinv Hstep) as (tri & Hr & H1).
    destruct (IH _ _ H1 Hrun) as (ts & Hts & H2).
    exists (tri :: ts). split; [by constructor|].
    by rewrite cons_middle, app_assoc.
Qed.

End Welding_properties.

(** ** The mesh baker: classification of triangles *)

Lemma testbit_b2z (b : bool) (n : Z) :
  Z.testbit (Z.b2z b) n = b && (n =? 0).
Proof.
  destruct b; cbn.
  - destruct n; reflexivity.
  - apply Z.bits_0.
Qed.

Lemma testbit_255 (n : Z) : 0 <= n -> Z.testbit 255 n = (n <? 8).
Proof.
  intros Hn. change 255 with (Z.ones 8).
  destruct (n <? 8) eqn:Hlt.
  - apply Z.ones_spec_low. lia.
  - apply Z.ones_spec_high. lia.
Qed.

Lemma testbit_or_shifted (mask : Z) (b : bool) (side : nat) (n : nat) :
  Z.testbit (or_shifted mask b side) (Z.of_nat n) =
  (Z.testbit mask (Z.of_nat n) || b && bool_decide (n = side))
  && (Z.of_nat n <? 8).
Proof.
  unfold or_shifted.
  rewrite Z.land_spec, Z.lor_spec, testbit_255 by lia.
  rewrite Z.shiftl_spec by lia. rewrite testbit_b2z.
  do 3 f_equal.
  destruct (decide (n = side)) as [->|Hne].
  - rewrite bool_decide_eq_true_2 by done. apply Z.eqb_eq. lia.
  - rewrite bool_decide_eq_false_2 by done. apply Z.eqb_neq. lia.
Qed.

Lemma testbit_small (c n : Z) : 0 <= c < 64 -> 6 <= n -> Z.testbit c n = false.
Proof.
  intros Hc Hn. destruct (decide (c = 0)) as [->|Hne]; [apply Z.bits_0|].
  apply Z.bits_above_log2; [lia|].
  assert (Z.log2 c < 6); [|lia].
  apply Z.log2_lt_pow2; [lia|]. change (2 ^ 6) with 64. lia.
Qed.

Lemma mask_of_bits (m : Z) (g : nat -> bool) :
  (forall n : nat, Z.testbit m (Z.of_nat n) = g n) ->
  (forall n, (6 <= n)%nat -> g n = false) ->
  m = Z.b2z (g 0%nat) + 2 * Z.b2z (g 1%nat) + 4 * Z.b2z (g 2%nat)
      + 8 * Z.b2z (g 3%nat) + 16 * Z.b2z (g 4%nat) + 32 * Z.b2z (g 5%nat).
Proof.
  intros Hbits Hhigh. apply Z.bits_inj'. intros n Hn.
  rewrite <- (Z2Nat.id n) by lia. rewrite Hbits.
  destruct (Z.to_nat n) as [|[|[|[|[|[|k]]]]]].
  1-6: destruct (g 0%nat), (g 1%nat), (g 2%nat), (g 3%nat), (g 4%nat),
         (g 5%nat); reflexivity.
  rewrite Hhigh by lia. symmetry. apply testbit_small; [|lia].
  destruct (g 0%nat), (g 1%nat), (g 2%nat), (g 3%nat), (g 4%nat),
    (g 5%nat); cbn; lia.
Qed.

Lemma mask_classify (m : Z) (g : nat -> bool) :
  (forall n : nat, Z.testbit m (Z.of_nat n) = g n) ->
  (forall n, (6 <= n)%nat -> g n = false) ->
  (if m =? 0 then None
   else find (fun side => m =? Z.shiftl 1 (Z.of_nat side)) (seq 0 6))
  = match List.filter g (seq 0 6) with
    | [side] => Some side
    | _ => None
    end.
Proof.
  intros Hbits Hhigh. rewrite (mask_of_bits m g Hbits Hhigh).
  cbn [List.filter seq].
  destruct (g 0%nat), (g 1%nat), (g 2%nat), (g 3%nat), (g 4%nat),
    (g 5%nat); reflexivity.
Qed.

Section Classification.
Context `{FO : FloatOps} {EN : Engine} {CT : CubeTables}.

Lemma on_face_lt side pos :
  Forall (fun side => (side < SIDE_COUNT)%nat) side_constants ->
  on_face side pos = true -> (side < SIDE_COUNT)%nat.
Proof.
  intros Hlt. unfold side_constants in Hlt.
  repeat (apply Forall_cons in Hlt as [? Hlt]).
  unfold on_face. intros Hon.
  rewrite !orb_true_iff, !andb_true_iff, !bool_decide_eq_true in Hon.
  destruct Hon as [[[[[[-> _]|[-> _]]|[-> _]]|[-> _]]|[-> _]]|[-> _]];
    assumption.
Qed.

Lemma get_sides_testbit (pos : Vector3f.t) (n : nat) :
  Forall (fun side => (side < SIDE_COUNT)%nat) side_constants ->
  Z.testbit (get_sides pos) (Z.of_nat n) = on_face n pos.
Proof.
  intros Hlt. pose proof (on_face_lt n pos Hlt) as Hn.
  unfold get_sides. rewrite !testbit_or_shifted. rewrite Z.bits_0.
  cbn [orb]. unfold on_face in *.
  destruct (Z.of_nat n <? 8) eqn:H8.
  - rewrite !andb_true_r.
    repeat match goal with
    | |- context [?b && bool_decide (n = ?s)] =>
        rewrite (andb_comm b (bool_decide (n = s)))
    end.
    reflexivity.
  - rewrite !andb_false_r.
    match goal with |- false = ?t => destruct t eqn:Ht end; [|done].
    specialize (Hn eq_refl). unfold SIDE_COUNT in Hn.
    apply Z.ltb_ge in H8. lia.
Qed.

Lemma triangle_mask_testbit (a b c : Vector3f.t) (n : nat) :
  Forall (fun side => (side < SIDE_COUNT)%nat) side_constants ->
  Z.testbit (triangle_mask a b c) (Z.of_nat n)
  = on_face n a && on_face n b && on_face n c.
Proof.
  intros Hlt. unfold triangle_mask.
  rewrite !Z.land_spec, !get_sides_testbit, testbit_255 by (done || lia).
  destruct (Z.of_nat n <? 8) eqn:H8; [by rewrite andb_true_r|].
  rewrite andb_false_r.
  destruct (on_face n a) eqn:Ha; [|done].
  apply (on_face_lt _ _ Hlt) in Ha. unfold SIDE_COUNT in Ha.
  apply Z.ltb_ge in H8. lia.
Qed.

Lemma get_triangle_side_flush_face (a b c : Vector3f.t) :
  Forall (fun side => (side < SIDE_COUNT)%nat) side_constants ->
  get_triangle_side a b c = flush_face a b c.
Proof.
  intros Hlt. unfold get_triangle_side, flush_face, common_faces.
  apply mask_classify.
  - intros n. by apply triangle_mask_testbit.
  - intros n Hn.
    destruct (on_face n a) eqn:Ha; [|done].
    apply (on_face_lt _ _ Hlt) in Ha. unfold SIDE_COUNT in Ha. lia.
Qed.

End Classification.

(** ** The mesh baker: what welding gives *)

Section Welded_buckets.
Context `{FO : FloatOps} {EN : Engine} {CT : CubeTables}.
Implicit Types (F R : list Corner) (r : Corner) (k : Z).

Lemma index_of_None k F : index_of k F = None <-> k ∉ c_src <$> F.
Proof.
  induction F as [|r F IH]; cbn.
  - split; [intros _; apply not_elem_of_nil|done].
  - rewrite not_elem_of_cons. destruct (decide (c_src r = k)) as [<-|Hne].
    + split; [done|]. by intros [? _].
    + destruct (index_of k F); cbn.
      * split; [done|]. intros [_ Hk]. by apply IH in Hk.
      * split; [|done]. intros _. split; [done|]. by apply IH.
Qed.

Lemma index_of_inj k1 k2 F n :
  index_of k1 F = Some n -> index_of k2 F = Some n -> k1 = k2.
Proof.
  intros (r1 & H1 & <-)%index_of_lookup (r2 & H2 & <-)%index_of_lookup.
  congruence.
Qed.

Lemma firsts_srcs R :
  NoDup (c_src <$> firsts R) /\
  forall k, k ∈ c_src <$> firsts R <-> k ∈ c_src <$> R.
Proof.
  induction R as [|r R [IHn IHe]] using rev_ind.
  - split; [constructor|done].
  - rewrite firsts_snoc. unfold first_ref.
    destruct (index_of (c_src r) (firsts R)) as [n|] eqn:Hr.
    + split; [done|]. intros k. rewrite fmap_app, elem_of_app, IHe.
      split; [auto|]. intros [Hk|Hk]; [done|].
      cbn in Hk. apply list_elem_of_singleton in Hk as ->.
      apply IHe. destruct (index_of_lookup _ _ _ Hr) as (r' & Hl & <-).
      apply list_elem_of_fmap. exists r'. split; [done|].
      by eapply list_elem_of_lookup_2.
    + apply index_of_None in Hr. split.
      * rewrite fmap_app. apply NoDup_app. repeat split; [done| |].
        -- intros k Hk Hk'. cbn in Hk'.
           apply list_elem_of_singleton in Hk' as ->. done.
        -- cbn. apply NoDup_singleton.
      * intros k. rewrite !fmap_app, !elem_of_app, IHe. done.
Qed.

Lemma index_of_firsts R r :
  r ∈ R -> is_Some (index_of (c_src r) (firsts R)).
Proof.
  intros Hr. destruct (index_of (c_src r) (firsts R)) eqn:Hi; [done|].
  apply index_of_None in Hi. exfalso. apply Hi.
  apply (firsts_srcs R). apply list_elem_of_fmap. by exists r.
Qed.

Lemma firsts_length R :
  length (firsts R) = size (list_to_set (c_src <$> R) : gset Z).
Proof.
  destruct (firsts_srcs R) as [Hn He].
  rewrite <- (length_fmap c_src), <- (size_list_to_set (C := gset Z)) by done.
  f_equal. apply set_eq. intros k. by rewrite !elem_of_list_to_set.
Qed.

Lemma welded_length_indices src bake_tangents b R v :
  welded src bake_tangents b R v -> length (v_indices v) = length R.
Proof.
  intros (Hi & _). apply (f_equal length) in Hi.
  by rewrite !length_fmap in Hi.
Qed.

Lemma welded_length_positions src bake_tangents b R v :
  welded src bake_tangents b R v ->
  length (v_positions v) = length (firsts R).
Proof. intros (_ & -> & _). by rewrite length_fmap. Qed.

Lemma welded_index src bake_tangents b R v j d :
  welded src bake_tangents b R v -> v_indices v !! j = Some d ->
  exists r n, R !! j = Some r /\ index_of (c_src r) (firsts R) = Some n /\
              d = Z.of_nat n /\ (n < length (v_positions v))%nat.
Proof.
  intros Hw Hj. pose proof (welded_length_positions _ _ _ _ _ Hw) as Hlen.
  destruct Hw as (Hi & _).
  assert (Hj' : (Some <$> v_indices v) !! j = Some (Some d)).
  { by rewrite list_lookup_fmap, Hj. }
  rewrite Hi, list_lookup_fmap in Hj'.
  destruct (R !! j) as [r|] eqn:Hr; [|done]. cbn in Hj'.
  destruct (index_of (c_src r) (firsts R)) as [n|] eqn:Hn; [|done].
  cbn in Hj'. injection Hj' as <-. exists r, n. repeat split; try done.
  rewrite Hlen. by eapply index_of_lt.
Qed.

Lemma welded_indices_in_range src bake_tangents b R v :
  welded src bake_tangents b R v ->
  Forall (fun d => 0 <= d < Z.of_nat (length (v_positions v))) (v_indices v).
Proof.
  intros Hw. apply Forall_lookup. intros j d Hj.
  destruct (welded_index _ _ _ _ _ _ _ Hw Hj) as (r & n & _ & _ & -> & Hn).
  lia.
Qed.

Lemma triangle_corners_length (tri : Triangle) :
  length (triangle_corners tri) = 3%nat.
Proof.
  unfold triangle_corners, triangle_vertices.
  by destruct (tri_indices tri) as [[? ?] ?],
              (tri_positions tri) as [[? ?] ?].
Qed.

Lemma corners_length (b : option nat) (ts : list Triangle) :
  length (corners b ts) =
  (3 * length (List.filter (fun tri => bool_decide (triangle_side tri = b)) ts))%nat.
Proof.
  induction ts as [|tri ts IH]; [done|].
  unfold corners in *. cbn [mbind list_bind]. rewrite length_app, IH.
  cbn [List.filter].
  destruct (decide (triangle_side tri = b)) as [Hb|Hb].
  - rewrite bool_decide_eq_true_2 by done.
    rewrite triangle_corners_length. cbn [length]. lia.
  - rewrite bool_decide_eq_false_2 by done. cbn. lia.
Qed.

Lemma welded_no_tangents src b R v :
  welded src false b R v -> v_tangents v = [].
Proof.
  intros (_ & _ & _ & _ & (tl & -> & Htl) & _).
  assert (Hall : Forall (fun t => t = []) tl).
  { apply Forall_lookup. intros j t Hj.
    assert (Hj' : (Done <$> tl) !! j = Some (Done t)).
    { by rewrite list_lookup_fmap, Hj. }
    rewrite Htl, list_lookup_fmap in Hj'.
    destruct (firsts R !! j); [|done]. cbn in Hj'. congruence. }
  clear Htl. induction tl as [|t tl IH]; [done|].
  apply Forall_cons in Hall as [-> Hall]. cbn. by apply IH.
Qed.

Lemma firsts_subseteq R r : r ∈ firsts R -> r ∈ R.
Proof.
  revert r. induction R as [|r0 R IH] using rev_ind; [done|].
  rewrite firsts_snoc. unfold first_ref. intros r.
  destruct (index_of _ _); rewrite ?elem_of_app; intros Hr; auto.
  destruct Hr; auto.
Qed.

Lemma concat_length_const {A B} (f : A -> outcome (list B)) (F : list A)
    (tl : list (list B)) (n : nat) :
  Done <$> tl = f <$> F ->
  (forall a t, a ∈ F -> f a = Done t -> length t = n) ->
  length (concat tl) = (n * length F)%nat.
Proof.
  revert tl. induction F as [|a F IH]; intros [|t tl]; try done.
  rewrite !fmap_cons. intros [= Ht Htl] Hn. cbn [concat length].
  rewrite length_app, (IH tl Htl).
  2:{ intros a' t' Ha'. apply Hn. apply elem_of_cons; auto. }
  rewrite (Hn a t); [lia|apply elem_of_cons; auto|done].
Qed.

Lemma welded_tangents_length src b R v :
  welded src true b R v ->
  (forall r, r ∈ R -> tangents src = [] -> length (c_tangent r) = 4%nat) ->
  length (v_tangents v) = (4 * length (v_positions v))%nat.
Proof.
  intros Hw Htan. rewrite (welded_length_positions _ _ _ _ _ Hw).
  destruct Hw as (_ & _ & _ & _ & (tl & -> & Htl) & _).
  eapply concat_length_const; [exact Htl|].
  intros r t Hr%firsts_subseteq Ht. cbv beta in Ht.
  unfold vertex_tangent in Ht.
  destruct (bool_decide (length (tangents src) = 0%nat)) eqn:He.
  - injection Ht as <-. apply Htan; [done|].
    apply bool_decide_eq_true_1 in He. by destruct (tangents src).
  - do 4 (apply obind_inv in Ht as (? & _ & Ht)).
    by injection Ht as <-.
Qed.

End Welded_buckets.

(** ** Baking a model *)

Section Bake_properties.
Context `{FO : FloatOps} {EN : Engine} {CT : CubeTables}.

Lemma bake_eq h this baked_data n bake_tangents :
  bake h this baked_data n bake_tangents =
  '(b, e) ←
    match _geometry_type this with
    | GEOMETRY_NONE => Done (cleared_record this, None)
    | GEOMETRY_CUBE =>
        (fun b => (b, None)) <$>
          bake_cube_geometry this (cleared_record this) n bake_tangents
    | GEOMETRY_CUSTOM_MESH =>
        bake_mesh_geometry h this (cleared_record this) bake_tangents
    | GEOMETRY_MAX => Done (cleared_record this, Some ERR_UNKNOWN_GEOMETRY)
    end;
  Done (with_empty (BakedData.empty b) this, b, e).
Proof. reflexivity. Qed.

Lemma bake_custom_mesh h this baked_data n bake_tangents arrays :
  has_mesh_arrays h this arrays ->
  let src := mesh_source arrays in
  let e := bool_decide (length (positions src) = 0%nat) in
  bake h this baked_data n bake_tangents =
  if negb (Z.rem (Z.of_nat (length (indices src))) 3 =? 0)
  then Done (with_empty true this, cleared_record this,
             Some ERR_NOT_TRIANGLES)
  else if bool_decide (length (normals src) = 0%nat)
  then Done (with_empty e this, with_baked_empty e (cleared_record this),
             Some ERR_NO_NORMALS)
  else
    l ← ofold (bake_triangle src bake_tangents)
          (triangle_starts (length (indices src)))
          (mk_locals empty_model (fun _ => ∅) ∅);
    Done (with_empty e this,
          with_model (model l) (with_baked_empty e (cleared_record this)),
          None).
Proof.
  intros (Hg & a & Ha & Hh) src e. rewrite bake_eq, Hg.
  unfold bake_mesh_geometry. rewrite Ha, Hh.
  cbn [Mesh.surface_get_arrays_0].
  change (packed (Mesh.ARRAY_INDEX arrays)) with (indices src).
  destruct (negb _); [reflexivity|].
  change (packed (Mesh.ARRAY_NORMAL arrays)) with (normals src).
  destruct (bool_decide (length (normals src) = 0%nat)); [reflexivity|].
  change (mk_source _ _ _ _ _) with src.
  cbn [BakedData.model with_baked_empty cleared_record].
  destruct (ofold _ _ _); reflexivity.
Qed.

Lemma baked_from_init src bake_tangents :
  baked_from src bake_tangents [] (mk_locals empty_model (fun _ => ∅) ∅).
Proof.
  intros b. unfold welded.
  destruct b as [side|]; cbn; (repeat split; try done);
    (by exists []) || (intros k; apply lookup_empty).
Qed.

(** A custom mesh that passes the two checks is baked by the loop on
    triangles, and its record is the welding of the triangles read. *)
Lemma bake_custom_mesh_welded h this baked_data n bake_tangents arrays this'
    r err :
  has_mesh_arrays h this arrays ->
  bake h this baked_data n bake_tangents = Done (this', r, err) ->
  let src := mesh_source arrays in
  err = None ->
  exists l ts,
    triangles_read src bake_tangents
      (triangle_starts (length (indices src))) ts /\
    baked_from src bake_tangents ts l /\
    BakedData.model r = model l.
Proof.
  intros Hm Hrun src ->. rewrite (bake_custom_mesh _ _ _ _ _ _ Hm) in Hrun.
  fold src in Hrun.
  destruct (negb _); [done|].
  destruct (bool_decide (length (normals src) = 0%nat)); [done|].
  apply obind_inv in Hrun as (l & Hl & Hrun). injection Hrun as _ <-.
  destruct (bake_triangles_baked _ _ _ [] _ _
              (baked_from_init src bake_tangents) Hl) as (ts & Hts & Hb).
  by exists l, ts.
Qed.

End Bake_properties.

(** ** The baked record *)

Section Record_properties.
Context `{FO : FloatOps} {EN : Engine} {CT : CubeTables}.

Lemma bucket_view_indices b l :
  v_indices (bucket_view b l) = bucket_indices b (model l).
Proof. by destruct b. Qed.

Lemma bucket_view_positions b l :
  v_positions (bucket_view b l) = bucket_positions b (model l).
Proof. by destruct b. Qed.

Lemma bucket_view_uvs b l :
  v_uvs (bucket_view b l) = bucket_uvs b (model l).
Proof. by destruct b. Qed.

Lemma bucket_view_tangents b l :
  v_tangents (bucket_view b l) = bucket_tangents b (model l).
Proof. by destruct b. Qed.

(** The buckets of a baked cube. *)
Lemma bake_cube_geometry_buckets this n bake_tangents r :
  bake_cube_geometry this (cleared_record this) n bake_tangents = Done r ->
  BakedData.empty r = false /\
  forall b,
    bucket_indices b (BakedData.model r) =
      match b with
      | Some side =>
          if bool_decide (side ∈ seq 0 SIDE_COUNT)
          then map (g_side_quad_triangles side) (seq 0 6) else []
      | None => []
      end /\
    bucket_positions b (BakedData.model r) =
      match b with
      | Some side =>
          if bool_decide (side ∈ seq 0 SIDE_COUNT)
          then map (cube_side_position side) (seq 0 4) else []
      | None => []
      end.
Proof.
  unfold bake_cube_geometry. destruct (fle _ _); [done|].
  intros Hr%Done_inj. subst r. split; [reflexivity|]. intros b.
  cbn [BakedData.model with_baked_empty with_model cleared_record].
  match goal with
  | |- context [foldl (bake_cube_side_uvs ?c ?e ?s ?bt) ?m ?ss] =>
      pose proof (fun side => bake_cube_sides_uvs c e s bt ss m side) as Hu
  end.
  pose proof (fun side => bake_cube_sides_geometry (seq 0 SIDE_COUNT)
                            empty_model side) as Hg.
  cbv zeta in Hu, Hg.
  destruct b as [side|]; cbn [bucket_indices bucket_positions].
  - destruct (Hu side) as (_ & -> & -> & _).
    destruct (Hg side) as (-> & -> & _).
    by destruct (bool_decide (side ∈ seq 0 SIDE_COUNT)).
  - destruct (Hu 0%nat) as (_ & _ & _ & -> & _ & _ & -> & _).
    destruct (Hg 0%nat) as (_ & _ & _ & _ & -> & _ & _ & -> & _).
    done.
Qed.

Lemma bake_custom_mesh_cases h this baked_data n bake_tangents this' r err :
  _geometry_type this = GEOMETRY_CUSTOM_MESH ->
  bake h this baked_data n bake_tangents = Done (this', r, err) ->
  BakedData.model r = empty_model \/
  exists arrays, has_mesh_arrays h this arrays /\ err = None.
Proof.
  intros Hg Hrun.
  destruct (_custom_mesh this) as [a|] eqn:Ha.
  2:{ left. rewrite bake_eq, Hg in Hrun. unfold bake_mesh_geometry in Hrun.
      rewrite Ha in Hrun. by injection Hrun as _ <- _. }
  destruct (h !! a) as [[[arrays|]]|] eqn:Hh.
  - assert (Hm : has_mesh_arrays h this arrays) by (split; eauto).
    rewrite (bake_custom_mesh _ _ _ _ _ _ Hm) in Hrun.
    destruct (negb _); [left; by injection Hrun as _ <- _|].
    destruct (bool_decide _); [left; by injection Hrun as _ <- _|].
    apply obind_inv in Hrun as (l & _ & Hrun). injection Hrun as _ _ <-.
    right. by exists arrays.
  - left. rewrite bake_eq, Hg in Hrun. unfold bake_mesh_geometry in Hrun.
    rewrite Ha, Hh in Hrun. by injection Hrun as _ <- _.
  - rewrite bake_eq, Hg in Hrun. unfold bake_mesh_geometry in Hrun.
    by rewrite Ha, Hh in Hrun.
Qed.

(** C4.  After a bake that completes, whatever the geometry, the mesh and
    the record passed in, in every bucket of the record (the bucket of each
    side and the interior bucket) every index is at least 0 and below the
    number of positions of that bucket, and the number of indices is a
    multiple of 3. *)
Theorem bake_indices_in_range h this baked_data n bake_tangents this' r err :
  quad_triangles_in_range ->
  bake h this baked_data n bake_tangents = Done (this', r, err) ->
  forall b,
    Forall (fun d =>
              0 <= d
              < Z.of_nat (length (bucket_positions b (BakedData.model r))))
      (bucket_indices b (BakedData.model r)) /\
    (length (bucket_indices b (BakedData.model r)) mod 3 = 0)%nat.
Proof.
  intros Hquad Hrun b.
  assert (Hempty : BakedData.model r = empty_model ->
    Forall (fun d =>
              0 <= d
              < Z.of_nat (length (bucket_positions b (BakedData.model r))))
      (bucket_indices b (BakedData.model r)) /\
    (length (bucket_indices b (BakedData.model r)) mod 3 = 0)%nat).
  { intros ->. by destruct b. }
  destruct (_geometry_type this) eqn:Hg.
  - apply Hempty. rewrite bake_eq, Hg in Hrun. by injection Hrun as _ <- _.
  - rewrite bake_eq, Hg in Hrun.
    apply obind_inv in Hrun as ([r0 e0] & Hcube & Hrun).
    injection Hrun as _ <- _.
    apply ofmap_inv in Hcube as (r1 & Hcube & [= -> _]).
    apply bake_cube_geometry_buckets in Hcube as [_ Hb].
    destruct (Hb b) as [-> ->]. destruct b as [side|]; [|done].
    destruct (bool_decide (side ∈ seq 0 SIDE_COUNT)) eqn:Hin; [|done].
    apply bool_decide_eq_true_1, elem_of_seq in Hin. split; [|done].
    cbn [seq map length]. repeat constructor; apply Hquad; lia.
  - destruct (bake_custom_mesh_cases _ _ _ _ _ _ _ _ Hg Hrun)
      as [He|(arrays & Hm & ->)]; [by apply Hempty|].
    destruct (bake_custom_mesh_welded _ _ _ _ _ _ _ _ _ Hm Hrun eq_refl)
      as (l & ts & _ & Hb & ->).
    specialize (Hb b).
    rewrite <- bucket_view_indices, <- bucket_view_positions. split.
    + by eapply welded_indices_in_range.
    + rewrite (welded_length_indices _ _ _ _ _ Hb), corners_length.
      by rewrite Nat.mul_comm, Nat.Div0.mod_mul.
  - apply Hempty. rewrite bake_eq, Hg in Hrun. by injection Hrun as _ <- _.
Qed.

End Record_properties.

(** ** Tangents in the record *)

Section Tangents.
Context `{FO : FloatOps} {EN : Engine} {CT : CubeTables}.

Lemma read_triangle_tangent src i tri :
  read_triangle src true i = Done tri ->
  tangents src = [] -> length (tri_tangent tri) = 4%nat.
Proof.
  unfold read_triangle. intros H Ht.
  apply obind_inv in H as (i0 & _ & H).
  apply obind_inv in H as (i1 & _ & H).
  apply obind_inv in H as (i2 & _ & H).
  apply obind_inv in H as (p0 & _ & H).
  apply obind_inv in H as (p1 & _ & H).
  apply obind_inv in H as (p2 & _ & H).
  apply obind_inv in H as (tangent & Htan & H).
  apply Done_inj in H. subst tri. cbn [tri_tangent].
  rewrite Ht in Htan. cbn [length] in Htan.
  rewrite bool_decide_eq_true_2 in Htan by done. cbn [andb] in Htan.
  unfold compute_tangent in Htan.
  do 4 (apply obind_inv in Htan as (? & _ & Htan)).
  apply Done_inj in Htan. by subst tangent.
Qed.

Lemma corners_tangent src starts ts b ref :
  triangles_read src true starts ts ->
  ref ∈ corners b ts ->
  tangents src = [] -> length (c_tangent ref) = 4%nat.
Proof.
  unfold triangles_read, corners. induction 1 as [|i tri starts ts Hr _ IH].
  - by intros ?%elem_of_nil.
  - cbn [mbind list_bind]. rewrite elem_of_app. intros [Hin|Hin]; [|auto].
    destruct (decide (triangle_side tri = b)); [|by apply elem_of_nil in Hin].
    unfold triangle_corners in Hin.
    apply list_elem_of_fmap in Hin as (v & -> & _). cbn [c_tangent].
    by eapply read_triangle_tangent.
Qed.

Lemma bake_cube_sides_uvs_tangents config e s (ss : list nat) (m : Model.t) :
  Model.side_tangents (foldl (bake_cube_side_uvs config e s false) m ss)
  = Model.side_tangents m.
Proof.
  revert m. induction ss as [|s0 ss IH]; intros m; [done|].
  cbn [foldl]. by rewrite IH.
Qed.

(** X12.  Without tangent baking no bucket of the record has tangents,
    whatever the mesh provides. *)
Lemma bake_without_tangents h this baked_data n this' r err :
  bake h this baked_data n false = Done (this', r, err) ->
  forall b, bucket_tangents b (BakedData.model r) = [].
Proof.
  intros Hrun b.
  assert (Hempty : BakedData.model r = empty_model ->
                   bucket_tangents b (BakedData.model r) = []).
  { intros ->. by destruct b. }
  destruct (_geometry_type this) eqn:Hg.
  - apply Hempty. rewrite bake_eq, Hg in Hrun. apply Done_inj in Hrun.
    by injection Hrun as _ <- _.
  - rewrite bake_eq, Hg in Hrun.
    apply obind_inv in Hrun as ([r0 e0] & Hcube & Hrun%Done_inj).
    injection Hrun as _ <- _.
    apply ofmap_inv in Hcube as (r1 & Hcube & [= -> _]).
    unfold bake_cube_geometry in Hcube. destruct (fle _ _); [done|].
    apply Done_inj in Hcube. subst r1.
    cbn [BakedData.model with_baked_empty with_model cleared_record].
    destruct b as [side|]; cbn [bucket_tangents].
    + rewrite bake_cube_sides_uvs_tangents.
      by destruct (bake_cube_sides_geometry (seq 0 SIDE_COUNT) empty_model
                     side) as (_ & _ & _ & -> & _).
    + match goal with
      | |- context [foldl (bake_cube_side_uvs ?c ?e ?s ?bt) ?m ?ss] =>
          destruct (bake_cube_sides_uvs c e s bt ss m 0%nat)
            as (_ & _ & _ & _ & _ & _ & _ & ->)
      end.
      by destruct (bake_cube_sides_geometry (seq 0 SIDE_COUNT) empty_model
                     0%nat) as (_ & _ & _ & _ & _ & _ & _ & _ & ->).
  - destruct (bake_custom_mesh_cases _ _ _ _ _ _ _ _ Hg Hrun)
      as [He|(arrays & Hm & ->)]; [by apply Hempty|].
    destruct (bake_custom_mesh_welded _ _ _ _ _ _ _ _ _ Hm Hrun eq_refl)
      as (l & ts & _ & Hb & ->).
    rewrite <- bucket_view_tangents. eapply welded_no_tangents. apply Hb.
  - apply Hempty. rewrite bake_eq, Hg in Hrun. apply Done_inj in Hrun.
    by injection Hrun as _ <- _.
Qed.

End Tangents.

(** ** The triangles the mesh baker reads *)

Section Mesh_triangles.
Context `{FO : FloatOps} {EN : Engine} {CT : CubeTables}.

Lemma packed_get_lookup {A} (l : list A) (i : Z) (v : A) :
  packed_get l i = Done v -> 0 <= i /\ l !! Z.to_nat i = Some v.
Proof.
  unfold packed_get. destruct (0 <=? i) eqn:H0; [|done].
  apply Z.leb_le in H0. destruct (l !! Z.to_nat i); [|done].
  by intros <-%Done_inj.
Qed.

Lemma packed_get_vertex_position (positions : list Vector3) (k : Z) p :
  to_vec3f <$> packed_get positions k = Done p ->
  vertex_position positions k = Some p.
Proof.
  intros (v & Hv & ->)%ofmap_inv.
  apply packed_get_lookup in Hv as [H0 Hv]. unfold vertex_position.
  apply Z.leb_le in H0. by rewrite H0, Hv.
Qed.

Lemma read_triangle_data src bake_tangents i tri :
  read_triangle src bake_tangents i = Done tri ->
  exists i0 i1 i2,
    (indices src !! Z.to_nat i = Some i0 /\
     indices src !! Z.to_nat (i + 1) = Some i1 /\
     indices src !! Z.to_nat (i + 2) = Some i2) /\
    0 <= i /\
    mesh_triangle (positions src) (i0, i1, i2) = Some (triangle_data tri).
Proof.
  unfold read_triangle. intros H.
  apply obind_inv in H as (i0 & Hi0 & H).
  apply obind_inv in H as (i1 & Hi1 & H).
  apply obind_inv in H as (i2 & Hi2 & H).
  apply obind_inv in H as (p0 & H0 & H).
  apply obind_inv in H as (p1 & H1 & H).
  apply obind_inv in H as (p2 & H2 & H).
  apply obind_inv in H as (tangent & _ & H).
  apply Done_inj in H. subst tri.
  apply packed_get_lookup in Hi0 as [Hi Hi0].
  apply packed_get_lookup in Hi1 as [_ Hi1].
  apply packed_get_lookup in Hi2 as [_ Hi2].
  exists i0, i1, i2. split; [done|]. split; [done|].
  unfold mesh_triangle, triangle_data. cbn [tri_indices tri_positions].
  by rewrite (packed_get_vertex_position _ _ _ H0),
    (packed_get_vertex_position _ _ _ H1),
    (packed_get_vertex_position _ _ _ H2).
Qed.

Lemma triangles_read_triples src bake_tangents (q : nat) :
  forall (pre l : list Z) (k : nat) (ts : list Triangle),
    indices src = pre ++ l ->
    length pre = (3 * k)%nat -> length l = (3 * q)%nat ->
    triangles_read src bake_tangents
      ((fun t => 3 * Z.of_nat t) <$> seq k q) ts ->
    Forall2 (fun ix d => mesh_triangle (positions src) ix = Some d)
      (index_triples l) (triangle_data <$> ts).
Proof.
  induction q as [|q IH]; intros pre l k ts Hsrc Hpre Hl Hts.
  - destruct l; [|done]. apply Forall2_nil_inv_l in Hts as ->. constructor.
  - destruct l as [|a [|b [|c l]]]; try (cbn in Hl; lia).
    cbn [seq fmap list_fmap] in Hts.
    apply Forall2_cons_inv_l in Hts as (tri & ts' & Hread & Hts & ->).
    cbn [index_triples fmap list_fmap]. constructor.
    + apply read_triangle_data in Hread
        as (i0 & i1 & i2 & (H0 & H1 & H2) & _ & Hd).
      rewrite Hsrc in H0, H1, H2.
      rewrite lookup_app_r in H0, H1, H2 by lia.
      replace (Z.to_nat (3 * Z.of_nat k) - length pre)%nat with 0%nat
        in H0 by lia.
      replace (Z.to_nat (3 * Z.of_nat k + 1) - length pre)%nat with 1%nat
        in H1 by lia.
      replace (Z.to_nat (3 * Z.of_nat k + 2) - length pre)%nat with 2%nat
        in H2 by lia.
      cbn in H0, H1, H2. congruence.
    + apply (IH (pre ++ [a; b; c]) l (S k)).
      * by rewrite Hsrc, <- app_assoc.
      * rewrite length_app. cbn. lia.
      * cbn in Hl. lia.
      * exact Hts.
Qed.

(** The triangles the loop reads are the triangles of the mesh. *)
Lemma triangles_read_mesh_triangles src bake_tangents ts :
  Z.rem (Z.of_nat (length (indices src))) 3 = 0 ->
  triangles_read src bake_tangents
    (triangle_starts (length (indices src))) ts ->
  mesh_triangles (indices src) (positions src)
  = Some (triangle_data <$> ts).
Proof.
  intros Hrem Hts. unfold mesh_triangles. apply mapM_Some_2.
  apply Z.rem_divide in Hrem as [q Hq]; [|lia].
  assert (Hn : length (indices src) = (3 * Z.to_nat q)%nat) by lia.
  apply (triangles_read_triples src bake_tangents (Z.to_nat q) []
           (indices src) 0%nat ts); [done|done|done|].
  unfold triangle_starts in Hts. rewrite Hn in Hts.
  replace ((3 * Z.to_nat q + 2) / 3)%nat with (Z.to_nat q) in Hts; [done|].
  rewrite Nat.mul_comm, Nat.div_add_l by lia.
  change (2 / 3)%nat with 0%nat. lia.
Qed.

Lemma bake_custom_mesh_triangles h this baked_data n bake_tangents arrays
    this' r :
  has_mesh_arrays h this arrays ->
  bake h this baked_data n bake_tangents = Done (this', r, None) ->
  let src := mesh_source arrays in
  exists l ts,
    mesh_triangles (packed (Mesh.ARRAY_INDEX arrays))
      (packed (Mesh.ARRAY_VERTEX arrays)) = Some (triangle_data <$> ts) /\
    triangles_read src bake_tangents
      (triangle_starts (length (indices src))) ts /\
    baked_from src bake_tangents ts l /\
    BakedData.model r = model l.
Proof.
  intros Hm Hrun src.
  assert (Hrem : Z.rem (Z.of_nat (length (indices src))) 3 = 0).
  { pose proof Hrun as Hrun'.
    rewrite (bake_custom_mesh _ _ _ _ _ _ Hm) in Hrun'. cbv zeta in Hrun'.
    fold src in Hrun'.
    destruct (Z.rem _ 3 =? 0) eqn:Hz; [by apply Z.eqb_eq in Hz|].
    cbn [negb] in Hrun'. by apply Done_inj in Hrun'. }
  destruct (bake_custom_mesh_welded _ _ _ _ _ _ _ _ _ Hm Hrun eq_refl)
    as (l & ts & Hts & Hb & Hr).
  exists l, ts. split; [|done].
  exact (triangles_read_mesh_triangles src bake_tangents ts Hrem Hts).
Qed.

End Mesh_triangles.

(** ** The mesh baker: classification and welding in the record *)

Section Claims_on_the_mesh_baker.
Context `{FO : FloatOps} {EN : Engine} {CT : CubeTables}.

Lemma on_face_constants (pos : Vector3f.t) :
  NoDup side_constants ->
  let tolerance := f_lit_0_001 in
  on_face SIDE_NEGATIVE_X pos
    = is_equal_approx (Vector3f.x pos) f_zero tolerance /\
  on_face SIDE_POSITIVE_X pos
    = is_equal_approx (Vector3f.x pos) f_one tolerance /\
  on_face SIDE_NEGATIVE_Y pos
    = is_equal_approx (Vector3f.y pos) f_zero tolerance /\
  on_face SIDE_POSITIVE_Y pos
    = is_equal_approx (Vector3f.y pos) f_one tolerance /\
  on_face SIDE_NEGATIVE_Z pos
    = is_equal_approx (Vector3f.z pos) f_zero tolerance /\
  on_face SIDE_POSITIVE_Z pos
    = is_equal_approx (Vector3f.z pos) f_one tolerance.
Proof.
  unfold side_constants. rewrite !NoDup_cons, !not_elem_of_cons.
  intros Hnd. unfold on_face. cbv zeta.
  repeat split; repeat case_bool_decide;
    try (exfalso; intuition congruence);
    cbn; by rewrite ?orb_false_r.
Qed.

Lemma on_face_other (n : nat) (pos : Vector3f.t) :
  n ∉ side_constants -> on_face n pos = false.
Proof.
  unfold side_constants. rewrite !not_elem_of_cons. intros Hn.
  unfold on_face. by rewrite !bool_decide_eq_false_2 by tauto.
Qed.

Lemma triangle_side_flush_face (tri : Triangle) :
  Forall (fun side => (side < SIDE_COUNT)%nat) side_constants ->
  triangle_side tri = triangle_flush_face tri.
Proof.
  intros Hlt. unfold triangle_side, triangle_flush_face.
  destruct (tri_positions tri) as [[p0 p1] p2].
  by apply get_triangle_side_flush_face.
Qed.

Lemma corners_flush_corners (b : option nat) (ts : list Triangle) :
  Forall (fun side => (side < SIDE_COUNT)%nat) side_constants ->
  corners b ts = flush_corners b ts.
Proof.
  intros Hlt. unfold corners, flush_corners.
  induction ts as [|tri ts IH]; [done|]. cbn [mbind list_bind].
  by rewrite IH, triangle_side_flush_face.
Qed.

Lemma read_triangle_corners src bake_tangents i tri ref :
  read_triangle src bake_tangents i = Done tri ->
  ref ∈ triangle_corners tri ->
  to_vec3f <$> packed_get (positions src) (c_src ref) = Done (c_pos ref).
Proof.
  unfold read_triangle. intros H.
  apply obind_inv in H as (i0 & _ & H).
  apply obind_inv in H as (i1 & _ & H).
  apply obind_inv in H as (i2 & _ & H).
  apply obind_inv in H as (p0 & H0 & H).
  apply obind_inv in H as (p1 & H1 & H).
  apply obind_inv in H as (p2 & H2 & H).
  apply obind_inv in H as (tangent & _ & H).
  apply Done_inj in H. subst tri.
  unfold triangle_corners, triangle_vertices. cbn.
  rewrite !elem_of_cons, elem_of_nil.
  intros [->|[->|[->|[]]]]; done.
Qed.

Lemma corners_positions src bake_tangents starts ts b ref :
  triangles_read src bake_tangents starts ts ->
  ref ∈ corners b ts ->
  to_vec3f <$> packed_get (positions src) (c_src ref) = Done (c_pos ref).
Proof.
  unfold triangles_read, corners. induction 1 as [|i tri starts ts Hr _ IH].
  - by intros ?%elem_of_nil.
  - cbn [mbind list_bind]. rewrite elem_of_app. intros [Hin|Hin]; [|auto].
    destruct (decide (triangle_side tri = b)); [|by apply elem_of_nil in Hin].
    by eapply read_triangle_corners.
Qed.

Lemma corners_elem (ts : list Triangle) (tri : Triangle) (ref : Corner) :
  tri ∈ ts -> ref ∈ triangle_corners tri ->
  ref ∈ corners (triangle_side tri) ts.
Proof.
  intros Htri Href. unfold corners. apply list_elem_of_bind.
  exists tri. split; [|done]. by rewrite decide_True.
Qed.

(** What welding gives for one reference of a bucket: the vertex of the
    first reference to its source index, at an index of the bucket, with
    its position, and in the interior bucket with its normal. *)
Lemma welded_reference src bake_tangents starts ts b l ref :
  triangles_read src bake_tangents starts ts ->
  welded src bake_tangents b (corners b ts) (bucket_view b l) ->
  ref ∈ corners b ts ->
  exists d j,
    index_of (c_src ref) (firsts (corners b ts)) = Some d /\
    bucket_indices b (model l) !! j = Some (Z.of_nat d) /\
    bucket_positions b (model l) !! d = Some (c_pos ref) /\
    (b = None ->
     exists nrm,
       Model.normals (model l) !! d = Some nrm /\
       to_vec3f <$> packed_get (normals src) (c_src ref) = Done nrm).
Proof.
  intros Hts Hw Href.
  destruct (index_of_firsts _ _ Href) as [d Hd].
  destruct (index_of_lookup _ _ _ Hd) as (first & Hf & Hsrc).
  apply list_elem_of_lookup in Href as Hj. destruct Hj as [j Hj].
  exists d, j. split; [exact Hd|].
  pose proof Hw as (Hi & Hp & Hn & _).
  assert (Hfirst : first ∈ corners b ts).
  { apply firsts_subseteq. by eapply list_elem_of_lookup_2. }
  assert (Hpos : c_pos first = c_pos ref).
  { pose proof (corners_positions _ _ _ _ _ _ Hts Hfirst) as H1.
    pose proof (corners_positions _ _ _ _ _ _ Hts Href) as H2.
    rewrite Hsrc, H2 in H1. by apply Done_inj in H1. }
  split; [|split].
  - rewrite <- bucket_view_indices.
    apply (f_equal (fun x => x !! j)) in Hi.
    rewrite !list_lookup_fmap, Hj in Hi. cbn in Hi. rewrite Hd in Hi.
    destruct (v_indices (bucket_view b l) !! j); [|done].
    cbn in Hi. congruence.
  - rewrite <- bucket_view_positions, Hp, list_lookup_fmap, Hf. cbn.
    by rewrite Hpos.
  - intros ->. cbn [bucket_view regular_view v_normals] in Hn.
    apply (f_equal (fun x => x !! d)) in Hn.
    rewrite !list_lookup_fmap, Hf in Hn. cbn in Hn.
    destruct (Model.normals (model l) !! d) as [nrm|]; [|done].
    exists nrm. split; [done|]. cbn in Hn. rewrite <- Hsrc. congruence.
Qed.

(** C1.  The mask of a vertex has, for each of the six faces, the bit of the
    face set exactly when the vertex is within the tolerance 0.001 of the
    plane of the face (x = 0, x = 1, y = 0, y = 1, z = 0, z = 1), and no
    other bit.  The mask of a triangle is the AND of the masks of its three
    vertices.  The triangle is on a side exactly when one face is
    common to the three vertices, that is when one bit is set in the
    combined mask; with no bit or several bits it is interior.  The
    triangles baked are the triangles of the mesh: its indices taken three
    by three, each with the position of the vertex it names.  In the
    record of a baked custom mesh, every bucket is the welding of the
    corners of the triangles classified to it: the bucket of a side holds
    the triangles flush on that side only, the interior bucket the interior
    triangles only.  Every corner of every triangle of the mesh has its
    vertex in the bucket of the triangle, at an index of that bucket, with
    its position, and in the interior bucket with the normal of its source
    vertex. *)
Theorem triangle_classification_spec :
  sides_enumerated ->
  (forall pos,
     let tolerance := f_lit_0_001 in
     Z.testbit (get_sides pos) (Z.of_nat SIDE_NEGATIVE_X)
       = is_equal_approx (Vector3f.x pos) f_zero tolerance /\
     Z.testbit (get_sides pos) (Z.of_nat SIDE_POSITIVE_X)
       = is_equal_approx (Vector3f.x pos) f_one tolerance /\
     Z.testbit (get_sides pos) (Z.of_nat SIDE_NEGATIVE_Y)
       = is_equal_approx (Vector3f.y pos) f_zero tolerance /\
     Z.testbit (get_sides pos) (Z.of_nat SIDE_POSITIVE_Y)
       = is_equal_approx (Vector3f.y pos) f_one tolerance /\
     Z.testbit (get_sides pos) (Z.of_nat SIDE_NEGATIVE_Z)
       = is_equal_approx (Vector3f.z pos) f_zero tolerance /\
     Z.testbit (get_sides pos) (Z.of_nat SIDE_POSITIVE_Z)
       = is_equal_approx (Vector3f.z pos) f_one tolerance /\
     forall n : nat, n ∉ side_constants ->
       Z.testbit (get_sides pos) (Z.of_nat n) = false) /\
  (forall a b c,
     (forall n : nat,
        Z.testbit (triangle_mask a b c) (Z.of_nat n)
        = Z.testbit (get_sides a) (Z.of_nat n)
          && Z.testbit (get_sides b) (Z.of_nat n)
          && Z.testbit (get_sides c) (Z.of_nat n)) /\
     get_triangle_side a b c = flush_face a b c /\
     (forall side,
        get_triangle_side a b c = Some side <->
        (side < SIDE_COUNT)%nat /\
        forall n : nat,
          Z.testbit (triangle_mask a b c) (Z.of_nat n)
          = bool_decide (n = side))) /\
  (forall h this baked_data n bake_tangents arrays this' r,
     has_mesh_arrays h this arrays ->
     bake h this baked_data n bake_tangents = Done (this', r, None) ->
     let src := mesh_source arrays in
     let m := BakedData.model r in
     exists l ts,
       mesh_triangles (packed (Mesh.ARRAY_INDEX arrays))
         (packed (Mesh.ARRAY_VERTEX arrays))
       = Some (triangle_data <$> ts) /\
       triangles_read src bake_tangents
         (triangle_starts (length (indices src))) ts /\
       m = model l /\
       (forall b,
          welded src bake_tangents b (flush_corners b ts)
            (bucket_view b l)) /\
       (forall tri ref,
          tri ∈ ts -> ref ∈ triangle_corners tri ->
          let b := triangle_flush_face tri in
          exists d j,
            index_of (c_src ref) (firsts (flush_corners b ts)) = Some d /\
            bucket_indices b m !! j = Some (Z.of_nat d) /\
            bucket_positions b m !! d = Some (c_pos ref) /\
            (b = None ->
             exists nrm,
               Model.normals m !! d = Some nrm /\
               to_vec3f <$> packed_get (normals src) (c_src ref)
               = Done nrm))).
Proof.
  intros [Hnd Hlt]. split; [|split].
  - intros pos tolerance. subst tolerance.
    rewrite !get_sides_testbit by done.
    destruct (on_face_constants pos Hnd) as (-> & -> & -> & -> & -> & ->).
    repeat split. intros n Hn. rewrite get_sides_testbit by done.
    by apply on_face_other.
  - intros a b c. split; [|split].
    + intros n. rewrite triangle_mask_testbit, !get_sides_testbit by done.
      reflexivity.
    + by apply get_triangle_side_flush_face.
    + intros side. unfold get_triangle_side.
      pose proof (triangle_mask_testbit a b c) as Hbits.
      set (g := fun n => on_face n a && on_face n b && on_face n c).
      assert (Hhigh : forall n, (6 <= n)%nat -> g n = false).
      { intros n Hn. unfold g. destruct (on_face n a) eqn:Ha; [|done].
        apply (on_face_lt _ _ Hlt) in Ha. unfold SIDE_COUNT in Ha. lia. }
      assert (Hg : forall n, Z.testbit (triangle_mask a b c) (Z.of_nat n)
                             = g n) by (intros; by apply Hbits).
      assert (Hm := mask_of_bits (triangle_mask a b c) g Hg Hhigh).
      unfold SIDE_COUNT. split.
      * intros Hfind. rewrite Hm in Hfind |- *.
        assert (Hs : (side < 6)%nat /\
          forall n, (n < 6)%nat -> g n = bool_decide (n = side)).
        { clear Hm Hg Hbits. cbn [seq find] in Hfind.
          destruct (g 0%nat) eqn:H0, (g 1%nat) eqn:H1, (g 2%nat) eqn:H2,
            (g 3%nat) eqn:H3, (g 4%nat) eqn:H4, (g 5%nat) eqn:H5;
            cbn in Hfind; try discriminate;
            injection Hfind as <-; (split; [lia|]);
            intros [|[|[|[|[|[|n]]]]]] Hn; try assumption; lia. }
        destruct Hs as [Hs Hgn]. split; [done|]. intros n.
        rewrite <- Hm, Hg.
        destruct (decide (n < 6)%nat); [by apply Hgn|].
        rewrite Hhigh by lia. symmetry. apply bool_decide_eq_false_2. lia.
      * intros [Hs Hbit].
        assert (Hgn : forall n, g n = bool_decide (n = side)).
        { intros n. by rewrite <- Hg, Hbit. }
        rewrite Hm, !Hgn. clear -Hs.
        do 6 (destruct side as [|side]; [reflexivity|]). lia.
  - intros h this baked_data n bake_tangents arrays this' r Hm Hrun src m.
    destruct (bake_custom_mesh_triangles _ _ _ _ _ _ _ _ Hm Hrun)
      as (l & ts & Hmesh & Hts & Hb & Hr).
    exists l, ts. split; [done|]. split; [done|]. split; [done|]. split.
    + intros b. rewrite <- corners_flush_corners by done. apply Hb.
    + intros tri ref Htri Href b. subst b m. rewrite Hr.
      rewrite <- (triangle_side_flush_face tri Hlt).
      rewrite <- corners_flush_corners by done.
      eapply welded_reference; [exact Hts|apply Hb|].
      by apply corners_elem.
Qed.

(** C2.  In the record of a baked custom mesh every bucket is welded on its
    own, by source index.  The triangles baked are the triangles of the
    mesh: its indices taken three by three, each with the position of the
    vertex it names.  The references to a bucket are the corners of the
    triangles classified to it.  The first reference to a source index
    appends a vertex, with the position and the UV of the source vertex,
    its normal in the interior bucket, and its tangent floats when tangents
    are baked; every reference, first or later, gives the index of the
    vertex of the first reference to the same source index.  So within a
    bucket two references have the same destination index exactly when
    they have the same source index, and the bucket has as many vertices as
    distinct source indices referenced in it; a source vertex referenced in
    two buckets has a vertex in each. *)
Theorem mesh_welding_spec h this baked_data n bake_tangents arrays this' r :
  has_mesh_arrays h this arrays ->
  bake h this baked_data n bake_tangents = Done (this', r, None) ->
  let src := mesh_source arrays in
  exists l ts,
    mesh_triangles (packed (Mesh.ARRAY_INDEX arrays))
      (packed (Mesh.ARRAY_VERTEX arrays))
    = Some (triangle_data <$> ts) /\
    triangles_read src bake_tangents
      (triangle_starts (length (indices src))) ts /\
    BakedData.model r = model l /\
    forall b,
      let R := corners b ts in
      let m := BakedData.model r in
      welded src bake_tangents b R (bucket_view b l) /\
      (forall ref, ref ∈ R ->
         to_vec3f <$> packed_get (positions src) (c_src ref)
         = Done (c_pos ref)) /\
      length (bucket_indices b m) = length R /\
      length (bucket_positions b m)
        = size (list_to_set (c_src <$> R) : gset Z) /\
      length (bucket_tangents b m)
        = (if bake_tangents then 4 * length (bucket_positions b m)
           else 0)%nat /\
      (forall j ref,
         R !! j = Some ref ->
         exists d first,
           bucket_indices b m !! j = Some (Z.of_nat d) /\
           firsts R !! d = Some first /\
           c_src first = c_src ref /\
           bucket_positions b m !! d = Some (c_pos first)) /\
      (forall j1 j2 ref1 ref2 d1 d2,
         R !! j1 = Some ref1 -> R !! j2 = Some ref2 ->
         bucket_indices b m !! j1 = Some d1 ->
         bucket_indices b m !! j2 = Some d2 ->
         (d1 = d2 <-> c_src ref1 = c_src ref2)).
Proof.
  intros Hm Hrun src.
  destruct (bake_custom_mesh_triangles _ _ _ _ _ _ _ _ Hm Hrun)
    as (l & ts & Hmesh & Hts & Hb & Hr).
  exists l, ts. split; [done|]. split; [done|]. split; [done|].
  intros b R m. subst m. rewrite Hr. specialize (Hb b). fold R in Hb.
  rewrite <- !bucket_view_indices, <- !bucket_view_positions,
    <- bucket_view_tangents.
  pose proof (welded_length_indices _ _ _ _ _ Hb) as Hli.
  pose proof (welded_length_positions _ _ _ _ _ Hb) as Hlp.
  split; [done|]. split.
  { intros ref. by eapply corners_positions. }
  split; [done|]. split.
  { by rewrite Hlp, firsts_length. }
  split.
  { destruct bake_tangents.
    - eapply welded_tangents_length; [exact Hb|].
      intros ref Href. by eapply corners_tangent.
    - by rewrite (welded_no_tangents _ _ _ _ Hb). }
  assert (Hidx : forall j ref d,
            R !! j = Some ref -> v_indices (bucket_view b l) !! j = Some d ->
            exists k, index_of (c_src ref) (firsts R) = Some k /\
                      d = Z.of_nat k).
  { intros j ref d Hj Hd.
    destruct (welded_index _ _ _ _ _ _ _ Hb Hd) as (r' & k & Hr' & Hk & -> & _).
    exists k. split; [congruence|done]. }
  split.
  - intros j ref Hj.
    destruct (v_indices (bucket_view b l) !! j) as [d|] eqn:Hd.
    2:{ apply lookup_ge_None in Hd. apply lookup_lt_Some in Hj. lia. }
    destruct (Hidx _ _ _ Hj Hd) as (k & Hk & ->).
    destruct (index_of_lookup _ _ _ Hk) as (first & Hf & Hsrc).
    exists k, first. repeat split; try done.
    destruct Hb as (_ & -> & _). by rewrite list_lookup_fmap, Hf.
  - intros j1 j2 ref1 ref2 d1 d2 Hj1 Hj2 Hd1 Hd2.
    destruct (Hidx _ _ _ Hj1 Hd1) as (k1 & Hk1 & ->).
    destruct (Hidx _ _ _ Hj2 Hd2) as (k2 & Hk2 & ->).
    split.
    + intros Heq. assert (k1 = k2) as -> by lia.
      by eapply index_of_inj.
    + intros Heq. rewrite Heq in Hk1. congruence.
Qed.

End Claims_on_the_mesh_baker.

(** ** Emptiness, errors and the frame of a bake *)

Section Bake_claims.
Context `{FO : FloatOps} {EN : Engine} {CT : CubeTables}.

Lemma bake_mesh_geometry_scalars h config baked_data bake_tangents r err :
  bake_mesh_geometry h config baked_data bake_tangents = Done (r, err) ->
  BakedData.color r = BakedData.color baked_data /\
  BakedData.transparency_index r = BakedData.transparency_index baked_data /\
  BakedData.material_id r = BakedData.material_id baked_data.
Proof.
  unfold bake_mesh_geometry.
  destruct (_custom_mesh config) as [a|]; [|by intros [= <- _]].
  destruct (h !! a) as [mesh|]; [|done].
  destruct (Mesh.surface_get_arrays_0 mesh) as [arrays|];
    [|by intros [= <- _]].
  destruct (negb _); [by intros [= <- _]|].
  destruct (bool_decide _); [by intros [= <- _]|].
  intros (l & _ & Hr%Done_inj)%obind_inv. by injection Hr as <- _.
Qed.

Lemma bake_cube_geometry_scalars config baked_data n bake_tangents r :
  bake_cube_geometry config baked_data n bake_tangents = Done r ->
  BakedData.color r = BakedData.color baked_data /\
  BakedData.transparency_index r = BakedData.transparency_index baked_data /\
  BakedData.material_id r = BakedData.material_id baked_data.
Proof.
  unfold bake_cube_geometry. destruct (fle _ _); [done|].
  intros <-%Done_inj. done.
Qed.

(** C8.  A bake that completes returns the model definition with every
    field as it was, except the emptiness flag, which is the emptiness of
    the baked record.  The record has the material id, the transparency
    index and the color of the definition.  Nothing of the record passed
    in remains: the bake gives the same result from any other record. *)
Theorem bake_frame h this baked_data n bake_tangents this' r err :
  bake h this baked_data n bake_tangents = Done (this', r, err) ->
  this' = with_empty (BakedData.empty r) this /\
  (_id this' = _id this /\ _name this' = _name this /\
   _material_id this' = _material_id this /\
   _transparency_index this' = _transparency_index this /\
   _color this' = _color this /\
   _geometry_type this' = _geometry_type this /\
   _cube_tiles this' = _cube_tiles this /\
   _custom_mesh this' = _custom_mesh this /\
   _collision_aabbs this' = _collision_aabbs this /\
   _collision_mask this' = _collision_mask this /\
   _random_tickable this' = _random_tickable this /\
   _empty this' = BakedData.empty r) /\
  (BakedData.material_id r = _material_id this /\
   BakedData.transparency_index r = _transparency_index this /\
   BakedData.color r = _color this) /\
  (forall other_data,
     bake h this other_data n bake_tangents = Done (this', r, err)).
Proof.
  intros Hrun.
  assert (Hany : forall other_data,
            bake h this other_data n bake_tangents
            = bake h this baked_data n bake_tangents).
  { intros other_data. by rewrite !bake_eq. }
  rewrite bake_eq in Hrun.
  apply obind_inv in Hrun as ([r0 e0] & Hgeo & Hrun%Done_inj).
  injection Hrun as <- <- <-.
  split; [done|]. split; [done|]. split.
  - destruct (_geometry_type this).
    + by apply Done_inj in Hgeo as [= <- _].
    + apply ofmap_inv in Hgeo as (r1 & Hcube & [= -> _]).
      apply bake_cube_geometry_scalars in Hcube as (-> & -> & ->). done.
    + apply bake_mesh_geometry_scalars in Hgeo as (-> & -> & ->). done.
    + by apply Done_inj in Hgeo as [= <- _].
  - intros other_data. rewrite Hany, bake_eq, Hgeo. done.
Qed.

(** *** A mesh whose indices are in range is baked to the end *)

Lemma packed_get_Done {A} (l : list A) (i : Z) :
  0 <= i < Z.of_nat (length l) -> exists v, packed_get l i = Done v.
Proof.
  intros Hi. unfold packed_get.
  destruct (0 <=? i) eqn:H0; [|lia].
  destruct (lookup_lt_is_Some_2 l (Z.to_nat i)) as [v ->]; [lia|].
  by exists v.
Qed.

Lemma packed_get_elem {A} (l : list A) (i : Z) (v : A) :
  packed_get l i = Done v -> v ∈ l.
Proof.
  unfold packed_get. destruct (0 <=? i); [|done].
  destruct (l !! Z.to_nat i) eqn:Hl; [|done].
  intros <-%Done_inj. by eapply list_elem_of_lookup_2.
Qed.

Lemma vertex_tangent_completes src bake_tangents tangent i :
  mesh_in_range src bake_tangents ->
  0 <= i -> i + 2 < Z.of_nat (length (indices src)) ->
  exists ts, vertex_tangent src bake_tangents tangent i = Done ts.
Proof.
  intros (_ & _ & _ & Ht) Hi0 Hi. unfold vertex_tangent.
  destruct bake_tangents; [|by eexists].
  destruct (bool_decide (length (tangents src) = 0%nat)) eqn:He;
    [by eexists|].
  apply bool_decide_eq_false_1 in He.
  assert (Hne : tangents src <> []) by (by destruct (tangents src)).
  specialize (Ht eq_refl Hne).
  assert (Hq : i ÷ 3 + 1 <= Z.of_nat (length (indices src)) ÷ 3).
  { assert (i ÷ 3 < Z.of_nat (length (indices src)) ÷ 3); [|lia].
    apply Z.quot_lt_upper_bound; [lia|lia|].
    pose proof (Z.quot_rem' (Z.of_nat (length (indices src))) 3).
    pose proof (Z.rem_bound_pos (Z.of_nat (length (indices src))) 3).
    pose proof (Z.quot_rem' i 3). pose proof (Z.rem_bound_pos i 3).
    lia. }
  assert (Hi3 : 0 <= i ÷ 3) by (apply Z.quot_pos; lia).
  destruct (packed_get_Done (tangents src) (i ÷ 3 * 4)) as [t0 ->]; [lia|].
  destruct (packed_get_Done (tangents src) (i ÷ 3 * 4 + 1)) as [t1 ->];
    [lia|].
  destruct (packed_get_Done (tangents src) (i ÷ 3 * 4 + 2)) as [t2 ->];
    [lia|].
  destruct (packed_get_Done (tangents src) (i ÷ 3 * 4 + 3)) as [t3 ->];
    [lia|].
  by eexists.
Qed.

Lemma add_vertex_completes src bake_tangents tangent i b st p :
  mesh_in_range src bake_tangents ->
  0 <= i -> i + 2 < Z.of_nat (length (indices src)) ->
  0 <= p.1 < Z.of_nat (length (positions src)) ->
  exists st', add_vertex src bake_tangents tangent i b st p = Done st'.
Proof.
  intros Hm Hi0 Hi Hp.
  destruct (vertex_tangent_completes src bake_tangents tangent i Hm Hi0 Hi)
    as [ts Hts].
  destruct Hm as (_ & Hn & Hu & _).
  destruct st as [l next], p as [s pos]. cbn in Hp.
  destruct (packed_get_Done (uvs src) s) as [uv Huv]; [lia|].
  destruct (packed_get_Done (normals src) s) as [nrm Hnrm]; [lia|].
  destruct b as [side|]; cbn [add_vertex].
  - unfold add_side_vertex.
    destruct (added_side_indices l side !! s); [by eexists|].
    rewrite Huv. cbn [mbind outcome_bind]. rewrite Hts. by eexists.
  - unfold add_regular_vertex.
    destruct (added_regular_indices l !! s); [by eexists|].
    rewrite Hnrm. cbn [mbind outcome_bind]. rewrite Huv.
    cbn [mbind outcome_bind]. rewrite Hts. by eexists.
Qed.

Lemma add_vertices_complete src bake_tangents tangent i b vs st :
  mesh_in_range src bake_tangents ->
  0 <= i -> i + 2 < Z.of_nat (length (indices src)) ->
  Forall (fun p => 0 <= p.1 < Z.of_nat (length (positions src))) vs ->
  exists st', ofold (add_vertex src bake_tangents tangent i b) vs st
              = Done st'.
Proof.
  intros Hm Hi0 Hi Hvs. revert st.
  induction Hvs as [|p vs Hp _ IH]; intros st; cbn [ofold]; [by eexists|].
  destruct (add_vertex_completes _ _ tangent _ b st p Hm Hi0 Hi Hp)
    as [st1 ->].
  cbn [mbind outcome_bind]. apply IH.
Qed.

Lemma read_triangle_completes src bake_tangents i :
  mesh_in_range src bake_tangents ->
  0 <= i -> i + 2 < Z.of_nat (length (indices src)) ->
  exists tri, read_triangle src bake_tangents i = Done tri /\
    Forall (fun p => 0 <= p.1 < Z.of_nat (length (positions src)))
      (triangle_vertices tri).
Proof.
  intros (Hidx & Hn & Hu & _) Hi0 Hi. unfold read_triangle.
  rewrite Forall_forall in Hidx.
  destruct (packed_get_Done (indices src) i) as [i0 H0]; [lia|].
  destruct (packed_get_Done (indices src) (i + 1)) as [i1 H1]; [lia|].
  destruct (packed_get_Done (indices src) (i + 2)) as [i2 H2]; [lia|].
  pose proof (Hidx _ (packed_get_elem _ _ _ H0)) as Hr0.
  pose proof (Hidx _ (packed_get_elem _ _ _ H1)) as Hr1.
  pose proof (Hidx _ (packed_get_elem _ _ _ H2)) as Hr2.
  rewrite H0, H1, H2. cbn [mbind outcome_bind].
  destruct (packed_get_Done (positions src) i0) as [p0 ->]; [lia|].
  destruct (packed_get_Done (positions src) i1) as [p1 ->]; [lia|].
  destruct (packed_get_Done (positions src) i2) as [p2 ->]; [lia|].
  cbn [fmap outcome_fmap mbind outcome_bind].
  assert (Htan : exists tangent,
    (if bool_decide (length (tangents src) = 0%nat) && bake_tangents
     then compute_tangent src i0 i1 i2 (to_vec3f p0, to_vec3f p1, to_vec3f p2)
     else Done []) = Done tangent).
  { destruct (_ && _); [|by eexists]. unfold compute_tangent.
    destruct (packed_get_Done (uvs src) i1) as [uv1 ->]; [lia|].
    destruct (packed_get_Done (uvs src) i0) as [uv0 ->]; [lia|].
    destruct (packed_get_Done (uvs src) i2) as [uv2 ->]; [lia|].
    destruct (packed_get_Done (normals src) i0) as [n0 ->]; [lia|].
    by eexists. }
  destruct Htan as [tangent ->]. cbn [mbind outcome_bind].
  eexists. split; [reflexivity|].
  unfold triangle_vertices. cbn. repeat constructor; cbn; lia.
Qed.

Lemma bake_triangle_completes src bake_tangents l i :
  mesh_in_range src bake_tangents ->
  0 <= i -> i + 2 < Z.of_nat (length (indices src)) ->
  exists l', bake_triangle src bake_tangents l i = Done l'.
Proof.
  intros Hm Hi0 Hi. rewrite bake_triangle_add_vertices.
  destruct (read_triangle_completes _ _ _ Hm Hi0 Hi) as (tri & -> & Hvs).
  cbn [mbind outcome_bind]. cbv zeta.
  match goal with
  | |- context [ofold ?f ?vs ?st] =>
      destruct (add_vertices_complete src bake_tangents (tri_tangent tri) i
                  (triangle_side tri) vs st Hm Hi0 Hi Hvs) as [[l' nx] ->]
  end.
  by exists l'.
Qed.

Lemma triangle_starts_range (n : nat) (i : Z) :
  Z.rem (Z.of_nat n) 3 = 0 -> i ∈ triangle_starts n ->
  0 <= i /\ i + 2 < Z.of_nat n.
Proof.
  intros Hrem. unfold triangle_starts.
  intros (t & -> & Ht)%list_elem_of_fmap. apply elem_of_seq in Ht.
  assert (Hdiv : ((n + 2) / 3 <= n / 3)%nat).
  { apply Z.rem_divide in Hrem as [q Hq]; [|lia].
    assert (n = (Z.to_nat q * 3)%nat) as -> by lia.
    rewrite Nat.div_mul, Nat.div_add_l by lia.
    change (2 / 3)%nat with 0%nat. lia. }
  pose proof (Nat.Div0.mul_div_le n 3). lia.
Qed.

Lemma bake_triangles_complete src bake_tangents l :
  mesh_in_range src bake_tangents ->
  Z.rem (Z.of_nat (length (indices src))) 3 = 0 ->
  exists l', ofold (bake_triangle src bake_tangents)
               (triangle_starts (length (indices src))) l = Done l'.
Proof.
  intros Hm Hrem.
  pose proof (triangle_starts_range (length (indices src))) as Hr.
  revert l Hr. generalize (triangle_starts (length (indices src))) as starts.
  induction starts as [|i starts IH]; intros l Hr; cbn [ofold];
    [by eexists|].
  destruct (Hr i Hrem) as [Hi0 Hi]; [apply elem_of_cons; auto|].
  destruct (bake_triangle_completes _ _ l i Hm Hi0 Hi) as [l1 ->].
  cbn [mbind outcome_bind]. apply IH.
  intros i' Hrem' Hi'. apply Hr; [done|]. apply elem_of_cons; auto.
Qed.

(** *** Emptiness *)

Lemma packed_get_nil {A} (i : Z) : packed_get (@nil A) i = Crashed.
Proof. unfold packed_get. by destruct (0 <=? i). Qed.

Lemma read_triangle_no_positions src bake_tangents i :
  positions src = [] -> read_triangle src bake_tangents i = Crashed.
Proof.
  intros Hp. unfold read_triangle. rewrite Hp.
  destruct (packed_get (indices src) i) as [i0|]; [|done].
  destruct (packed_get (indices src) (i + 1)) as [i1|]; [|done].
  destruct (packed_get (indices src) (i + 2)) as [i2|]; [|done].
  cbn [mbind outcome_bind]. rewrite !packed_get_nil. reflexivity.
Qed.

Lemma bake_triangles_no_positions src bake_tangents starts l l' :
  positions src = [] ->
  ofold (bake_triangle src bake_tangents) starts l = Done l' -> l' = l.
Proof.
  intros Hp. destruct starts as [|i starts]; cbn [ofold].
  - by intros ->%Done_inj.
  - rewrite bake_triangle_add_vertices, read_triangle_no_positions by done.
    done.
Qed.

Lemma no_vertices_empty_model : no_vertices empty_model.
Proof. by intros [side|]. Qed.

Lemma no_geometry_empty_model : no_geometry empty_model.
Proof. split; [done|]. by intros [side|]. Qed.

(** C5, as the code has it.  After a bake that completes: with the
    geometry None the record is empty and no bucket has a vertex, whatever
    the other fields; with the geometry Cube the record is not empty; with a
    custom mesh whose reference is null the record is empty and no bucket
    has a vertex; with a custom mesh whose index count is a multiple of 3,
    the record is empty exactly when the mesh has no position, whatever the
    number of vertices baked; and whenever the record is empty, no bucket
    has a vertex. *)
Theorem bake_empty_spec h this baked_data n bake_tangents this' r err :
  bake h this baked_data n bake_tangents = Done (this', r, err) ->
  (_geometry_type this = GEOMETRY_NONE ->
     BakedData.empty r = true /\ no_vertices (BakedData.model r)) /\
  (_geometry_type this = GEOMETRY_CUBE -> BakedData.empty r = false) /\
  (_geometry_type this = GEOMETRY_CUSTOM_MESH -> _custom_mesh this = None ->
     BakedData.empty r = true /\ no_vertices (BakedData.model r)) /\
  (forall arrays,
     has_mesh_arrays h this arrays ->
     Z.rem (Z.of_nat (length (packed (Mesh.ARRAY_INDEX arrays)))) 3 = 0 ->
     BakedData.empty r
     = bool_decide (length (packed (Mesh.ARRAY_VERTEX arrays)) = 0%nat)) /\
  (BakedData.empty r = true -> no_vertices (BakedData.model r)).
Proof.
  intros Hrun.
  assert (Hcustom : forall arrays, has_mesh_arrays h this arrays ->
    let src := mesh_source arrays in
    (BakedData.empty r = true -> no_vertices (BakedData.model r)) /\
    (Z.rem (Z.of_nat (length (indices src))) 3 = 0 ->
     BakedData.empty r = bool_decide (length (positions src) = 0%nat))).
  { intros arrays Hm src. pose proof Hrun as Hrun'.
    rewrite (bake_custom_mesh _ _ _ _ _ _ Hm) in Hrun'. fold src in Hrun'.
    destruct (Z.rem (Z.of_nat (length (indices src))) 3 =? 0) eqn:Hrem;
      cbn [negb] in Hrun'.
    2:{ apply Done_inj in Hrun'. injection Hrun' as _ <- _.
        split; [intros _; apply no_vertices_empty_model|].
        intros Hz. apply Z.eqb_neq in Hrem. done. }
    destruct (bool_decide (length (normals src) = 0%nat)).
    { apply Done_inj in Hrun'. injection Hrun' as _ <- _.
      split; [intros _; apply no_vertices_empty_model|done]. }
    apply obind_inv in Hrun' as (l & Hl & Hrun'%Done_inj).
    injection Hrun' as _ <- _. split; [|done].
    cbn [BakedData.empty BakedData.model with_model with_baked_empty model].
    intros He%bool_decide_eq_true_1.
    apply bake_triangles_no_positions in Hl as ->;
      [apply no_vertices_empty_model|by apply nil_length_inv]. }
  split; [|split; [|split; [|split]]].
  - intros Hg. rewrite bake_eq, Hg in Hrun. apply Done_inj in Hrun.
    injection Hrun as _ <- _. split; [done|apply no_vertices_empty_model].
  - intros Hg. rewrite bake_eq, Hg in Hrun.
    apply obind_inv in Hrun as ([r0 e0] & Hcube & Hrun%Done_inj).
    injection Hrun as _ <- _.
    apply ofmap_inv in Hcube as (r1 & Hcube & [= -> _]).
    by apply bake_cube_geometry_buckets in Hcube as [-> _].
  - intros Hg Hnull. rewrite bake_eq, Hg in Hrun.
    unfold bake_mesh_geometry in Hrun. rewrite Hnull in Hrun.
    apply Done_inj in Hrun. injection Hrun as _ <- _.
    split; [done|apply no_vertices_empty_model].
  - intros arrays Hm Hrem. by apply (Hcustom arrays Hm).
  - destruct (_geometry_type this) eqn:Hg.
    + rewrite bake_eq, Hg in Hrun. apply Done_inj in Hrun.
      injection Hrun as _ <- _. intros _. apply no_vertices_empty_model.
    + rewrite bake_eq, Hg in Hrun.
      apply obind_inv in Hrun as ([r0 e0] & Hcube & Hrun%Done_inj).
      injection Hrun as _ <- _.
      apply ofmap_inv in Hcube as (r1 & Hcube & [= -> _]).
      apply bake_cube_geometry_buckets in Hcube as [-> _]. done.
    + destruct (bake_custom_mesh_cases _ _ _ _ _ _ _ _ Hg Hrun)
        as [->|(arrays & Hm & _)]; [intros _; apply no_vertices_empty_model|].
      by apply (Hcustom arrays Hm).
    + rewrite bake_eq, Hg in Hrun. apply Done_inj in Hrun.
      injection Hrun as _ <- _. intros _. apply no_vertices_empty_model.
Qed.

(** *** Errors of the mesh baker *)





End Bake_claims.

Lemma outcome_done {A} (o : outcome A) (P : A -> Prop) :
  match o with Done a => P a | Crashed => False end ->
  exists a, o = Done a /\ P a.
Proof. destruct o as [a|]; [|done]. intros HP. by exists a. Qed.

Lemma bake_outcome_done {A B E} (o : outcome (A * B * option E))
    (P : A -> B -> option E -> Prop) :
  match o with Done (a, b, e) => P a b e | Crashed => False end ->
  exists a b e, o = Done (a, b, e) /\ P a b e.
Proof. destruct o as [[[a b] e]|]; [|done]. intros HP. by exists a, b, e. Qed.

Lemma bake_done_without_error {A B E}
    (o : outcome (A * B * option E)) :
  match o with Done (_, _, e) => Some e | Crashed => None end = Some None ->
  exists a b, o = Done (a, b, None).
Proof.
  destruct o as [[[a b] [e|]]|]; intros He; try discriminate.
  by exists a, b.
Qed.

(** ** The code on the example inputs *)

Section Evaluation.
#[local] Existing Instance Binary64.
#[local] Existing Instance PlainEngine.
#[local] Existing Instance UnitCube.
#[local] Existing Instance PlainDefaults.

Lemma example_sides_enumerated : sides_enumerated.
Proof.
  split.
  - apply (bool_decide_unpack _). vm_compute. exact I.
  - unfold side_constants, SIDE_COUNT. cbn. repeat constructor; lia.
Defined.

Lemma example_bake_0 :
  exists this' r,
    bake example_heap (mesh_model 0) used_record 4 true
    = Done (this', r, None).
Proof. apply bake_done_without_error. vm_compute. reflexivity. Defined.

(** C7: the bake of [tangent_triangle], a triangle on the side x = 0 whose
    source vertices 0, 1 and 2 have the tangents (0, 0, 0, 1), (1, 0, 0, 1)
    and (2, 0, 0, 1).  The three destination vertices are those of the
    source vertices 0, 1 and 2, and each receives the four floats at
    4 * (i / 3) = 0 of the tangent array, the tangent of the source
    vertex 0. *)
Theorem mesh_tangents_per_triangle :
  packed (Mesh.ARRAY_TANGENT tangent_triangle)
    = [0; 0; 0; 1;  1; 0; 0; 1;  2; 0; 0; 1]%float /\
  exists this' r err,
    bake example_heap (mesh_model 2) fresh_record 4 true
      = Done (this', r, err) /\
    err = None /\
    Model.side_indices (BakedData.model r) SIDE_NEGATIVE_X = [0; 1; 2] /\
    Model.side_positions (BakedData.model r) SIDE_NEGATIVE_X
      = [vec3 0 0 0; vec3 0 1 0; vec3 0 0 1]%float /\
    Model.side_tangents (BakedData.model r) SIDE_NEGATIVE_X
      = [0; 0; 0; 1;  0; 0; 0; 1;  0; 0; 0; 1]%float.
Proof.
  split; [reflexivity|]. apply bake_outcome_done. vm_compute.
  repeat split; reflexivity.
Qed.

Lemma example_corners_on_unit_cube : corners_on_unit_cube.
Proof.
  intros side i Hside Hi. unfold SIDE_COUNT in Hside.
  do 6 (destruct side as [|side];
        [do 4 (destruct i as [|i]; [vm_compute; congruence|]); lia|]).
  lia.
Defined.

Lemma example_quad_triangles_in_range : quad_triangles_in_range.
Proof.
  intros side i Hside Hi.
  do 6 (destruct i as [|i]; [vm_compute; split; congruence|]). lia.
Defined.

Lemma example_has_mesh_arrays (a : nat) (arrays : Mesh.arrays) :
  example_heap !! a = Some (Mesh.mk (Some arrays)) ->
  has_mesh_arrays example_heap (mesh_model a) arrays.
Proof. intros Ha. split; [reflexivity|]. by exists a. Defined.

Lemma example_mesh_triangles :
  mesh_triangles (packed (Mesh.ARRAY_INDEX quad_and_fin))
    (packed (Mesh.ARRAY_VERTEX quad_and_fin))
  = Some quad_and_fin_triangles.
Proof. reflexivity. Defined.

(** The record of [quad_and_fin], computed. *)
Lemma example_bake_0_record :
  exists this' r,
    bake example_heap (mesh_model 0) used_record 4 true
      = Done (this', r, None) /\
    Model.side_indices (BakedData.model r) SIDE_NEGATIVE_X
      = [0; 1; 2; 0; 2; 3] /\
    Model.side_positions (BakedData.model r) SIDE_NEGATIVE_X
      = [vec3 0 0 0; vec3 0 1 0; vec3 0 1 1; vec3 0 0 1]%float /\
    Model.indices (BakedData.model r) = [0; 1; 2] /\
    Model.positions (BakedData.model r)
      = [vec3 0 0 0; vec3 0 1 1; vec3 0.5 0.5 0.5]%float /\
    Model.normals (BakedData.model r)
      = [vec3 (-1) 0 0; vec3 (-1) 0 0; vec3 0 0 1]%float.
Proof.
  destruct (bake_outcome_done
              (bake example_heap (mesh_model 0) used_record 4 true)
              (fun _ r e =>
                 e = None /\
                 Model.side_indices (BakedData.model r) SIDE_NEGATIVE_X
                   = [0; 1; 2; 0; 2; 3] /\
                 Model.side_positions (BakedData.model r) SIDE_NEGATIVE_X
                   = [vec3 0 0 0; vec3 0 1 0; vec3 0 1 1; vec3 0 0 1]%float /\
                 Model.indices (BakedData.model r) = [0; 1; 2] /\
                 Model.positions (BakedData.model r)
                   = [vec3 0 0 0; vec3 0 1 1; vec3 0.5 0.5 0.5]%float /\
                 Model.normals (BakedData.model r)
                   = [vec3 (-1) 0 0; vec3 (-1) 0 0; vec3 0 0 1]%float))
    as (this' & r & e & Hrun & -> & Hrec).
  { vm_compute. repeat split; reflexivity. }
  exists this', r. split; [exact Hrun|exact Hrec].
Defined.

(** The bake of [quad_and_fin]: its three triangles are read; the two of
    the quad are flush on x = 0 and go to the bucket of that side, the fin
    is interior and goes to the interior bucket, with its normals. *)
Lemma triangle_classification_spec_witness :
  sides_enumerated /\
  get_triangle_side (vec3 0 0 0) (vec3 0 1 0) (vec3 0 1 1)
    = flush_face (vec3 0 0 0) (vec3 0 1 0) (vec3 0 1 1) /\
  exists this' r,
    bake example_heap (mesh_model 0) used_record 4 true
      = Done (this', r, None) /\
    Model.side_indices (BakedData.model r) SIDE_NEGATIVE_X
      = [0; 1; 2; 0; 2; 3] /\
    Model.side_positions (BakedData.model r) SIDE_NEGATIVE_X
      = [vec3 0 0 0; vec3 0 1 0; vec3 0 1 1; vec3 0 0 1]%float /\
    Model.indices (BakedData.model r) = [0; 1; 2] /\
    Model.positions (BakedData.model r)
      = [vec3 0 0 0; vec3 0 1 1; vec3 0.5 0.5 0.5]%float /\
    Model.normals (BakedData.model r)
      = [vec3 (-1) 0 0; vec3 (-1) 0 0; vec3 0 0 1]%float /\
    exists l ts,
      triangle_data <$> ts = quad_and_fin_triangles /\
      BakedData.model r = model l /\
      (forall b,
         welded (mesh_source quad_and_fin) true b (flush_corners b ts)
           (bucket_view b l)) /\
      (forall tri ref,
         tri ∈ ts -> ref ∈ triangle_corners tri ->
         exists d,
           bucket_positions (triangle_flush_face tri) (BakedData.model r)
             !! d = Some (c_pos ref)).
Proof.
  destruct (triangle_classification_spec example_sides_enumerated)
    as (_ & Hb & Hc).
  split; [exact example_sides_enumerated|].
  split; [exact (proj1 (proj2 (Hb _ _ _)))|].
  destruct example_bake_0_record as (this' & r & Hrun & Hrec).
  exists this', r. split; [exact Hrun|].
  destruct Hrec as (H1 & H2 & H3 & H4 & H5).
  split; [exact H1|]. split; [exact H2|]. split; [exact H3|].
  split; [exact H4|]. split; [exact H5|].
  destruct (Hc _ _ _ _ _ _ _ _ (example_has_mesh_arrays 0%nat _ eq_refl)
              Hrun) as (l & ts & Hmesh & _ & Hr & Hw & Hreach).
  exists l, ts. split.
  { rewrite example_mesh_triangles in Hmesh. by injection Hmesh as <-. }
  split; [exact Hr|]. split; [exact Hw|].
  intros tri ref Htri Href.
  destruct (Hreach tri ref Htri Href) as (d & _ & _ & _ & Hp & _).
  by exists d.
Defined.

(** The two triangles of the quad of [quad_and_fin] share the source
    vertices 0 and 2, which have one vertex each in the bucket of the side:
    4 vertices for 6 indices.  The fin refers to them from the interior
    bucket, where they have vertices of their own. *)
Lemma mesh_welding_spec_witness :
  has_mesh_arrays example_heap (mesh_model 0) quad_and_fin /\
  exists this' r,
    bake example_heap (mesh_model 0) used_record 4 true
      = Done (this', r, None) /\
    Model.side_indices (BakedData.model r) SIDE_NEGATIVE_X
      = [0; 1; 2; 0; 2; 3] /\
    Model.side_positions (BakedData.model r) SIDE_NEGATIVE_X
      = [vec3 0 0 0; vec3 0 1 0; vec3 0 1 1; vec3 0 0 1]%float /\
    Model.indices (BakedData.model r) = [0; 1; 2] /\
    Model.positions (BakedData.model r)
      = [vec3 0 0 0; vec3 0 1 1; vec3 0.5 0.5 0.5]%float /\
    exists l ts,
      triangle_data <$> ts = quad_and_fin_triangles /\
      BakedData.model r = model l /\
      forall b,
        welded (mesh_source quad_and_fin) true b (corners b ts)
          (bucket_view b l) /\
        length (bucket_positions b (BakedData.model r))
        = size (list_to_set (c_src <$> corners b ts) : gset Z).
Proof.
  split; [exact (example_has_mesh_arrays 0%nat _ eq_refl)|].
  destruct example_bake_0_record as (this' & r & Hrun & Hrec).
  exists this', r. split; [exact Hrun|].
  destruct Hrec as (H1 & H2 & H3 & H4 & _).
  split; [exact H1|]. split; [exact H2|]. split; [exact H3|].
  split; [exact H4|].
  destruct (mesh_welding_spec _ _ _ _ _ _ _ _
              (example_has_mesh_arrays 0%nat _ eq_refl) Hrun)
    as (l & ts & Hmesh & Hts & Hr & Hb).
  exists l, ts. split.
  { rewrite example_mesh_triangles in Hmesh. by injection Hmesh as <-. }
  split; [exact Hr|].
  intros b. destruct (Hb b) as (Hw & _ & _ & Hn & _).
  split; [exact Hw|exact Hn].
Defined.

(** The cube with the tile (1, 2) on every side, on an atlas of size 4. *)
Lemma bake_cube_geometry_spec_witness :
  corners_on_unit_cube /\
  atlas_size_converted 4 /\
  0 < 4 /\
  exists r,
    bake_cube_geometry cube_model used_record 4 true = Done r /\
    BakedData.empty r = false /\
    forall side, (side < SIDE_COUNT)%nat ->
      length (Model.side_positions (BakedData.model r) side) = 4%nat /\
      length (Model.side_indices (BakedData.model r) side) = 6%nat /\
      length (Model.side_uvs (BakedData.model r) side) = 4%nat.
Proof.
  split; [exact example_corners_on_unit_cube|].
  split; [reflexivity|]. split; [lia|].
  destruct (bake_cube_geometry_spec cube_model used_record 4 true
              example_corners_on_unit_cube eq_refl) as [Hpos _].
  destruct (Hpos ltac:(lia)) as (r & Hrun & He & Hsides).
  exists r. split; [exact Hrun|]. split; [exact He|].
  intros side Hside. destruct (Hsides side Hside) as (-> & -> & ->).
  repeat split.
Defined.

(** The indices of the baked [quad_and_fin]. *)
Lemma bake_indices_in_range_witness :
  quad_triangles_in_range /\
  exists this' r,
    bake example_heap (mesh_model 0) used_record 4 true
      = Done (this', r, None) /\
    forall b,
      Forall (fun d =>
                0 <= d
                < Z.of_nat (length (bucket_positions b (BakedData.model r))))
        (bucket_indices b (BakedData.model r)) /\
      (length (bucket_indices b (BakedData.model r)) mod 3 = 0)%nat.
Proof.
  split; [exact example_quad_triangles_in_range|].
  destruct example_bake_0 as (this' & r & Hrun).
  exists this', r. split; [exact Hrun|].
  exact (bake_indices_in_range _ _ _ _ _ _ _ _
           example_quad_triangles_in_range Hrun).
Defined.

(** The mesh [lone_vertex] has a position and no triangle: its bake leaves
    every bucket without a vertex and the flag false. *)
Lemma empty_iff_no_vertices_fails :
  ~ empty_iff_no_vertices example_heap (mesh_model 1) fresh_record 4 false.
Proof.
  intros Hclaim.
  assert (exists this' r err,
            bake example_heap (mesh_model 1) fresh_record 4 false
              = Done (this', r, err) /\
            (BakedData.empty r = false /\ no_vertices (BakedData.model r)))
    as (this' & r & err & Hrun & He & Hv).
  { apply bake_outcome_done. vm_compute.
    split; [reflexivity|]. intros [side|]; reflexivity. }
  destruct (Hclaim _ _ _ Hrun) as [_ Hback].
  rewrite Hback in He; [discriminate|]. by left.
Qed.

(** The bake of [lone_vertex]: the flag is false, as the mesh has a
    position. *)
Lemma bake_empty_spec_witness :
  exists this' r err,
    bake example_heap (mesh_model 1) fresh_record 4 false
      = Done (this', r, err) /\
    BakedData.empty r
      = bool_decide (length (packed (Mesh.ARRAY_VERTEX lone_vertex)) = 0%nat)
    /\ (BakedData.empty r = true -> no_vertices (BakedData.model r)).
Proof.
  destruct (bake_outcome_done
              (bake example_heap (mesh_model 1) fresh_record 4 false)
              (fun _ _ _ => True)) as (this' & r & err & Hrun & _).
  { vm_compute. exact I. }
  exists this', r, err. split; [exact Hrun|].
  destruct (bake_empty_spec _ _ _ _ _ _ _ _ Hrun) as (_ & _ & _ & Hm & He).
  split; [|exact He].
  apply Hm; [exact (example_has_mesh_arrays 1%nat _ eq_refl)|reflexivity].
Defined.



(** The bake of [quad_and_fin] from a record left by an earlier bake. *)
Lemma bake_frame_witness :
  exists this' r err,
    bake example_heap (mesh_model 0) used_record 4 true
      = Done (this', r, err) /\
    this' = with_empty (BakedData.empty r) (mesh_model 0) /\
    (BakedData.material_id r = _material_id (mesh_model 0) /\
     BakedData.transparency_index r = _transparency_index (mesh_model 0) /\
     BakedData.color r = _color (mesh_model 0)) /\
    forall other_data,
      bake example_heap (mesh_model 0) other_data 4 true
      = Done (this', r, err).
Proof.
  destruct example_bake_0 as (this' & r & Hrun).
  exists this', r, None. split; [exact Hrun|].
  destruct (bake_frame _ _ _ _ _ _ _ _ Hrun) as (H1 & _ & H3 & H4).
  split; [exact H1|]. split; [exact H3|]. exact H4.
Defined.

(** A cube switched to None: no collision box, and the flag of the cube. *)
Lemma set_geometry_type_spec_witness :
  GEOMETRY_NONE <> _geometry_type cube_model /\
  _geometry_type (set_geometry_type GEOMETRY_NONE cube_model)
    = GEOMETRY_NONE /\
  _collision_aabbs (set_geometry_type GEOMETRY_NONE cube_model) = [] /\
  _empty (set_geometry_type GEOMETRY_NONE cube_model) = _empty cube_model.
Proof.
  assert (Hne : GEOMETRY_NONE <> _geometry_type cube_model)
    by (vm_compute; discriminate).
  split; [exact Hne|].
  destruct (set_geometry_type_spec GEOMETRY_NONE cube_model) as [_ Hswitch].
  destruct (Hswitch Hne) as (Ht & Hc & He & _).
  split; [exact Ht|]. split; [exact Hc|exact He].
Defined.

(** The copy of a model with the mesh [quad_and_fin], subresources
    included: a new mesh object with the same arrays, at another address. *)
Lemma duplicate_spec_witness :
  _id (duplicate true (mesh_model 0) example_heap).1 = -1 /\
  exists a',
    _custom_mesh (duplicate true (mesh_model 0) example_heap).1 = Some a' /\
    a' <> 0%nat /\
    (duplicate true (mesh_model 0) example_heap).2 !! a'
      = Some (Mesh.mk (Some quad_and_fin)) /\
    (duplicate true (mesh_model 0) example_heap).2 !! 0%nat
      = Some (Mesh.mk (Some quad_and_fin)).
Proof.
  destruct (duplicate_spec true (mesh_model 0) example_heap)
    as (Hid & _ & _ & _ & _ & _ & _ & _ & _ & _ & _ & _ & Hdeep).
  split; [exact Hid|].
  destruct (Hdeep eq_refl 0%nat (Mesh.mk (Some quad_and_fin)) eq_refl eq_refl)
    as (a' & Ha & Hne & _ & _ & Hnew & Hold).
  exists a'. split; [exact Ha|]. split; [exact Hne|].
  split; [exact Hnew|exact Hold].
Defined.

(** A new model, switched to Cube and then to None, and baked. *)
Lemma switch_to_none_keeps_empty_witness :
  _geometry_type VoxelBlockyModel_new <> GEOMETRY_CUBE /\
  _empty (set_geometry_type GEOMETRY_NONE
            (set_geometry_type GEOMETRY_CUBE VoxelBlockyModel_new)) = false /\
  exists r,
    bake example_heap
      (set_geometry_type GEOMETRY_NONE
         (set_geometry_type GEOMETRY_CUBE VoxelBlockyModel_new))
      fresh_record 4 false
    = Done (with_empty true
              (set_geometry_type GEOMETRY_NONE
                 (set_geometry_type GEOMETRY_CUBE VoxelBlockyModel_new)),
            r, None) /\
    BakedData.empty r = true.
Proof.
  assert (Hne : _geometry_type VoxelBlockyModel_new <> GEOMETRY_CUBE)
    by discriminate.
  split; [exact Hne|].
  destruct (switch_to_none_keeps_empty VoxelBlockyModel_new example_heap
              fresh_record 4 false Hne)
    as (_ & _ & _ & _ & Hempty & r & Hrun & Hr & _).
  split; [exact Hempty|]. exists r. split; [exact Hrun|exact Hr].
Defined.

End Evaluation.

(** ** The setters of the model definition *)

Section Setter_properties.
Context `{FO : FloatOps} {EN : Engine} {CT : CubeTables} {MD : ModelDefaults}
  {LI : Limits} {CS : CubeSides} {VA : Variants}.

Lemma to_unsigned_int (id : Z) :
  0 <= id < 2 ^ 31 -> to_unsigned id = id.
Proof. intros Hid. unfold to_unsigned. apply Z.mod_small. lia. Qed.

Lemma set_id_inv (id : Z) (m : VoxelBlockyModel.t) :
  - 2 ^ 31 <= id < 2 ^ 31 ->
  (set_id id m).2 = None ->
  set_id id m = (with_id id m, None) /\ 0 <= id < MAX_VOXEL_TYPES /\
  _id m = -1.
Proof.
  intros Hint. unfold set_id.
  destruct (id <? 0) eqn:Hneg; [discriminate|]. apply Z.ltb_ge in Hneg.
  rewrite to_unsigned_int by lia. cbn [orb].
  destruct (MAX_VOXEL_TYPES <=? id) eqn:Hmax; [discriminate|].
  apply Z.leb_gt in Hmax.
  destruct (_id m =? -1) eqn:Hid; [|discriminate]. apply Z.eqb_eq in Hid.
  intros _. repeat split; [lia|lia|exact Hid].
Qed.

Lemma set_id_assigned (id : Z) (m : VoxelBlockyModel.t) :
  _id m <> -1 ->
  (set_id id m).1 = m /\ (set_id id m).2 <> None.
Proof.
  intros Hid. unfold set_id.
  destruct ((id <? 0) || (MAX_VOXEL_TYPES <=? to_unsigned id)); [done|].
  apply Z.eqb_neq in Hid. by rewrite Hid.
Qed.

(** X1.  The id is assigned once. A call of [set_id] that reports no error
    found the id -1 and stores an id of [0, MAX_VOXEL_TYPES); a model whose id
    is not -1 is left as it is by every call of [set_id], which reports an
    error. *)
Theorem set_id_once (id id' : Z) (m : VoxelBlockyModel.t) :
  - 2 ^ 31 <= id < 2 ^ 31 ->
  (set_id id m).2 = None ->
  let m1 := (set_id id m).1 in
  _id m = -1 /\ _id m1 = id /\ 0 <= id < MAX_VOXEL_TYPES /\
  (set_id id' m1).1 = m1 /\ (set_id id' m1).2 <> None.
Proof.
  intros Hint Hok m1. subst m1.
  destruct (set_id_inv id m Hint Hok) as (-> & Hrange & Hid).
  cbn [fst]. split; [exact Hid|]. split; [reflexivity|].
  split; [exact Hrange|].
  apply set_id_assigned. cbn. lia.
Qed.

(** X2.  A copy can be given an id: on the model [duplicate] returns, [set_id]
    with an id of [0, MAX_VOXEL_TYPES) stores it and reports no error,
    whatever the id of the original. *)
Theorem duplicate_set_id (p_subresources : bool) (m : VoxelBlockyModel.t)
    (h : MeshHeap) (id : Z) :
  0 <= id < MAX_VOXEL_TYPES -> id < 2 ^ 31 ->
  let d := (duplicate p_subresources m h).1 in
  set_id id d = (with_id id d, None).
Proof.
  intros Hid Hint d.
  assert (Hd : _id d = -1).
  { subst d. unfold duplicate. destruct p_subresources; [|reflexivity].
    cbn [_custom_mesh with_id VoxelBlockyModel_new].
    destruct (_custom_mesh m) as [a|]; [|reflexivity].
    by destruct (Mesh_duplicate h a). }
  unfold set_id. rewrite to_unsigned_int by lia.
  destruct (id <? 0) eqn:Hneg; [lia|].
  destruct (MAX_VOXEL_TYPES <=? id) eqn:Hmax; [lia|].
  by rewrite Hd.
Qed.

(** X3.  [set_transparent] keeps a transparency index that is not 0, makes the
    index 0 into 1, and [set_transparent(false)] stores 0: after the call the
    index is not 0 exactly when the argument is true. No other field changes,
    and a second call with the same argument changes nothing. *)
Theorem set_transparent_spec (t : bool) (m : VoxelBlockyModel.t) :
  let m' := set_transparent t m in
  (_transparency_index m' =? 0) = negb t /\
  _transparency_index m' =
    (if t then if _transparency_index m =? 0 then 1
               else _transparency_index m
     else 0) /\
  m' = with_transparency_index (_transparency_index m') m /\
  set_transparent t m' = m'.
Proof.
  intros m'. subst m'. unfold set_transparent. destruct t.
  - destruct (_transparency_index m =? 0) eqn:H0.
    + cbn. repeat split.
    + rewrite H0. repeat split. by destruct m.
  - cbn. repeat split.
Qed.

Lemma clamp_range (x lo hi : Z) : lo <= hi -> lo <= clamp x lo hi <= hi.
Proof.
  intros Hle. unfold clamp.
  destruct (x <? lo) eqn:H1; [lia|]. destruct (hi <? x) eqn:H2; lia.
Qed.

Lemma invoke_in_bounds (m : VoxelBlockyModel.t) (c : Call) :
  typed c -> in_bounds m -> in_bounds (invoke m c).
Proof.
  intros Hc Hm. pose proof Hm as (Hid & Hmat & Htr).
  destruct c
    as [name|id|color|id|t|i|type|mesh| |rt|side tile|mask|array|pn pv];
    cbn [invoke typed] in *.
  - exact Hm.
  - unfold set_id.
    destruct (id <? 0) eqn:Hneg; [exact Hm|].
    apply Z.ltb_ge in Hneg. rewrite to_unsigned_int by lia. cbn [orb].
    destruct (MAX_VOXEL_TYPES <=? id) eqn:Hmax; [exact Hm|].
    apply Z.leb_gt in Hmax.
    destruct (negb (_id m =? -1)); [exact Hm|].
    split; [right; cbn; lia|]. by split.
  - exact Hm.
  - unfold set_material_id.
    destruct (MAX_MATERIALS <=? id) eqn:Hmax; [exact Hm|].
    apply Z.leb_gt in Hmax. split; [done|]. split; [cbn; lia|done].
  - unfold set_transparent. destruct t.
    + destruct (_transparency_index m =? 0); [|exact Hm].
      split; [done|]. split; [done|]. cbn. lia.
    + split; [done|]. split; [done|]. cbn. lia.
  - split; [done|]. split; [done|]. cbn. apply clamp_range. lia.
  - unfold set_geometry_type.
    destruct (decide (type = _geometry_type m)); [exact Hm|].
    destruct type; exact Hm.
  - exact Hm.
  - exact Hm.
  - exact Hm.
  - exact Hm.
  - exact Hm.
  - unfold _b_set_collision_aabbs.
    destruct (negb (forallb Variant_is_AABB array)); exact Hm.
  - unfold _set. destruct (String.prefix _ _); [|exact Hm].
    destruct (negb _); exact Hm.
Qed.

(** X4.  Whatever setters are called on a new model, in whatever order and
    with whatever arguments of the parameters' types, the id is -1 or in [0,
    MAX_VOXEL_TYPES), the material id is in [0, MAX_MATERIALS) and the
    transparency index is in [0, 255]. *)
Theorem setters_keep_bounds (calls : list Call) :
  0 < MAX_MATERIALS ->
  Forall typed calls ->
  in_bounds (foldl invoke VoxelBlockyModel_new calls).
Proof.
  intros Hmax Hcalls.
  assert (Hnew : in_bounds VoxelBlockyModel_new).
  { split; [by left|]. split; cbn; lia. }
  revert Hnew. generalize VoxelBlockyModel_new.
  induction Hcalls as [|c calls Hc _ IH]; intros m Hm; [exact Hm|].
  cbn [foldl]. apply IH. by apply invoke_in_bounds.
Qed.

End Setter_properties.

(** ** Collision boxes and named properties *)

(** A vector resized to the length of [src], then assigned element by
    element from [src]. *)
Lemma assign_loop_take {A B} (f : B -> A) (src : list B) (acc : list A)
    (n : nat) :
  length acc = length src -> (n <= length src)%nat ->
  foldl (fun acc i =>
           match src !! i with
           | Some v => <[i := f v]> acc
           | None => acc
           end) acc (seq 0 n)
  = (f <$> take n src) ++ drop n acc.
Proof.
  intros Hlen. induction n as [|n IH]; intros Hn.
  - by rewrite take_0, drop_0.
  - rewrite seq_S, foldl_app, IH by lia. cbn [foldl plus].
    destruct (lookup_lt_is_Some_2 src n ltac:(lia)) as [v Hv]. rewrite Hv.
    rewrite (take_S_r _ _ _ Hv), fmap_app, <- app_assoc. cbn [fmap list_fmap].
    assert (Hl : length (f <$> take n src) = n).
    { rewrite length_fmap, length_take. lia. }
    rewrite insert_app_r_alt by lia. rewrite Hl, Nat.sub_diag.
    destruct (drop n acc) as [|a acc'] eqn:Hd.
    { apply (f_equal length) in Hd. rewrite length_drop in Hd. cbn in Hd. lia. }
    cbn. do 2 f_equal.
    change acc' with (drop 1 (a :: acc')). rewrite <- Hd, drop_drop.
    f_equal. lia.
Qed.

Lemma assign_loop {A B} (f : B -> A) (src : list B) (d : A) (l : list A) :
  foldl (fun acc i =>
           match src !! i with
           | Some v => <[i := f v]> acc
           | None => acc
           end) (resize (length src) d l) (seq 0 (length src))
  = f <$> src.
Proof.
  rewrite assign_loop_take by (rewrite ?length_resize; lia).
  rewrite firstn_all, drop_ge by (rewrite length_resize; lia).
  by rewrite app_nil_r.
Qed.

Section Collision_boxes.
Context `{FO : FloatOps} {EN : Engine} {CT : CubeTables} {MD : ModelDefaults}
  {LI : Limits} {CS : CubeSides} {VA : Variants}.

Lemma _b_get_collision_aabbs_eq (m : VoxelBlockyModel.t) :
  _b_get_collision_aabbs m = Variant_of_AABB <$> _collision_aabbs m.
Proof. unfold _b_get_collision_aabbs. apply assign_loop. Qed.

Lemma _b_set_collision_aabbs_eq (array : list Variant)
    (m : VoxelBlockyModel.t) :
  _b_set_collision_aabbs array m =
  if forallb Variant_is_AABB array
  then (with_collision_aabbs (Variant_to_AABB <$> array) m, None)
  else (m, Some ERR_NOT_AN_AABB).
Proof.
  unfold _b_set_collision_aabbs.
  destruct (forallb Variant_is_AABB array); [|reflexivity].
  cbn [negb]. by rewrite assign_loop.
Qed.

(** X5.  [set_collision_aabbs] takes the whole array or nothing. An array with
    an element that is not an AABB leaves the model as it is and reports an
    error. An array of AABBs replaces the boxes, whatever their number before,
    changes no other field, and [get_collision_aabbs] then returns the array
    that was set, a variant that holds an AABB being the variant of the AABB
    it converts to. *)
Theorem set_collision_aabbs_round_trip (array : list Variant)
    (m : VoxelBlockyModel.t) :
  (forall v, Variant_is_AABB v = true ->
             Variant_of_AABB (Variant_to_AABB v) = v) ->
  let m' := (_b_set_collision_aabbs array m).1 in
  let err := (_b_set_collision_aabbs array m).2 in
  (forallb Variant_is_AABB array = false ->
     m' = m /\ err = Some ERR_NOT_AN_AABB) /\
  (forallb Variant_is_AABB array = true ->
     err = None /\
     m' = with_collision_aabbs (_collision_aabbs m') m /\
     length (_collision_aabbs m') = length array /\
     _b_get_collision_aabbs m' = array).
Proof.
  intros Hround m' err. subst m' err. rewrite _b_set_collision_aabbs_eq.
  split; intros Hall; rewrite Hall; cbn [fst snd]; [done|].
  split; [done|]. split; [done|]. cbn [_collision_aabbs with_collision_aabbs].
  split; [by rewrite length_fmap|].
  rewrite _b_get_collision_aabbs_eq.
  cbn [_collision_aabbs with_collision_aabbs].
  rewrite <- list_fmap_compose.
  rewrite <- (list_fmap_id array) at 2. apply Forall_fmap_ext_1.
  apply Forall_forall. intros v Hv. cbn. apply Hround.
  rewrite forallb_forall in Hall. apply Hall. by apply list_elem_of_In.
Qed.

(** X6.  The array [get_collision_aabbs] returns has a variant per box and is
    accepted by [set_collision_aabbs], which leaves the model as it is; the
    variant of an AABB holds an AABB and converts to that AABB. *)
Theorem get_collision_aabbs_round_trip (m : VoxelBlockyModel.t) :
  (forall a, Variant_is_AABB (Variant_of_AABB a) = true) ->
  (forall a, Variant_to_AABB (Variant_of_AABB a) = a) ->
  length (_b_get_collision_aabbs m) = length (_collision_aabbs m) /\
  _b_set_collision_aabbs (_b_get_collision_aabbs m) m = (m, None).
Proof.
  intros His Hto. rewrite _b_set_collision_aabbs_eq, _b_get_collision_aabbs_eq.
  split; [by rewrite length_fmap|].
  assert (Hall : forallb Variant_is_AABB (Variant_of_AABB <$> _collision_aabbs m)
                 = true).
  { apply forallb_forall. intros v Hv%list_elem_of_In.
    apply list_elem_of_fmap in Hv as (a & -> & _). apply His. }
  rewrite Hall. f_equal. rewrite <- list_fmap_compose.
  rewrite (Forall_fmap_ext_1 _ id (_collision_aabbs m)).
  - rewrite list_fmap_id. by destruct m.
  - apply Forall_forall. intros a _. apply Hto.
Qed.

End Collision_boxes.

Section Named_properties.
Context `{FO : FloatOps} {EN : Engine} {CT : CubeTables} {MD : ModelDefaults}
  {LI : Limits} {CS : CubeSides} {VA : Variants}.

Lemma _set_eq name value m :
  _set name value m =
  match tile_side name with
  | Some side =>
      let v := Variant_to_Vector2 value in
      (set_cube_uv_side side (Vector2f.mk (Vector2_x v) (Vector2_y v)) m, true)
  | None => (m, false)
  end.
Proof.
  unfold _set, tile_side. destruct (String.prefix _ _); [|reflexivity].
  by destruct (negb _).
Qed.

Lemma _get_eq name m :
  _get name m =
  match tile_side name with
  | Some side =>
      let f := _cube_tiles m side in
      Some (Variant_of_Vector2 (Vector2_of (Vector2f.x f) (Vector2f.y f)))
  | None => None
  end.
Proof.
  unfold _get, tile_side. destruct (String.prefix _ _); [|reflexivity].
  by destruct (negb _).
Qed.

(** X7.  [_set] and [_get] accept the same names. A name [_set] accepts is
    read back by [_get] as the value that was set, with its two coordinates
    converted to [float]; [_set] changes the tile of one side and nothing
    else; a name it does not accept changes nothing. *)
Theorem set_get_named_tile (name : string) (value : Variant)
    (m : VoxelBlockyModel.t) :
  let m' := (_set name value m).1 in
  let ok := (_set name value m).2 in
  let v := Variant_to_Vector2 value in
  (ok = true <-> is_Some (_get name m)) /\
  (ok = false -> m' = m /\ _get name m' = None) /\
  (ok = true ->
     _get name m'
     = Some (Variant_of_Vector2 (Vector2_of (Vector2_x v) (Vector2_y v))) /\
     exists side,
       side <> SIDE_COUNT /\
       m' = set_cube_uv_side side (Vector2f.mk (Vector2_x v) (Vector2_y v)) m
       /\ forall s, s <> side -> _cube_tiles m' s = _cube_tiles m s).
Proof.
  intros m' ok v. subst m' ok. rewrite _set_eq, !_get_eq.
  destruct (tile_side name) as [side|] eqn:Hside; cbn [fst snd].
  - split; [split; [by eexists|done]|]. split; [done|]. intros _.
    cbv zeta. cbn [_cube_tiles set_cube_uv_side].
    rewrite upd_same. split; [done|]. exists side.
    split.
    { unfold tile_side in Hside. destruct (String.prefix _ _); [|done].
      destruct (_ =? _)%nat eqn:Hs; [done|]. apply Nat.eqb_neq in Hs.
      cbn in Hside. congruence. }
    split; [done|]. intros s Hs. by rewrite upd_other.
  - split; [split; [done|by intros [? ?]]|]. split; [|done].
    intros _. by split.
Qed.

(** X8.  The value [_get] returns for a name is accepted by [_set] under that
    name, which then stores the tile the side had: every tile and every other
    field is as it was. The conversions of a [float] to a coordinate of a
    [Vector2] and back, and of a [Vector2] to a variant and back, give the
    value they started from. *)
Theorem get_set_named_tile (name : string) (r_ret : Variant)
    (m : VoxelBlockyModel.t) :
  (forall x y, Vector2_x (Vector2_of x y) = x /\
               Vector2_y (Vector2_of x y) = y) ->
  (forall v, Variant_to_Vector2 (Variant_of_Vector2 v) = v) ->
  _get name m = Some r_ret ->
  let m' := (_set name r_ret m).1 in
  (_set name r_ret m).2 = true /\
  (exists side, m' = set_cube_uv_side side (_cube_tiles m side) m) /\
  (forall s, _cube_tiles m' s = _cube_tiles m s).
Proof.
  intros Hxy Hv Hget m'. subst m'. rewrite _set_eq. rewrite _get_eq in Hget.
  destruct (tile_side name) as [side|]; [|done].
  cbv zeta in Hget. injection Hget as <-. cbv zeta. rewrite Hv.
  destruct (Hxy (Vector2f.x (_cube_tiles m side))
              (Vector2f.y (_cube_tiles m side))) as [-> ->].
  assert (Heta : Vector2f.mk (Vector2f.x (_cube_tiles m side))
                   (Vector2f.y (_cube_tiles m side)) = _cube_tiles m side)
    by (by destruct (_cube_tiles m side)).
  rewrite Heta. cbn [fst snd]. split; [done|]. split; [by exists side|].
  intros s. cbn [_cube_tiles set_cube_uv_side]. unfold upd.
  by destruct (decide (s = side)) as [->|].
Qed.

End Named_properties.

Section Property_list.
Context `{FO : FloatOps} {EN : Engine} {CT : CubeTables} {MD : ModelDefaults}
  {LI : Limits} {CS : CubeSides} {VA : Variants}.

Lemma tile_side_names :
  Forall (fun side => side <> SIDE_COUNT) named_sides ->
  tile_side <$> tile_names = Some <$> named_sides.
Proof.
  unfold named_sides. rewrite !Forall_cons.
  intros (Hl & Hr & Hb & Ht & Hba & Hf & _).
  unfold tile_names, tile_side. cbn.
  apply Nat.eqb_neq in Hl, Hr, Hb, Ht, Hba, Hf.
  by rewrite Hl, Hr, Hb, Ht, Hba, Hf.
Qed.

(** X9.  The properties listed are those of a cube, and the tiles listed can
    be read and written. For another geometry nothing is listed. For a cube
    seven properties are added: cube_geometry/padding_y, which neither [_get]
    nor [_set] accepts, and the six tiles, whose names [_get] and [_set]
    accept, each for the side of its name; no named side is [SIDE_COUNT]. *)
Theorem property_list_names (m : VoxelBlockyModel.t)
    (p_list : list (VariantType * string)) :
  Forall (fun side => side <> SIDE_COUNT) named_sides ->
  (_geometry_type m <> GEOMETRY_CUBE -> _get_property_list m p_list = p_list)
  /\
  (_geometry_type m = GEOMETRY_CUBE ->
     _get_property_list m p_list
     = p_list ++ (FLOAT, "cube_geometry/padding_y"%string)
                 :: ((fun name => (VECTOR2, name)) <$> tile_names)) /\
  (_get "cube_geometry/padding_y" m = None /\
   forall value, _set "cube_geometry/padding_y" value m = (m, false)) /\
  (forall i name,
     tile_names !! i = Some name ->
     exists side,
       named_sides !! i = Some side /\
       _get name m
       = Some (Variant_of_Vector2
                 (Vector2_of (Vector2f.x (_cube_tiles m side))
                    (Vector2f.y (_cube_tiles m side)))) /\
       forall value,
         let v := Variant_to_Vector2 value in
         _set name value m
         = (set_cube_uv_side side (Vector2f.mk (Vector2_x v) (Vector2_y v)) m,
            true)).
Proof.
  intros Hsides. split; [|split; [|split]].
  - intros Hg. unfold _get_property_list. by rewrite decide_False.
  - intros Hg. unfold _get_property_list. rewrite decide_True by done.
    by rewrite <- ?app_assoc.
  - split; [reflexivity|]. intros value. reflexivity.
  - intros i name Hi.
    pose proof (tile_side_names Hsides) as Hn.
    apply (f_equal (fun l => l !! i)) in Hn.
    rewrite !list_lookup_fmap, Hi in Hn. cbn in Hn.
    destruct (named_sides !! i) as [side|] eqn:Hs; [|done].
    injection Hn as Hn. exists side. split; [done|].
    rewrite _get_eq, Hn. split; [done|]. intros value. by rewrite _set_eq, Hn.
Qed.

End Property_list.

(** ** Further properties of a bake *)

Section More_bake_properties.
Context `{FO : FloatOps} {EN : Engine} {CT : CubeTables} {MD : ModelDefaults}.

(** X11.  Baking again changes nothing: the model a bake returns, baked into
    the record that bake returned, gives that model and that record again,
    with the same error if one was reported. *)
Theorem bake_again h this baked_data n bake_tangents this' r err :
  bake h this baked_data n bake_tangents = Done (this', r, err) ->
  bake h this' r n bake_tangents = Done (this', r, err).
Proof.
  intros Hrun. pose proof Hrun as Hrun'. rewrite bake_eq in Hrun'.
  apply obind_inv in Hrun' as ([r0 e0] & _ & Hdone%Done_inj).
  injection Hdone as <- _ _. rewrite <- Hrun. reflexivity.
Qed.

Lemma welded_length_uvs src bake_tangents b R v :
  welded src bake_tangents b R v -> length (v_uvs v) = length (v_positions v).
Proof.
  intros (_ & Hp & _ & Hu & _). apply (f_equal length) in Hu.
  rewrite !length_fmap in Hu. by rewrite Hu, Hp, length_fmap.
Qed.

Lemma welded_length_normals src bake_tangents R v :
  welded src bake_tangents None R v ->
  length (v_normals v) = length (v_positions v).
Proof.
  intros (_ & Hp & Hn & _). apply (f_equal length) in Hn.
  rewrite !length_fmap in Hn. by rewrite Hn, Hp, length_fmap.
Qed.

(** X13.  After a bake that completes, whatever the geometry and the mesh,
    every bucket of the record has one UV per position, and the interior
    bucket one normal per position. *)
Theorem bake_vertex_arrays h this baked_data n bake_tangents this' r err :
  bake h this baked_data n bake_tangents = Done (this', r, err) ->
  length (Model.normals (BakedData.model r))
    = length (Model.positions (BakedData.model r)) /\
  forall b,
    length (bucket_uvs b (BakedData.model r))
    = length (bucket_positions b (BakedData.model r)).
Proof.
  intros Hrun.
  assert (Hempty : BakedData.model r = empty_model ->
    length (Model.normals (BakedData.model r))
      = length (Model.positions (BakedData.model r)) /\
    forall b,
      length (bucket_uvs b (BakedData.model r))
      = length (bucket_positions b (BakedData.model r))).
  { intros ->. split; [done|]. by intros [side|]. }
  destruct (_geometry_type this) eqn:Hg.
  - apply Hempty. rewrite bake_eq, Hg in Hrun. apply Done_inj in Hrun.
    by injection Hrun as _ <- _.
  - rewrite bake_eq, Hg in Hrun.
    apply obind_inv in Hrun as ([r0 e0] & Hcube & Hrun%Done_inj).
    injection Hrun as _ <- _.
    apply ofmap_inv in Hcube as (r1 & Hcube & [= -> _]).
    unfold bake_cube_geometry in Hcube. destruct (fle _ _); [done|].
    apply Done_inj in Hcube. subst r1.
    cbn [BakedData.model with_baked_empty with_model cleared_record].
    split.
    + match goal with
      | |- context [foldl (bake_cube_side_uvs ?c ?e ?s ?bt) ?m ?ss] =>
          destruct (bake_cube_sides_uvs c e s bt ss m 0%nat)
            as (_ & _ & _ & -> & -> & _)
      end.
      by destruct (bake_cube_sides_geometry (seq 0 SIDE_COUNT) empty_model
                     0%nat) as (_ & _ & _ & _ & -> & -> & _).
    + intros [side|]; cbn [bucket_uvs bucket_positions].
      * match goal with
        | |- context [foldl (bake_cube_side_uvs ?c ?e ?s ?bt) ?m ?ss] =>
            destruct (bake_cube_sides_uvs c e s bt ss m side)
              as (-> & -> & _)
        end.
        destruct (bake_cube_sides_geometry (seq 0 SIDE_COUNT) empty_model
                    side) as (-> & _ & -> & _).
        by destruct (bool_decide (side ∈ seq 0 SIDE_COUNT)).
      * match goal with
        | |- context [foldl (bake_cube_side_uvs ?c ?e ?s ?bt) ?m ?ss] =>
            destruct (bake_cube_sides_uvs c e s bt ss m 0%nat)
              as (_ & _ & _ & -> & _ & -> & _)
        end.
        by destruct (bake_cube_sides_geometry (seq 0 SIDE_COUNT) empty_model
                       0%nat) as (_ & _ & _ & _ & -> & _ & -> & _).
  - destruct (bake_custom_mesh_cases _ _ _ _ _ _ _ _ Hg Hrun)
      as [He|(arrays & Hm & ->)]; [by apply Hempty|].
    destruct (bake_custom_mesh_welded _ _ _ _ _ _ _ _ _ Hm Hrun eq_refl)
      as (l & ts & _ & Hb & ->).
    split.
    + apply (welded_length_normals _ _ _ _ (Hb None)).
    + intros b. rewrite <- bucket_view_uvs, <- bucket_view_positions.
      apply (welded_length_uvs _ _ _ _ _ (Hb b)).
  - apply Hempty. rewrite bake_eq, Hg in Hrun. apply Done_inj in Hrun.
    by injection Hrun as _ <- _.
Qed.

Lemma flush_face_on_face (a b c : Vector3f.t) (side : nat) :
  flush_face a b c = Some side ->
  on_face side a = true /\ on_face side b = true /\ on_face side c = true.
Proof.
  unfold flush_face. destruct (common_faces a b c) as [|s [|s' l]] eqn:Hc;
    try discriminate.
  intros [= ->].
  assert (Hin : side ∈ common_faces a b c) by (rewrite Hc; apply elem_of_cons; auto).
  unfold common_faces in Hin. apply list_elem_of_In, filter_In in Hin as [_ Hin].
  by apply andb_prop in Hin as [[? ?]%andb_prop ?].
Qed.

Lemma triangle_corners_on_face (tri : Triangle) (side : nat) (ref : Corner) :
  Forall (fun side => (side < SIDE_COUNT)%nat) side_constants ->
  triangle_side tri = Some side -> ref ∈ triangle_corners tri ->
  on_face side (c_pos ref) = true.
Proof.
  intros Hlt Hside. unfold triangle_side in Hside.
  unfold triangle_corners, triangle_vertices.
  destruct (tri_positions tri) as [[p0 p1] p2].
  destruct (tri_indices tri) as [[i0 i1] i2].
  rewrite get_triangle_side_flush_face in Hside by done.
  apply flush_face_on_face in Hside as (H0 & H1 & H2).
  cbn. rewrite !elem_of_cons, elem_of_nil. intros [->|[->|[->|[]]]]; done.
Qed.

Lemma corners_on_face (ts : list Triangle) (side : nat) (ref : Corner) :
  Forall (fun side => (side < SIDE_COUNT)%nat) side_constants ->
  ref ∈ corners (Some side) ts -> on_face side (c_pos ref) = true.
Proof.
  intros Hlt. unfold corners. induction ts as [|tri ts IH].
  - by intros ?%elem_of_nil.
  - cbn [mbind list_bind]. rewrite elem_of_app. intros [Hin|Hin]; [|auto].
    destruct (decide (triangle_side tri = Some side)) as [Hs|];
      [|by apply elem_of_nil in Hin].
    by eapply triangle_corners_on_face.
Qed.

(** X14.  Every vertex in the bucket of a side lies on the face of that side:
    in the record of a custom mesh baked without error, each position of the
    bucket of a side is within the tolerance 0.001 of the plane of that side. *)
Theorem side_vertices_on_face h this baked_data n bake_tangents arrays
    this' r (side : nat) (pos : Vector3f.t) :
  sides_enumerated ->
  has_mesh_arrays h this arrays ->
  bake h this baked_data n bake_tangents = Done (this', r, None) ->
  pos ∈ Model.side_positions (BakedData.model r) side ->
  (side < SIDE_COUNT)%nat /\ on_face side pos = true.
Proof.
  intros [_ Hlt] Hm Hrun Hpos.
  destruct (bake_custom_mesh_welded _ _ _ _ _ _ _ _ _ Hm Hrun eq_refl)
    as (l & ts & _ & Hb & Hr).
  rewrite Hr in Hpos. destruct (Hb (Some side)) as (_ & Hp & _).
  cbn [bucket_view side_view v_positions] in Hp. rewrite Hp in Hpos.
  apply list_elem_of_fmap in Hpos as (ref & -> & Href%firsts_subseteq).
  assert (Hon := corners_on_face _ _ _ Hlt Href).
  split; [|exact Hon]. by eapply on_face_lt.
Qed.

(** X15.  The bake of a mesh in range completes. When the number of indices is
    a multiple of 3, the normal array is not empty, every index is a position
    of the mesh, the mesh has a normal and a UV per position and four tangent
    floats per triangle if it has tangents that are baked, the bake returns,
    without an error. *)
Theorem bake_mesh_completes h this baked_data n bake_tangents arrays :
  has_mesh_arrays h this arrays ->
  Z.rem (Z.of_nat (length (packed (Mesh.ARRAY_INDEX arrays)))) 3 = 0 ->
  packed (Mesh.ARRAY_NORMAL arrays) <> [] ->
  mesh_in_range (mesh_source arrays) bake_tangents ->
  exists this' r,
    bake h this baked_data n bake_tangents = Done (this', r, None).
Proof.
  intros Hm Hrem Hn Hin.
  rewrite (bake_custom_mesh _ _ _ _ _ _ Hm). cbv zeta.
  change (indices (mesh_source arrays))
    with (packed (Mesh.ARRAY_INDEX arrays)) in *.
  change (normals (mesh_source arrays))
    with (packed (Mesh.ARRAY_NORMAL arrays)).
  rewrite Hrem. cbn [Z.eqb negb].
  rewrite bool_decide_eq_false_2
    by (by destruct (packed (Mesh.ARRAY_NORMAL arrays))).
  destruct (bake_triangles_complete (mesh_source arrays) bake_tangents
              (mk_locals empty_model (fun _ => ∅) ∅) Hin Hrem) as (l' & Hl).
  change (indices (mesh_source arrays))
    with (packed (Mesh.ARRAY_INDEX arrays)) in Hl.
  rewrite Hl. by eexists _, _.
Qed.

End More_bake_properties.

Section Cube_record.
Context `{FO : FloatOps} {EN : Engine} {CT : CubeTables} {MD : ModelDefaults}.

Lemma bake_cube_side_uvs_tangents config e s (m : Model.t) (side s0 : nat) :
  Model.side_tangents (bake_cube_side_uvs config e s true m s0) side
  = Model.side_tangents m side
    ++ (if decide (side = s0) then cube_side_tangents s0 else []).
Proof.
  unfold bake_cube_side_uvs.
  cbn [Model.side_tangents set_side_tangents set_side_uvs seq foldl].
  unfold upd. destruct (decide (side = s0)) as [->|Hne].
  - unfold cube_side_tangents. cbn [replicate concat].
    by rewrite <- !app_assoc.
  - by rewrite app_nil_r.
Qed.

Lemma bake_cube_sides_tangents config e s (ss : list nat) (m : Model.t)
    (side : nat) :
  NoDup ss ->
  Model.side_tangents (foldl (bake_cube_side_uvs config e s true) m ss) side
  = Model.side_tangents m side
    ++ (if bool_decide (side ∈ ss) then cube_side_tangents side else []).
Proof.
  intros Hnd. revert m. induction Hnd as [|s0 ss Hs0 _ IH]; intros m.
  - cbn. by rewrite app_nil_r.
  - cbn [foldl]. rewrite IH, bake_cube_side_uvs_tangents, <- app_assoc.
    f_equal. destruct (decide (side = s0)) as [->|Hne].
    + rewrite bool_decide_eq_false_2 by done.
      rewrite bool_decide_eq_true_2 by (apply elem_of_cons; auto).
      by rewrite app_nil_r.
    + cbn [app]. destruct (bool_decide (side ∈ ss)) eqn:Hin.
      * apply bool_decide_eq_true_1 in Hin.
        by rewrite bool_decide_eq_true_2 by (apply elem_of_cons; auto).
      * apply bool_decide_eq_false_1 in Hin.
        by rewrite bool_decide_eq_false_2 by (rewrite elem_of_cons; tauto).
Qed.

(** X16.  The record of a cube. A bake of a cube that completes reports no
    error; the interior bucket is empty, without positions, normals, UVs,
    indices or tangents; and when tangents are baked every side has the 16
    floats of its tangent in the table, repeated for each of its 4 vertices. *)
Theorem bake_cube_record h this baked_data n bake_tangents this' r err :
  _geometry_type this = GEOMETRY_CUBE ->
  bake h this baked_data n bake_tangents = Done (this', r, err) ->
  let m := BakedData.model r in
  err = None /\
  (Model.positions m = [] /\ Model.normals m = [] /\ Model.uvs m = [] /\
   Model.indices m = [] /\ Model.tangents m = []) /\
  forall side, (side < SIDE_COUNT)%nat ->
    Model.side_tangents m side
    = if bake_tangents then cube_side_tangents side else [].
Proof.
  intros Hg Hrun m. subst m. rewrite bake_eq, Hg in Hrun.
  apply obind_inv in Hrun as ([r0 e0] & Hcube & Hrun%Done_inj).
  injection Hrun as _ <- <-.
  apply ofmap_inv in Hcube as (r1 & Hcube & [= -> ->]). split; [done|].
  unfold bake_cube_geometry in Hcube. destruct (fle _ _); [done|].
  apply Done_inj in Hcube. subst r1.
  cbn [BakedData.model with_baked_empty with_model cleared_record].
  split.
  - match goal with
    | |- context [foldl (bake_cube_side_uvs ?c ?e ?s ?bt) ?m ?ss] =>
        destruct (bake_cube_sides_uvs c e s bt ss m 0%nat)
          as (_ & _ & _ & -> & -> & -> & -> & ->)
    end.
    by destruct (bake_cube_sides_geometry (seq 0 SIDE_COUNT) empty_model
                   0%nat) as (_ & _ & _ & _ & -> & -> & -> & -> & ->).
  - intros side Hside. destruct bake_tangents.
    + rewrite bake_cube_sides_tangents by apply NoDup_seq.
      destruct (bake_cube_sides_geometry (seq 0 SIDE_COUNT) empty_model
                  side) as (_ & _ & _ & -> & _).
      rewrite bool_decide_eq_true_2 by (apply elem_of_seq; lia). done.
    + rewrite bake_cube_sides_uvs_tangents.
      by destruct (bake_cube_sides_geometry (seq 0 SIDE_COUNT) empty_model
                     side) as (_ & _ & _ & -> & _).
Qed.

Lemma same_but_side_uvs_refl side m : same_but_side_uvs side m m.
Proof. split; [done|]. by intros b. Qed.

Lemma bake_cube_side_uvs_same c1 c2 e s bake_tangents m1 m2 side s0 :
  (forall s', s' <> side -> _cube_tiles c1 s' = _cube_tiles c2 s') ->
  same_but_side_uvs side m1 m2 ->
  same_but_side_uvs side (bake_cube_side_uvs c1 e s bake_tangents m1 s0)
    (bake_cube_side_uvs c2 e s bake_tangents m2 s0).
Proof.
  intros Htiles [Hn Hb]. unfold bake_cube_side_uvs. rewrite !fill_resize_4.
  split.
  { by destruct bake_tangents. }
  intros b. destruct (Hb b) as (Hp & Hi & Ht & Hu).
  pose proof (Hb (Some s0)) as (_ & _ & Ht0 & _). cbn in Ht0.
  split; [by destruct bake_tangents, b|].
  split; [by destruct bake_tangents, b|].
  split.
  - destruct bake_tangents, b as [sd|]; cbn in *; try done.
    unfold upd. destruct (decide (sd = s0)); [by rewrite Ht0|done].
  - intros Hne.
    assert (Hside : forall sd, sd <> side ->
      upd (Model.side_uvs m1) s0
        [Vector2f.scale (Vector2f.add (_cube_tiles c1 s0) (cube_uv e 0)) s;
         Vector2f.scale (Vector2f.add (_cube_tiles c1 s0) (cube_uv e 1)) s;
         Vector2f.scale (Vector2f.add (_cube_tiles c1 s0) (cube_uv e 2)) s;
         Vector2f.scale (Vector2f.add (_cube_tiles c1 s0) (cube_uv e 3)) s]
        sd
      = upd (Model.side_uvs m2) s0
        [Vector2f.scale (Vector2f.add (_cube_tiles c2 s0) (cube_uv e 0)) s;
         Vector2f.scale (Vector2f.add (_cube_tiles c2 s0) (cube_uv e 1)) s;
         Vector2f.scale (Vector2f.add (_cube_tiles c2 s0) (cube_uv e 2)) s;
         Vector2f.scale (Vector2f.add (_cube_tiles c2 s0) (cube_uv e 3)) s]
        sd).
    { intros sd Hsd. unfold upd. destruct (decide (sd = s0)) as [->|Hsd0].
      - by rewrite (Htiles s0 Hsd).
      - apply (proj2 (proj2 (proj2 (Hb (Some sd))))). congruence. }
    destruct bake_tangents, b as [sd|]; cbn in *;
      try (apply Hside; congruence); by apply Hu.
Qed.

Lemma bake_cube_sides_uvs_same c1 c2 e s bake_tangents ss m1 m2 side :
  (forall s', s' <> side -> _cube_tiles c1 s' = _cube_tiles c2 s') ->
  same_but_side_uvs side m1 m2 ->
  same_but_side_uvs side
    (foldl (bake_cube_side_uvs c1 e s bake_tangents) m1 ss)
    (foldl (bake_cube_side_uvs c2 e s bake_tangents) m2 ss).
Proof.
  intros Htiles. revert m1 m2. induction ss as [|s0 ss IH]; intros m1 m2 Hm.
  - exact Hm.
  - cbn [foldl]. apply IH. by apply bake_cube_side_uvs_same.
Qed.

(** X10.  Baking again after a change of the tile of one side changes the UVs
    of that side and nothing else: the bake completes as it did, with the same
    error if any, and every bucket has the positions, indices and tangents,
    the interior bucket the normals, and every other bucket the UVs it had; so
    have the material id, the transparency index, the color and the emptiness.
    For a geometry that is not a cube no UV changes. *)
Theorem tile_change_rebake h this baked_data n bake_tangents (side : nat)
    (tile_pos : Vector2f.t) this' r err :
  bake h this baked_data n bake_tangents = Done (this', r, err) ->
  exists this2 r2,
    bake h (set_cube_uv_side side tile_pos this) baked_data n bake_tangents
      = Done (this2, r2, err) /\
    this2 = set_cube_uv_side side tile_pos this' /\
    BakedData.empty r2 = BakedData.empty r /\
    BakedData.material_id r2 = BakedData.material_id r /\
    BakedData.transparency_index r2 = BakedData.transparency_index r /\
    BakedData.color r2 = BakedData.color r /\
    same_but_side_uvs side (BakedData.model r2) (BakedData.model r) /\
    (_geometry_type this <> GEOMETRY_CUBE -> r2 = r).
Proof.
  intros Hrun. rewrite bake_eq in Hrun. rewrite bake_eq.
  change (_geometry_type (set_cube_uv_side side tile_pos this))
    with (_geometry_type this).
  change (cleared_record (set_cube_uv_side side tile_pos this))
    with (cleared_record this).
  destruct (_geometry_type this) eqn:Hg.
  - apply Done_inj in Hrun. injection Hrun as <- <- <-.
    eexists _, _. split; [reflexivity|]. repeat split; try done.
    all: by intros b.
  - apply obind_inv in Hrun as ([r0 e0] & Hcube & Hrun%Done_inj).
    injection Hrun as <- <- <-.
    apply ofmap_inv in Hcube as (r1 & Hcube & [= -> ->]).
    unfold bake_cube_geometry in Hcube |- *. destruct (fle _ _); [done|].
    apply Done_inj in Hcube. subst r1.
    eexists _, _. split; [reflexivity|].
    cbn [BakedData.empty BakedData.material_id BakedData.transparency_index
         BakedData.color BakedData.model with_baked_empty with_model].
    do 5 (split; [reflexivity|]). split; [|intros Hne; by destruct Hne].
    apply bake_cube_sides_uvs_same; [|apply same_but_side_uvs_refl].
    intros s' Hs'. cbn [_cube_tiles set_cube_uv_side]. by rewrite upd_other.
  - change (bake_mesh_geometry h (set_cube_uv_side side tile_pos this))
      with (bake_mesh_geometry h this).
    apply obind_inv in Hrun as ([r0 e0] & -> & Hrun%Done_inj).
    injection Hrun as <- <- <-.
    eexists _, _. split; [reflexivity|]. repeat split; try done.
    all: by intros b.
  - apply Done_inj in Hrun. injection Hrun as <- <- <-.
    eexists _, _. split; [reflexivity|]. repeat split; try done.
    all: by intros b.
Qed.

End Cube_record.

Section Generated_tangents.
Context `{FO : FloatOps} {EN : Engine} {CT : CubeTables} {MD : ModelDefaults}.

Lemma compute_tangent_handedness src i0 i1 i2 ps t :
  compute_tangent src i0 i1 i2 ps = Done t -> tangent_with_handedness t.
Proof.
  unfold compute_tangent. destruct ps as [[p0 p1] p2]. intros H.
  do 4 (apply obind_inv in H as (? & _ & H)).
  apply Done_inj in H. subst t. eexists _, _, _, _. split; [reflexivity|].
  destruct (flt _ _); auto.
Qed.

Lemma read_triangle_handedness src i tri :
  read_triangle src true i = Done tri ->
  tangents src = [] -> tangent_with_handedness (tri_tangent tri).
Proof.
  unfold read_triangle. intros H Ht.
  apply obind_inv in H as (i0 & _ & H).
  apply obind_inv in H as (i1 & _ & H).
  apply obind_inv in H as (i2 & _ & H).
  apply obind_inv in H as (p0 & _ & H).
  apply obind_inv in H as (p1 & _ & H).
  apply obind_inv in H as (p2 & _ & H).
  apply obind_inv in H as (tangent & Htan & H).
  apply Done_inj in H. subst tri. cbn [tri_tangent].
  rewrite Ht in Htan. cbn [length] in Htan.
  rewrite bool_decide_eq_true_2 in Htan by done. cbn [andb] in Htan.
  by eapply compute_tangent_handedness.
Qed.

Lemma corners_handedness src starts ts b ref :
  triangles_read src true starts ts ->
  ref ∈ corners b ts ->
  tangents src = [] -> tangent_with_handedness (c_tangent ref).
Proof.
  unfold triangles_read, corners. induction 1 as [|i tri starts ts Hr _ IH].
  - by intros ?%elem_of_nil.
  - cbn [mbind list_bind]. rewrite elem_of_app. intros [Hin|Hin]; [|auto].
    destruct (decide (triangle_side tri = b)); [|by apply elem_of_nil in Hin].
    unfold triangle_corners in Hin.
    apply list_elem_of_fmap in Hin as (v & -> & _). cbn [c_tangent].
    by eapply read_triangle_handedness.
Qed.

Lemma vertex_tangent_generated src tangent i :
  tangents src = [] -> vertex_tangent src true tangent i = Done tangent.
Proof. intros Ht. unfold vertex_tangent. by rewrite Ht. Qed.

Lemma fmap_Done_inj {A} (l1 l2 : list A) :
  Done <$> l1 = Done <$> l2 -> l1 = l2.
Proof.
  revert l2. induction l1 as [|a l1 IH]; intros [|b l2] H; try done.
  injection H as -> H. f_equal. by apply IH.
Qed.

(** X17.  Tangents the baker generates. When tangents are baked from a mesh
    that has none, every vertex of every bucket gets four floats, the fourth
    of which is 1 or -1, whatever the UVs and the normals of the mesh. *)
Theorem generated_tangents h this baked_data n arrays this' r :
  has_mesh_arrays h this arrays ->
  packed (Mesh.ARRAY_TANGENT arrays) = [] ->
  bake h this baked_data n true = Done (this', r, None) ->
  forall b,
    exists tl : list (list float),
      bucket_tangents b (BakedData.model r) = concat tl /\
      length tl = length (bucket_positions b (BakedData.model r)) /\
      Forall tangent_with_handedness tl.
Proof.
  intros Hm Htan Hrun b.
  destruct (bake_custom_mesh_welded _ _ _ _ _ _ _ _ _ Hm Hrun eq_refl)
    as (l & ts & Hts & Hb & ->).
  destruct (Hb b) as (_ & Hp & _ & _ & (tl & Hcat & Htl) & _).
  rewrite <- bucket_view_tangents, <- bucket_view_positions.
  exists tl. split; [exact Hcat|].
  assert (Hsrc : tangents (mesh_source arrays) = []) by exact Htan.
  assert (Heq : tl = c_tangent <$> firsts (corners b ts)).
  { apply fmap_Done_inj. rewrite Htl, <- list_fmap_compose.
    apply Forall_fmap_ext_1, Forall_forall. intros ref _.
    unfold compose. by rewrite vertex_tangent_generated. }
  split.
  - by rewrite Heq, Hp, !length_fmap.
  - rewrite Heq. apply Forall_fmap, Forall_forall. intros ref Href. cbn.
    apply firsts_subseteq in Href. by eapply corners_handedness.
Qed.

End Generated_tangents.

Section Duplicate_properties.
Context `{FO : FloatOps} {EN : Engine} {CT : CubeTables} {MD : ModelDefaults}.

Lemma baked_bake h this baked_data n bake_tangents :
  baked (bake h this baked_data n bake_tangents) =
  match _geometry_type this with
  | GEOMETRY_NONE => Done (cleared_record this, None)
  | GEOMETRY_CUBE =>
      (fun b => (b, None)) <$>
        bake_cube_geometry this (cleared_record this) n bake_tangents
  | GEOMETRY_CUSTOM_MESH =>
      bake_mesh_geometry h this (cleared_record this) bake_tangents
  | GEOMETRY_MAX => Done (cleared_record this, Some ERR_UNKNOWN_GEOMETRY)
  end.
Proof.
  rewrite bake_eq. unfold baked. destruct (_geometry_type this).
  - reflexivity.
  - by destruct (bake_cube_geometry _ _ _ _).
  - by destruct (bake_mesh_geometry _ _ _ _) as [[? ?]|].
  - reflexivity.
Qed.

(** X18.  A copy bakes as its original. When the mesh reference of the model
    is null or the address of a mesh, the model [duplicate] returns, baked in
    the heap [duplicate] leaves, gives the record and the error that the
    original gives, or crashes as the original does; with or without
    [p_subresources]. *)
Theorem duplicate_bakes_same (p_subresources : bool)
    (m : VoxelBlockyModel.t) (h : MeshHeap) baked_data n bake_tangents :
  (forall a, _custom_mesh m = Some a -> is_Some (h !! a)) ->
  let d := (duplicate p_subresources m h).1 in
  let h' := (duplicate p_subresources m h).2 in
  baked (bake h' d baked_data n bake_tangents)
  = baked (bake h m baked_data n bake_tangents).
Proof.
  intros Hvalid d h'. subst d h'. rewrite !baked_bake. unfold duplicate.
  cbn [_custom_mesh with_id VoxelBlockyModel_new _id _collision_mask].
  destruct p_subresources.
  2:{ cbn [fst snd _geometry_type]. by destruct (_geometry_type m). }
  destruct (_custom_mesh m) as [a|] eqn:Hmesh.
  2:{ cbn [fst snd _geometry_type].
      destruct (_geometry_type m); try reflexivity.
      unfold bake_mesh_geometry. cbn [_custom_mesh]. by rewrite Hmesh. }
  destruct (Hvalid a eq_refl) as [mesh Ha].
  unfold Mesh_duplicate. rewrite Ha. cbn [fst snd].
  cbn [_geometry_type with_custom_mesh].
  destruct (_geometry_type m); try reflexivity.
  unfold bake_mesh_geometry. cbn [_custom_mesh with_custom_mesh].
  rewrite Hmesh, lookup_insert_eq, Ha. reflexivity.
Qed.

(** X19.  [duplicate] does not copy the collision mask: the copy has the mask
    of a new model, whatever the mask of the original. *)
Theorem duplicate_collision_mask (p_subresources : bool)
    (m : VoxelBlockyModel.t) (h : MeshHeap) :
  _collision_mask (duplicate p_subresources m h).1
  = _collision_mask VoxelBlockyModel_new.
Proof.
  unfold duplicate. destruct p_subresources; [|reflexivity].
  cbn [_custom_mesh with_id VoxelBlockyModel_new].
  destruct (_custom_mesh m) as [a|]; [|reflexivity].
  by destruct (Mesh_duplicate h a).
Qed.

End Duplicate_properties.

Section Counting.
Context `{FO : FloatOps} {EN : Engine} {CT : CubeTables} {MD : ModelDefaults}.

(** X22.  A bake that reports an error leaves no geometry: every bucket of the
    record is empty, whatever the error and the geometry. The model has the
    emptiness of the record, and the record is marked empty too, unless the
    error is that of missing normals. *)
Theorem bake_error_leaves_no_geometry h this baked_data n bake_tangents
    this' r (e : BakeError) :
  bake h this baked_data n bake_tangents = Done (this', r, Some e) ->
  no_geometry (BakedData.model r) /\
  _empty this' = BakedData.empty r /\
  (e <> ERR_NO_NORMALS -> BakedData.empty r = true).
Proof.
  intros Hrun. rewrite bake_eq in Hrun.
  apply obind_inv in Hrun as ([r0 e0] & Hgeo & Hrun%Done_inj).
  injection Hrun as <- <- ->. split; [|split; [reflexivity|]].
  - destruct (_geometry_type this).
    + by apply Done_inj in Hgeo.
    + by apply ofmap_inv in Hgeo as (r1 & _ & [= _ ?]).
    + unfold bake_mesh_geometry in Hgeo.
      destruct (_custom_mesh this) as [a|];
        [|by apply Done_inj in Hgeo].
      destruct (h !! a) as [mesh|]; [|done].
      destruct (Mesh.surface_get_arrays_0 mesh) as [arrays|].
      2:{ apply Done_inj in Hgeo. injection Hgeo as <- _.
          apply no_geometry_empty_model. }
      destruct (negb _).
      { apply Done_inj in Hgeo. injection Hgeo as <- _.
        apply no_geometry_empty_model. }
      destruct (bool_decide (length (packed (Mesh.ARRAY_NORMAL arrays)) = _)).
      { apply Done_inj in Hgeo. injection Hgeo as <- _.
        apply no_geometry_empty_model. }
      by apply obind_inv in Hgeo as (l & _ & [= _ ?]%Done_inj).
    + apply Done_inj in Hgeo. injection Hgeo as <- _.
      apply no_geometry_empty_model.
  - intros Hne. destruct (_geometry_type this).
    + by apply Done_inj in Hgeo.
    + by apply ofmap_inv in Hgeo as (r1 & _ & [= _ ?]).
    + unfold bake_mesh_geometry in Hgeo.
      destruct (_custom_mesh this) as [a|];
        [|by apply Done_inj in Hgeo].
      destruct (h !! a) as [mesh|]; [|done].
      destruct (Mesh.surface_get_arrays_0 mesh) as [arrays|].
      2:{ apply Done_inj in Hgeo. by injection Hgeo as <- _. }
      destruct (negb _).
      { apply Done_inj in Hgeo. by injection Hgeo as <- _. }
      destruct (bool_decide (length (packed (Mesh.ARRAY_NORMAL arrays)) = _)).
      { apply Done_inj in Hgeo. injection Hgeo as _ He. congruence. }
      by apply obind_inv in Hgeo as (l & _ & [= _ ?]%Done_inj).
    + apply Done_inj in Hgeo. by injection Hgeo as <- _.
Qed.

Lemma get_triangle_side_lt (a b c : Vector3f.t) (side : nat) :
  get_triangle_side a b c = Some side -> (side < SIDE_COUNT)%nat.
Proof.
  unfold get_triangle_side. destruct (_ =? 0); [done|].
  intros Hfind. apply find_some in Hfind as [Hin _].
  apply in_seq in Hin. lia.
Qed.

Lemma triangle_side_lt (tri : Triangle) (side : nat) :
  triangle_side tri = Some side -> (side < SIDE_COUNT)%nat.
Proof.
  unfold triangle_side. destruct (tri_positions tri) as [[p0 p1] p2].
  apply get_triangle_side_lt.
Qed.

Lemma corners_total (ts : list Triangle) :
  (length (corners None ts)
   + sum_list ((fun side => length (corners (Some side) ts))
                 <$> seq 0 SIDE_COUNT))%nat
  = (3 * length ts)%nat.
Proof.
  induction ts as [|tri ts IH]; [reflexivity|].
  cbn [seq SIDE_COUNT fmap list_fmap sum_list sum_list_with] in IH |- *.
  unfold corners, id in IH |- *. cbn [mbind list_bind length].
  rewrite !length_app.
  pose proof (triangle_corners_length tri) as H3.
  destruct (triangle_side tri) as [side|] eqn:Hs.
  - apply triangle_side_lt in Hs. unfold SIDE_COUNT in Hs.
    do 6 (destruct side as [|side];
          [repeat case_decide; try congruence; cbn [length]; lia|]).
    lia.
  - repeat case_decide; try congruence; cbn [length]; lia.
Qed.

Lemma triangle_starts_length (n : nat) :
  Z.rem (Z.of_nat n) 3 = 0 -> (3 * length (triangle_starts n) = n)%nat.
Proof.
  intros Hrem. unfold triangle_starts. rewrite length_fmap, length_seq.
  apply Z.rem_divide in Hrem as [q Hq]; [|lia].
  assert (Hn : n = (Z.to_nat q * 3)%nat) by lia.
  rewrite Hn. rewrite Nat.div_add_l by lia.
  change (2 / 3)%nat with 0%nat. lia.
Qed.

(** X23.  No triangle is lost and none is baked twice: in the record of a
    custom mesh baked without error, the buckets hold together as many indices
    as the mesh has. *)
Theorem bake_keeps_triangles h this baked_data n bake_tangents arrays
    this' r :
  has_mesh_arrays h this arrays ->
  bake h this baked_data n bake_tangents = Done (this', r, None) ->
  index_count (BakedData.model r)
  = length (packed (Mesh.ARRAY_INDEX arrays)).
Proof.
  intros Hm Hrun.
  assert (Hrem : Z.rem (Z.of_nat (length (packed (Mesh.ARRAY_INDEX arrays))))
                   3 = 0).
  { pose proof Hrun as Hrun'.
    rewrite (bake_custom_mesh _ _ _ _ _ _ Hm) in Hrun'. cbv zeta in Hrun'.
    change (indices (mesh_source arrays))
      with (packed (Mesh.ARRAY_INDEX arrays)) in Hrun'.
    destruct (Z.rem _ 3 =? 0) eqn:Hz; [by apply Z.eqb_eq in Hz|].
    cbn [negb] in Hrun'. by apply Done_inj in Hrun'. }
  destruct (bake_custom_mesh_welded _ _ _ _ _ _ _ _ _ Hm Hrun eq_refl)
    as (l & ts & Hts & Hb & ->).
  change (indices (mesh_source arrays))
    with (packed (Mesh.ARRAY_INDEX arrays)) in Hts.
  apply Forall2_length in Hts.
  rewrite <- (triangle_starts_length _ Hrem), Hts, <- corners_total.
  unfold index_count. f_equal.
  - rewrite <- (welded_length_indices _ _ _ _ _ (Hb None)). reflexivity.
  - f_equal. apply Forall_fmap_ext_1, Forall_forall. intros side _.
    rewrite <- (welded_length_indices _ _ _ _ _ (Hb (Some side))).
    reflexivity.
Qed.

Lemma NoDup_bounded_length (l : list Z) (n : nat) :
  NoDup l -> Forall (fun k => 0 <= k < Z.of_nat n) l -> (length l <= n)%nat.
Proof.
  intros Hnd Hl.
  assert (Hsub : l ⊆+ (Z.of_nat <$> seq 0 n)).
  { apply NoDup_submseteq; [done|]. intros k Hk.
    rewrite Forall_forall in Hl. specialize (Hl k Hk).
    apply list_elem_of_fmap. exists (Z.to_nat k). split; [lia|].
    apply elem_of_seq. lia. }
  apply submseteq_length in Hsub. by rewrite length_fmap, length_seq in Hsub.
Qed.

(** X24.  Welding never makes vertices: in the record of a custom mesh baked
    without error, no bucket has more vertices than the mesh has positions. *)
Theorem bake_vertices_bounded h this baked_data n bake_tangents arrays
    this' r :
  has_mesh_arrays h this arrays ->
  bake h this baked_data n bake_tangents = Done (this', r, None) ->
  forall b,
    (length (bucket_positions b (BakedData.model r))
     <= length (packed (Mesh.ARRAY_VERTEX arrays)))%nat.
Proof.
  intros Hm Hrun b.
  destruct (bake_custom_mesh_welded _ _ _ _ _ _ _ _ _ Hm Hrun eq_refl)
    as (l & ts & Hts & Hb & ->).
  rewrite <- bucket_view_positions.
  rewrite (welded_length_positions _ _ _ _ _ (Hb b)).
  rewrite <- (length_fmap c_src).
  apply NoDup_bounded_length; [apply firsts_srcs|].
  apply Forall_fmap, Forall_forall. intros ref Href%firsts_subseteq. cbn.
  pose proof (corners_positions _ _ _ _ _ _ Hts Href) as Hpos.
  change (positions (mesh_source arrays))
    with (packed (Mesh.ARRAY_VERTEX arrays)) in Hpos.
  unfold packed_get in Hpos. destruct (0 <=? c_src ref) eqn:H0; [|done].
  apply Z.leb_le in H0.
  destruct (packed (Mesh.ARRAY_VERTEX arrays) !! Z.to_nat (c_src ref))
    eqn:Hl; [|done].
  apply lookup_lt_Some in Hl. lia.
Qed.

End Counting.

(** ** Comparisons of vectors *)

Section Vector_order.
Context `{FE : FloatEq}.

Lemma Vector3f_lt_irrefl (a : Vector3f.t) :
  float_order -> Vector3fCompare.lt a a = false.
Proof.
  intros (_ & _ & _ & _ & _ & _ & Hasym). unfold Vector3fCompare.lt.
  assert (Hirr : forall x, flt x x = false).
  { intros x. destruct (flt x x) eqn:Hx; [|done]. by rewrite (Hasym x x Hx) in Hx. }
  destruct (feq (Vector3f.x a) (Vector3f.x a));
    [destruct (feq (Vector3f.y a) (Vector3f.y a))|]; apply Hirr.
Qed.

(** X20.  [operator<] is a strict order, NaN or not, when [<] and [==] on
    floats are those of IEEE 754: no vector is below itself, two vectors are
    never below each other, and the order is transitive. It is kept by
    [operator==]: of two vectors that compare equal, each is below what the
    other is below, and neither is below the other. *)
Theorem Vector3f_lt_strict_order :
  float_order ->
  (forall a, Vector3fCompare.lt a a = false) /\
  (forall a b, Vector3fCompare.lt a b = true -> Vector3fCompare.lt b a = false) /\
  (forall a b c, Vector3fCompare.lt a b = true -> Vector3fCompare.lt b c = true -> Vector3fCompare.lt a c = true) /\
  (forall a b c, Vector3fCompare.eq a b = true -> Vector3fCompare.lt a c = Vector3fCompare.lt b c /\ Vector3fCompare.lt c a = Vector3fCompare.lt c b) /\
  (forall a b, Vector3fCompare.eq a b = true -> Vector3fCompare.lt a b = false).
Proof.
  intros Hord. pose proof Hord as (Hsym & Htr & Hlt & Hel & Hle & Hne & Hasym).
  assert (Hirr : forall x, flt x x = false).
  { intros x. destruct (flt x x) eqn:Hx; [|done].
    by rewrite (Hasym x x Hx) in Hx. }
  assert (Heql : forall x y z, feq x y = true -> flt x z = flt y z).
  { intros x y z Hxy. destruct (flt y z) eqn:Hyz.
    - by eapply Hel.
    - destruct (flt x z) eqn:Hxz; [|done].
      rewrite Hsym in Hxy. by rewrite (Hel _ _ _ Hxy Hxz) in Hyz. }
  assert (Heqr : forall x y z, feq x y = true -> flt z x = flt z y).
  { intros x y z Hxy. destruct (flt z y) eqn:Hzy.
    - rewrite Hsym in Hxy. by eapply Hle.
    - destruct (flt z x) eqn:Hzx; [|done].
      by rewrite (Hle _ _ _ Hzx Hxy) in Hzy. }
  assert (Heqe : forall x y z, feq x y = true -> feq x z = feq y z).
  { intros x y z Hxy. destruct (feq y z) eqn:Hyz.
    - by eapply Htr.
    - destruct (feq x z) eqn:Hxz; [|done].
      rewrite Hsym in Hxy. by rewrite (Htr _ _ _ Hxy Hxz) in Hyz. }
  split; [|split; [|split; [|split]]].
  - intros a. by apply Vector3f_lt_irrefl.
  - intros [ax ay az] [bx by_ bz]. unfold Vector3fCompare.lt. cbn.
    rewrite (Hsym bx ax), (Hsym by_ ay).
    destruct (feq ax bx), (feq ay by_); by apply Hasym.
  - intros [ax ay az] [bx by_ bz] [cx cy cz]. unfold Vector3fCompare.lt. cbn.
    destruct (feq ax bx) eqn:Hx1.
    + rewrite (Heqe _ _ cx Hx1), (Heql _ _ cx Hx1).
      destruct (feq bx cx); [|done].
      destruct (feq ay by_) eqn:Hy1.
      * rewrite (Heqe _ _ cy Hy1), (Heql _ _ cy Hy1).
        destruct (feq by_ cy); [|done]. apply Hlt.
      * intros Hab. destruct (feq by_ cy) eqn:Hy2.
        -- intros _. rewrite (Hne _ _ (Hle _ _ _ Hab Hy2)). by eapply Hle.
        -- intros Hbc. rewrite (Hne _ _ (Hlt _ _ _ Hab Hbc)). by eapply Hlt.
    + intros Hab. destruct (feq bx cx) eqn:Hx2.
      * intros _. rewrite (Hne _ _ (Hle _ _ _ Hab Hx2)). by eapply Hle.
      * intros Hbc. rewrite (Hne _ _ (Hlt _ _ _ Hab Hbc)). by eapply Hlt.
  - intros [ax ay az] [bx by_ bz] [cx cy cz]. unfold Vector3fCompare.eq, Vector3fCompare.lt. cbn.
    intros [[Hx Hy]%andb_prop Hz]%andb_prop.
    rewrite (Heqe _ _ cx Hx), (Heqe _ _ cy Hy), (Heql _ _ cx Hx),
      (Heql _ _ cy Hy), (Heql _ _ cz Hz).
    split; [done|].
    rewrite (Hsym cx ax), (Hsym cx bx), (Hsym cy ay), (Hsym cy by_).
    rewrite (Heqe _ _ cx Hx), (Heqe _ _ cy Hy), (Heqr _ _ cx Hx),
      (Heqr _ _ cy Hy), (Heqr _ _ cz Hz). done.
  - intros [ax ay az] [bx by_ bz]. unfold Vector3fCompare.eq, Vector3fCompare.lt. cbn.
    intros [[Hx Hy]%andb_prop Hz]%andb_prop. rewrite Hx, Hy.
    destruct (flt az bz) eqn:Hlz; [|done]. by rewrite (Hne _ _ Hlz) in Hz.
Qed.

(** X21.  [operator==] and [operator!=] are complementary; [operator==] is
    symmetric and transitive. *)
Theorem Vector3f_eq_ne :
  float_order ->
  (forall a b, Vector3fCompare.ne a b = negb (Vector3fCompare.eq a b)) /\
  (forall a b, Vector3fCompare.eq a b = Vector3fCompare.eq b a) /\
  (forall a b c, Vector3fCompare.eq a b = true -> Vector3fCompare.eq b c = true -> Vector3fCompare.eq a c = true).
Proof.
  intros (Hsym & Htr & _). split; [|split].
  - intros a b. unfold Vector3fCompare.ne, Vector3fCompare.eq. by rewrite !negb_andb.
  - intros a b. unfold Vector3fCompare.eq.
    by rewrite (Hsym (Vector3f.x a)), (Hsym (Vector3f.y a)),
      (Hsym (Vector3f.z a)).
  - intros a b c. unfold Vector3fCompare.eq.
    intros [[Hx Hy]%andb_prop Hz]%andb_prop
           [[Hx' Hy']%andb_prop Hz']%andb_prop.
    by rewrite (Htr _ _ _ Hx Hx'), (Htr _ _ _ Hy Hy'), (Htr _ _ _ Hz Hz').
Qed.

End Vector_order.

(** ** The comparisons of binary64 *)

Lemma SFcompare_key (x y : spec_float) :
  SFcompare x y =
  match SFkey x, SFkey y with
  | Some kx, Some ky => Some (lex_compare kx ky)
  | _, _ => None
  end.
Proof.
  destruct x as [sx|sx| |sx mx ex], y as [sy|sy| |sy my ey];
    try destruct sx; try destruct sy; try reflexivity.
  cbn. rewrite Z.compare_opp, (Z.compare_antisym ex ey).
  by destruct (ex ?= ey).
Qed.

Lemma lex_compare_Lt (k1 k2 : Z * Z * Z) :
  lex_compare k1 k2 = Lt <->
  k1.1.1 < k2.1.1 \/
  (k1.1.1 = k2.1.1 /\
   (k1.1.2 < k2.1.2 \/ (k1.1.2 = k2.1.2 /\ k1.2 < k2.2))).
Proof.
  unfold lex_compare.
  destruct (Z.compare_spec k1.1.1 k2.1.1);
    [destruct (Z.compare_spec k1.1.2 k2.1.2);
       [destruct (Z.compare_spec k1.2 k2.2)|..]|..];
    split; intros; try discriminate; try reflexivity; lia.
Qed.

Lemma lex_compare_Eq (k1 k2 : Z * Z * Z) :
  lex_compare k1 k2 = Eq <-> k1 = k2.
Proof.
  unfold lex_compare. destruct k1 as [[a1 b1] c1], k2 as [[a2 b2] c2].
  cbn [fst snd].
  destruct (Z.compare_spec a1 a2);
    [destruct (Z.compare_spec b1 b2);
       [destruct (Z.compare_spec c1 c2)|..]|..];
    split; intros H'; try discriminate; try reflexivity;
    try (injection H' as -> -> ->); subst; try lia; reflexivity.
Qed.

Lemma SFltb_key (x y : spec_float) :
  SFltb x y = true <->
  exists kx ky, SFkey x = Some kx /\ SFkey y = Some ky /\
                lex_compare kx ky = Lt.
Proof.
  unfold SFltb. rewrite SFcompare_key. split.
  - destruct (SFkey x) as [kx|]; [|discriminate].
    destruct (SFkey y) as [ky|]; [|discriminate].
    destruct (lex_compare kx ky) eqn:Hc; try discriminate.
    intros _. by exists kx, ky.
  - intros (kx & ky & -> & -> & ->). reflexivity.
Qed.

Lemma SFeqb_key (x y : spec_float) :
  SFeqb x y = true <->
  exists k, SFkey x = Some k /\ SFkey y = Some k.
Proof.
  unfold SFeqb. rewrite SFcompare_key. split.
  - destruct (SFkey x) as [kx|]; [|discriminate].
    destruct (SFkey y) as [ky|]; [|discriminate].
    destruct (lex_compare kx ky) eqn:Hc; try discriminate.
    apply lex_compare_Eq in Hc as ->. intros _. by exists ky.
  - intros (k & -> & ->).
    by rewrite (proj2 (lex_compare_Eq k k) eq_refl).
Qed.

Lemma binary64_float_order : @float_order Binary64 Binary64Eq.
Proof.
  unfold float_order. cbn [feq flt Binary64Eq Binary64 float].
  assert (Hltb : forall x y, PrimFloat.ltb x y = true <->
    exists kx ky, SFkey (Prim2SF x) = Some kx /\ SFkey (Prim2SF y) = Some ky /\
                  lex_compare kx ky = Lt).
  { intros x y. pose proof (FloatAxioms.ltb_spec x y) as Hs.
    split; intros H; [apply SFltb_key; congruence|].
    apply SFltb_key in H. congruence. }
  assert (Heqb : forall x y, PrimFloat.eqb x y = true <->
    exists k, SFkey (Prim2SF x) = Some k /\ SFkey (Prim2SF y) = Some k).
  { intros x y. pose proof (FloatAxioms.eqb_spec x y) as Hs.
    split; intros H; [apply SFeqb_key; congruence|].
    apply SFeqb_key in H. congruence. }
  assert (Hfalse : forall b, (b = true -> False) -> b = false).
  { intros [|] Hb; [by destruct Hb|done]. }
  repeat split.
  - intros x y. destruct (PrimFloat.eqb y x) eqn:Hyx.
    + apply Heqb in Hyx as (k & Hy & Hx). apply Heqb. by exists k.
    + apply Hfalse. intros (k & Hx & Hy)%Heqb.
      assert (PrimFloat.eqb y x = true) by (apply Heqb; by exists k).
      congruence.
  - intros x y z (k & Hx & Hy)%Heqb (k' & Hy' & Hz)%Heqb.
    apply Heqb. exists k. split; [done|]. congruence.
  - intros x y z (kx & ky & Hx & Hy & H1)%Hltb (ky' & kz & Hy' & Hz & H2)%Hltb.
    apply Hltb. exists kx, kz. split; [done|]. split; [done|].
    assert (ky' = ky) as -> by congruence.
    apply lex_compare_Lt in H1, H2. apply lex_compare_Lt. lia.
  - intros x y z (k & Hx & Hy)%Heqb (ky' & kz & Hy' & Hz & H2)%Hltb.
    apply Hltb. exists k, kz. split; [done|]. split; [done|]. congruence.
  - intros x y z (kx & ky & Hx & Hy & H1)%Hltb (k & Hy' & Hz)%Heqb.
    apply Hltb. exists kx, k. split; [done|]. split; [done|]. congruence.
  - intros x y (kx & ky & Hx & Hy & H1)%Hltb.
    apply Hfalse. intros (k & Hx' & Hy')%Heqb.
    assert (kx = k) as -> by congruence. assert (ky = k) as -> by congruence.
    apply lex_compare_Lt in H1. lia.
  - intros x y (kx & ky & Hx & Hy & H1)%Hltb.
    apply Hfalse. intros (ky' & kx' & Hy' & Hx' & H2)%Hltb.
    assert (kx' = kx) as -> by congruence.
    assert (ky' = ky) as -> by congruence.
    apply lex_compare_Lt in H1, H2. lia.
Qed.

(** ** The other methods on the example inputs *)

Section More_evaluation.
#[local] Existing Instance Binary64.
#[local] Existing Instance PlainEngine.
#[local] Existing Instance UnitCube.
#[local] Existing Instance PlainDefaults.
#[local] Existing Instance PlainLimits.
#[local] Existing Instance NamedSides.
#[local] Existing Instance PlainVariants.
#[local] Existing Instance Binary64Eq.

(** A new model takes the id 7, and then no other. *)
Lemma set_id_once_witness :
  (set_id 7 VoxelBlockyModel_new).2 = None /\
  _id (set_id 7 VoxelBlockyModel_new).1 = 7 /\
  (set_id 8 (set_id 7 VoxelBlockyModel_new).1).1
  = (set_id 7 VoxelBlockyModel_new).1.
Proof.
  assert (Hok : (set_id 7 VoxelBlockyModel_new).2 = None) by reflexivity.
  split; [exact Hok|].
  destruct (set_id_once 7 8 VoxelBlockyModel_new ltac:(lia) Hok)
    as (_ & Hid & _ & Hkeep & _).
  split; [exact Hid|exact Hkeep].
Defined.

(** The copy of a model with the id 7 takes the id 8. *)
Lemma duplicate_set_id_witness :
  _id (set_id 7 (mesh_model 0)).1 = 7 /\
  set_id 8 (duplicate true (set_id 7 (mesh_model 0)).1 example_heap).1
  = (with_id 8
       (duplicate true (set_id 7 (mesh_model 0)).1 example_heap).1, None).
Proof.
  split; [reflexivity|].
  apply (duplicate_set_id true (set_id 7 (mesh_model 0)).1 example_heap 8);
    [vm_compute; split; congruence|lia].
Defined.

Lemma example_calls_typed : Forall typed example_calls.
Proof. repeat constructor; cbn; lia. Defined.

(** The calls of [example_calls] leave the id 7, the material id 0 and the
    transparency index 255. *)
Lemma setters_keep_bounds_witness :
  Forall typed example_calls /\
  _id (foldl invoke VoxelBlockyModel_new example_calls) = 7 /\
  _material_id (foldl invoke VoxelBlockyModel_new example_calls) = 0 /\
  _transparency_index (foldl invoke VoxelBlockyModel_new example_calls)
    = 255 /\
  in_bounds (foldl invoke VoxelBlockyModel_new example_calls).
Proof.
  split; [exact example_calls_typed|].
  split; [reflexivity|]. split; [reflexivity|]. split; [reflexivity|].
  apply setters_keep_bounds; [reflexivity|exact example_calls_typed].
Defined.

Lemma plain_variant_round_trip (v : PlainVariant) :
  Variant_is_AABB v = true -> Variant_of_AABB (Variant_to_AABB v) = v.
Proof. destruct v; cbn; congruence. Defined.

(** Two boxes set on a cube, which had one. *)
Lemma set_collision_aabbs_round_trip_witness :
  forallb Variant_is_AABB example_boxes = true /\
  _b_get_collision_aabbs (_b_set_collision_aabbs example_boxes cube_model).1
  = example_boxes.
Proof.
  split; [reflexivity|].
  destruct (set_collision_aabbs_round_trip example_boxes cube_model
              plain_variant_round_trip) as [_ Hset].
  destruct (Hset eq_refl) as (_ & _ & _ & Hget). exact Hget.
Defined.

Lemma plain_variant_is_AABB (a : AABB) :
  Variant_is_AABB (Variant_of_AABB a) = true.
Proof. reflexivity. Defined.

Lemma plain_variant_to_AABB (a : AABB) :
  Variant_to_AABB (Variant_of_AABB a) = a.
Proof. reflexivity. Defined.

Lemma plain_vector2_coordinates (x y : float) :
  Vector2_x (Vector2_of x y) = x /\ Vector2_y (Vector2_of x y) = y.
Proof. split; reflexivity. Defined.

Lemma plain_variant_to_Vector2 (v : Vector2) :
  Variant_to_Vector2 (Variant_of_Vector2 v) = v.
Proof. reflexivity. Defined.

(** The box of a cube, read and set again. *)
Lemma get_collision_aabbs_round_trip_witness :
  length (_b_get_collision_aabbs cube_model) = 1%nat /\
  _b_set_collision_aabbs (_b_get_collision_aabbs cube_model) cube_model
  = (cube_model, None).
Proof.
  destruct (get_collision_aabbs_round_trip cube_model
              plain_variant_is_AABB plain_variant_to_AABB) as [Hlen Hset].
  split; [exact Hlen|exact Hset].
Defined.

(** The tile of the top of the cube, read and set again. *)
Lemma get_set_named_tile_witness :
  _get "cube_tiles/top" cube_model = Some example_tile /\
  (_set "cube_tiles/top" example_tile cube_model).2 = true /\
  forall s,
    _cube_tiles
      (_set "cube_tiles/top" example_tile cube_model).1 s
    = _cube_tiles cube_model s.
Proof.
  assert (Hget : _get "cube_tiles/top" cube_model = Some example_tile)
    by reflexivity.
  split; [exact Hget|].
  destruct (get_set_named_tile "cube_tiles/top" example_tile
              cube_model plain_vector2_coordinates plain_variant_to_Vector2
              Hget) as (Hok & _ & Htiles).
  split; [exact Hok|exact Htiles].
Defined.

Lemma example_named_sides :
  Forall (fun side => side <> SIDE_COUNT) named_sides.
Proof. repeat constructor; vm_compute; congruence. Defined.

(** The properties of the cube. *)
Lemma property_list_names_witness :
  Forall (fun side => side <> SIDE_COUNT) named_sides /\
  length (_get_property_list cube_model []) = 7%nat /\
  _get "cube_tiles/front" cube_model = Some example_tile.
Proof.
  split; [exact example_named_sides|].
  destruct (property_list_names cube_model [] example_named_sides)
    as (_ & Hcube & _ & Htiles).
  split; [by rewrite (Hcube eq_refl)|].
  destruct (Htiles 5%nat "cube_tiles/front"%string eq_refl)
    as (side & [= <-] & Hget & _).
  exact Hget.
Defined.

Lemma example_bake_cube :
  exists this' r,
    bake example_heap cube_model used_record 4 true = Done (this', r, None).
Proof. apply bake_done_without_error. vm_compute. reflexivity. Defined.

(** The cube baked again with another tile on the side 3. *)
Lemma tile_change_rebake_witness :
  exists this' r this2 r2,
    bake example_heap cube_model used_record 4 true = Done (this', r, None) /\
    bake example_heap (set_cube_uv_side 3 (vec2 0 1) cube_model) used_record
      4 true = Done (this2, r2, None) /\
    same_but_side_uvs 3 (BakedData.model r2) (BakedData.model r).
Proof.
  destruct example_bake_cube as (this' & r & Hrun).
  destruct (tile_change_rebake _ _ _ _ _ 3%nat (vec2 0 1) _ _ _ Hrun)
    as (this2 & r2 & Hrun2 & _ & _ & _ & _ & _ & Hsame & _).
  exists this', r, this2, r2. split; [exact Hrun|].
  split; [exact Hrun2|exact Hsame].
Defined.

(** The cube, baked twice. *)
Lemma bake_again_witness :
  exists this' r,
    bake example_heap cube_model used_record 4 true = Done (this', r, None) /\
    bake example_heap this' r 4 true = Done (this', r, None).
Proof.
  destruct example_bake_cube as (this' & r & Hrun).
  exists this', r. split; [exact Hrun|].
  exact (bake_again _ _ _ _ _ _ _ _ Hrun).
Defined.

Lemma example_bake_2 :
  exists this' r,
    bake example_heap (mesh_model 2) fresh_record 4 false
    = Done (this', r, None).
Proof. apply bake_done_without_error. vm_compute. reflexivity. Defined.

(** [tangent_triangle], which has tangents, baked without them. *)
Lemma bake_without_tangents_witness :
  exists this' r,
    bake example_heap (mesh_model 2) fresh_record 4 false
      = Done (this', r, None) /\
    forall b, bucket_tangents b (BakedData.model r) = [].
Proof.
  destruct example_bake_2 as (this' & r & Hrun).
  exists this', r. split; [exact Hrun|].
  exact (bake_without_tangents _ _ _ _ _ _ _ Hrun).
Defined.

(** The arrays of the baked [quad_and_fin]. *)
Lemma bake_vertex_arrays_witness :
  exists this' r,
    bake example_heap (mesh_model 0) used_record 4 true
      = Done (this', r, None) /\
    length (Model.normals (BakedData.model r))
      = length (Model.positions (BakedData.model r)) /\
    forall b,
      length (bucket_uvs b (BakedData.model r))
      = length (bucket_positions b (BakedData.model r)).
Proof.
  destruct example_bake_0 as (this' & r & Hrun).
  exists this', r. split; [exact Hrun|].
  exact (bake_vertex_arrays _ _ _ _ _ _ _ _ Hrun).
Defined.

(** The quad of [quad_and_fin] is on the side x = 0. *)
Lemma side_vertices_on_face_witness :
  exists this' r,
    bake example_heap (mesh_model 0) used_record 4 true
      = Done (this', r, None) /\
    vec3 0 1 1 ∈ Model.side_positions (BakedData.model r) SIDE_NEGATIVE_X /\
    on_face SIDE_NEGATIVE_X (vec3 0 1 1) = true.
Proof.
  destruct (bake_outcome_done
              (bake example_heap (mesh_model 0) used_record 4 true)
              (fun _ r e =>
                 e = None /\
                 Model.side_positions (BakedData.model r) SIDE_NEGATIVE_X
                 = [vec3 0 0 0; vec3 0 1 0; vec3 0 1 1; vec3 0 0 1]%float))
    as (this' & r & e & Hrun & -> & Hpos).
  { vm_compute. split; reflexivity. }
  assert (Hin : vec3 0 1 1
                ∈ Model.side_positions (BakedData.model r) SIDE_NEGATIVE_X).
  { rewrite Hpos. apply elem_of_cons. right. apply elem_of_cons. right.
    apply elem_of_cons. by left. }
  exists this', r. split; [exact Hrun|]. split; [exact Hin|].
  exact (proj2 (side_vertices_on_face _ _ _ _ _ _ _ _ _ _
                  example_sides_enumerated
                  (example_has_mesh_arrays 0%nat _ eq_refl) Hrun Hin)).
Defined.

Lemma example_mesh_in_range_0 :
  mesh_in_range (mesh_source quad_and_fin) true.
Proof.
  repeat split.
  - repeat constructor; vm_compute; congruence.
  - vm_compute. lia.
  - vm_compute. lia.
  - intros _ _. vm_compute. congruence.
Defined.

(** [quad_and_fin] is in range. *)
Lemma bake_mesh_completes_witness :
  mesh_in_range (mesh_source quad_and_fin) true /\
  exists this' r,
    bake example_heap (mesh_model 0) used_record 4 true
    = Done (this', r, None).
Proof.
  split; [exact example_mesh_in_range_0|].
  apply (bake_mesh_completes example_heap (mesh_model 0) used_record 4 true
           quad_and_fin (example_has_mesh_arrays 0%nat _ eq_refl)).
  - reflexivity.
  - discriminate.
  - exact example_mesh_in_range_0.
Defined.

(** The record of the cube, with tangents. *)
Lemma bake_cube_record_witness :
  exists this' r,
    bake example_heap cube_model used_record 4 true = Done (this', r, None) /\
    Model.positions (BakedData.model r) = [] /\
    Model.side_tangents (BakedData.model r) 0
    = [0; 0; -1; 1;  0; 0; -1; 1;  0; 0; -1; 1;  0; 0; -1; 1]%float.
Proof.
  destruct example_bake_cube as (this' & r & Hrun).
  exists this', r. split; [exact Hrun|].
  destruct (bake_cube_record example_heap cube_model used_record 4 true
              this' r None eq_refl Hrun)
    as (_ & (Hpos & _) & Htan).
  split; [exact Hpos|]. exact (Htan 0%nat ltac:(unfold SIDE_COUNT; lia)).
Defined.

Lemma example_bake_4 :
  exists this' r,
    bake example_heap (mesh_model 4) fresh_record 4 true
    = Done (this', r, None).
Proof. apply bake_done_without_error. vm_compute. reflexivity. Defined.

(** [no_uv_triangle] has no tangents and no UVs: the tangent generated for
    it has no direction, and a handedness. *)
Lemma generated_tangents_witness :
  exists this' r,
    bake example_heap (mesh_model 4) fresh_record 4 true
      = Done (this', r, None) /\
    forall b,
      exists tl : list (list PrimFloat.float),
        bucket_tangents b (BakedData.model r) = concat tl /\
        length tl = length (bucket_positions b (BakedData.model r)) /\
        Forall tangent_with_handedness tl.
Proof.
  destruct example_bake_4 as (this' & r & Hrun).
  exists this', r. split; [exact Hrun|].
  exact (generated_tangents _ _ _ _ _ _ _
           (example_has_mesh_arrays 4%nat _ eq_refl) eq_refl Hrun).
Defined.

Lemma example_heap_valid (a : nat) :
  _custom_mesh (mesh_model 0) = Some a -> is_Some (example_heap !! a).
Proof. intros [= <-]. by eexists. Defined.

(** The copy of the model of [quad_and_fin], with its own mesh. *)
Lemma duplicate_bakes_same_witness :
  baked (bake (duplicate true (mesh_model 0) example_heap).2
           (duplicate true (mesh_model 0) example_heap).1 used_record 4 true)
  = baked (bake example_heap (mesh_model 0) used_record 4 true).
Proof.
  exact (duplicate_bakes_same true (mesh_model 0) example_heap used_record 4
           true example_heap_valid).
Defined.

(** Three vectors in order, and two that compare equal. *)
Lemma Vector3f_lt_strict_order_witness :
  float_order /\
  Vector3fCompare.lt (vec3 0 0 1) (vec3 0 1 0) = true /\
  Vector3fCompare.lt (vec3 0 1 0) (vec3 1 0 0) = true /\
  Vector3fCompare.lt (vec3 0 0 1) (vec3 1 0 0) = true /\
  Vector3fCompare.lt (vec3 0 1 0) (vec3 0 0 1) = false.
Proof.
  split; [exact binary64_float_order|].
  destruct (Vector3f_lt_strict_order binary64_float_order)
    as (_ & Hasym & Htrans & _).
  assert (H1 : Vector3fCompare.lt (vec3 0 0 1) (vec3 0 1 0) = true)
    by reflexivity.
  assert (H2 : Vector3fCompare.lt (vec3 0 1 0) (vec3 1 0 0) = true)
    by reflexivity.
  split; [exact H1|]. split; [exact H2|].
  split; [exact (Htrans _ _ _ H1 H2)|exact (Hasym _ _ H1)].
Defined.

(** Zero and negative zero compare equal. *)
Lemma Vector3f_eq_ne_witness :
  float_order /\
  Vector3fCompare.eq (vec3 0 0 0) (vec3 (-0) 0 0) = true /\
  Vector3fCompare.ne (vec3 0 0 0) (vec3 (-0) 0 0) = false.
Proof.
  split; [exact binary64_float_order|].
  destruct (Vector3f_eq_ne binary64_float_order) as (Hne & _).
  split; [reflexivity|]. by rewrite Hne.
Defined.

Lemma example_bake_3 :
  exists this' r,
    bake example_heap (mesh_model 3) used_record 4 false
    = Done (this', r, Some ERR_NOT_TRIANGLES).
Proof.
  destruct (bake_outcome_done
              (bake example_heap (mesh_model 3) used_record 4 false)
              (fun _ _ e => e = Some ERR_NOT_TRIANGLES))
    as (this' & r & e & Hrun & ->).
  { vm_compute. reflexivity. }
  by exists this', r.
Defined.

(** [four_indices] is refused. *)
Lemma bake_error_leaves_no_geometry_witness :
  exists this' r,
    bake example_heap (mesh_model 3) used_record 4 false
      = Done (this', r, Some ERR_NOT_TRIANGLES) /\
    no_geometry (BakedData.model r) /\ BakedData.empty r = true.
Proof.
  destruct example_bake_3 as (this' & r & Hrun).
  exists this', r. split; [exact Hrun|].
  destruct (bake_error_leaves_no_geometry _ _ _ _ _ _ _ _ Hrun)
    as (Hgeo & _ & Hempty).
  split; [exact Hgeo|]. apply Hempty. discriminate.
Defined.

(** The nine indices of [quad_and_fin]. *)
Lemma bake_keeps_triangles_witness :
  exists this' r,
    bake example_heap (mesh_model 0) used_record 4 true
      = Done (this', r, None) /\
    index_count (BakedData.model r) = 9%nat.
Proof.
  destruct example_bake_0 as (this' & r & Hrun).
  exists this', r. split; [exact Hrun|].
  exact (bake_keeps_triangles _ _ _ _ _ _ _ _
           (example_has_mesh_arrays 0%nat _ eq_refl) Hrun).
Defined.

(** The five positions of [quad_and_fin]. *)
Lemma bake_vertices_bounded_witness :
  exists this' r,
    bake example_heap (mesh_model 0) used_record 4 true
      = Done (this', r, None) /\
    forall b,
      (length (bucket_positions b (BakedData.model r)) <= 5)%nat.
Proof.
  destruct example_bake_0 as (this' & r & Hrun).
  exists this', r. split; [exact Hrun|].
  exact (bake_vertices_bounded _ _ _ _ _ _ _ _
           (example_has_mesh_arrays 0%nat _ eq_refl) Hrun).
Defined.

End More_evaluation.
